(** * KubeCheck dashboard client: a shallow embedding and its properties

    The TypeScript sources of the dashboard (substitution utility, inventory
    client, scan/report client, Scan & Fix page, scan-results modal, overview
    page) are embedded as Rocq functions and the properties of the
    specification are stated over them.

    Conventions of the embedding:
    - a JavaScript string is a [string]; the tokens, markers and ids the code
      inspects are ASCII, so splitting and searching by bytes agrees with
      splitting and searching by UTF-16 code units;
    - an optional or [any]-typed string field is an [option string], [None]
      standing for [undefined];
    - numbers that hold counts and parsed id segments are exact integers;
    - the body of an answer of the inventory client is a JSON value
      ([Json.Value], its numbers doubles) where [makeRequest] reads it as it
      arrives, and a record of optional strings where the callers read the
      fields of a parsed object;
    - a JavaScript object used as an ordered table is an association list, a
      [Map] is a [gmap] and a [Set] is a [gset]. *)

From stdpp Require Import gmap strings list sorting pretty.
From Stdlib Require Import ZArith Ascii.
From Stdlib Require PrimFloat.

Local Open Scope Z_scope.

(** ** JavaScript primitives *)

Module Js.

(** [!!v] for a string-or-undefined value: the empty string and [undefined]
    are falsy. *)
Definition truthy (v : option string) : bool :=
  match v with
  | Some (String _ _) => true
  | _ => false
  end.

(** [a || b] *)
Definition or (a b : option string) : option string :=
  if truthy a then a else b.

(** [a || b || 'lit']: the chain ends in a string literal, so the result is
    a string. *)
Definition or_lit (a : option string) (lit : string) : string :=
  match a with
  | Some (String _ _ as s) => s
  | _ => lit
  end.

(** [a === 'lit'] for a string-or-undefined value. *)
Definition strict_eq (a : option string) (lit : string) : bool :=
  match a with
  | Some s => bool_decide (s = lit)
  | None => false
  end.

(** [s.includes(sub)] *)
Fixpoint includes (sub s : string) : bool :=
  if String.prefix sub s then true
  else match s with
       | EmptyString => false
       | String _ s' => includes sub s'
       end.

(** [v && v.includes(sub)] as a condition. *)
Definition has_marker (sub : string) (v : option string) : bool :=
  match v with
  | Some s => truthy v && includes sub s
  | None => false
  end.

(** Number of positions of [s] at which [sub] occurs. *)
Fixpoint occurrences (sub s : string) : nat :=
  ((if String.prefix sub s then 1 else 0) +
   match s with
   | EmptyString => 0
   | String _ s' => occurrences sub s'
   end)%nat.

Fixpoint chars (s : string) : list string :=
  match s with
  | EmptyString => []
  | String c s' => String c EmptyString :: chars s'
  end.

(** [s.split(sep)] scans [s] from the left; at a position where [sep]
    occurs the current piece is closed and the [String.length sep]
    characters of the occurrence are skipped ([skip] counts the ones still
    to drop). *)
Fixpoint split_go (sep s : string) (skip : nat) (cur : string) : list string :=
  match s with
  | EmptyString => [cur]
  | String c s' =>
      match skip with
      | S k => split_go sep s' k cur
      | O =>
          if String.prefix sep s
          then cur :: split_go sep s' (String.length sep - 1) EmptyString
          else split_go sep s' 0 (cur +:+ String c EmptyString)
      end
  end.

Definition split (sep s : string) : list string :=
  match sep with
  | EmptyString => chars s
  | String _ _ => split_go sep s 0 EmptyString
  end.

(** [pieces.join(sep)] *)
Fixpoint join (sep : string) (pieces : list string) : string :=
  match pieces with
  | [] => EmptyString
  | p :: rest =>
      match rest with
      | [] => p
      | _ :: _ => p +:+ sep +:+ join sep rest
      end
  end.

(** [s.toUpperCase()] on ASCII letters. *)
Definition upper_char (c : ascii) : ascii :=
  let n := Ascii.nat_of_ascii c in
  if (97 <=? n)%nat && (n <=? 122)%nat then Ascii.ascii_of_nat (n - 32) else c.

Fixpoint toUpperCase (s : string) : string :=
  match s with
  | EmptyString => EmptyString
  | String c s' => String (upper_char c) (toUpperCase s')
  end.

(** [Array.prototype.sort(cmp)]: a stable sort by the sign of [cmp]. The
    element [x] is put before the first [y] with [cmp x y <= 0]. *)
Fixpoint sort_insert {A} (cmp : A -> A -> Z) (x : A) (l : list A) : list A :=
  match l with
  | [] => [x]
  | y :: l' => if cmp x y <=? 0 then x :: y :: l' else y :: sort_insert cmp x l'
  end.

Fixpoint sort {A} (cmp : A -> A -> Z) (l : list A) : list A :=
  match l with
  | [] => []
  | x :: l' => sort_insert cmp x (sort cmp l')
  end.

(** [parseInt(s, 10)]: leading white space, an optional sign, then the
    longest run of decimal digits; [None] is [NaN]. The value is the exact
    integer, which is also the JavaScript number below 2^53. *)
Definition digit (c : ascii) : option Z :=
  let n := Ascii.nat_of_ascii c in
  if (48 <=? n)%nat && (n <=? 57)%nat then Some (Z.of_nat (n - 48)) else None.

Fixpoint digits_go (s : string) (acc : Z) : Z :=
  match s with
  | EmptyString => acc
  | String c s' =>
      match digit c with
      | Some d => digits_go s' (10 * acc + d)
      | None => acc
      end
  end.

Definition unsigned (s : string) : option Z :=
  match s with
  | EmptyString => None
  | String c _ =>
      match digit c with
      | Some _ => Some (digits_go s 0)
      | None => None
      end
  end.

Fixpoint trimStart (s : string) : string :=
  match s with
  | EmptyString => EmptyString
  | String c s' => if Ascii.is_space c then trimStart s' else s
  end.

Definition parseInt (s : string) : option Z :=
  match trimStart s with
  | String "-" s' => Z.opp <$> unsigned s'
  | String "+" s' => unsigned s'
  | s' => unsigned s'
  end.

(** [s.toLowerCase()] on ASCII letters. *)
Definition lower_char (c : ascii) : ascii :=
  let n := Ascii.nat_of_ascii c in
  if (65 <=? n)%nat && (n <=? 90)%nat then Ascii.ascii_of_nat (n + 32) else c.

Fixpoint toLowerCase (s : string) : string :=
  match s with
  | EmptyString => EmptyString
  | String c s' => String (lower_char c) (toLowerCase s')
  end.

(** The property names every object literal inherits from
    [Object.prototype]; reading one of them from an object that has no own
    property of that name yields a function or an object, which is truthy. *)
Definition objectPrototypeKeys : list string :=
  [ "constructor"; "__defineGetter__"; "__defineSetter__"; "hasOwnProperty";
    "__lookupGetter__"; "__lookupSetter__"; "isPrototypeOf";
    "propertyIsEnumerable"; "toString"; "valueOf"; "__proto__"; "toLocaleString" ].

(** [!!obj[key]] for an object literal whose own properties are booleans. *)
Definition flag (obj : gmap string bool) (key : string) : bool :=
  match obj !! key with
  | Some b => b
  | None => bool_decide (key ∈ objectPrototypeKeys)
  end.

End Js.

(** ** The substitution table

    [kubeVarMap] is declared, with the same nineteen entries in the same
    order, in ScanResultsModal.tsx, RemediationModal.tsx, AuditPage.tsx and
    the benchmark item card. [Object.entries] enumerates it in this order. *)

Definition kubeVarMap : list (string * string) :=
  [ ("$apiserverconf", "/etc/kubernetes/manifests/kube-apiserver.yaml");
    ("$apiserverbin", "kube-apiserver");
    ("$controllermanagerbin", "kube-controller-manager");
    ("$controllermanagerconf", "/etc/kubernetes/manifests/kube-controller-manager.yaml");
    ("$schedulerbin", "kube-scheduler");
    ("$schedulerconf", "/etc/kubernetes/manifests/kube-scheduler.yaml");
    ("$schedulerkubeconfig", "/etc/kubernetes/scheduler.conf");
    ("$controllermanagerkubeconfig", "/etc/kubernetes/controller-manager.conf");
    ("$etcddatadir", "/var/lib/etcd");
    ("$etcdconf", "/etc/kubernetes/manifests/etcd.yaml");
    ("$etcdbin", "etcd");
    ("$kubeletbin", "kubelet");
    ("$kubeletsvc", "/usr/lib/systemd/system/kubelet.service.d/10-kubeadm.conf");
    ("$kubeletkubeconfig", "/etc/kubernetes/kubelet.conf");
    ("$kubeletconf", "/var/lib/kubelet/config.yaml");
    ("$kubeletcafile", "/etc/kubernetes/pki/ca.crt");
    ("$proxybin", "kube-proxy");
    ("$proxykubeconfig", "/var/lib/kube-proxy/kubeconfig.conf");
    ("$proxyconf", "/var/lib/kube-proxy/config.conf") ].

(** [Object.entries(table).reduce((acc, [key, value]) =>
      acc.split(key).join(value), text)] *)
Definition substitute (table : list (string * string)) (text : string) : string :=
  fold_left (fun acc kv => Js.join kv.2 (Js.split kv.1 acc)) table text.


(** ** Data model *)

(** A per-check scan result as the client receives it. The client reads
    every field defensively, so each one may be absent. *)
Record CheckResult := mkCheckResult {
  r_itemId : option string;
  r_id : option string;
  r_title : option string;
  r_type : option string;
  r_status : option string;
  r_details : option string;
  r_remediation : option string;
  r_command : option string }.

(** Modelled from the spec: the declarations of [BenchmarkItem] and
    [BenchmarkSection] live in data/benchmarkData, which is not among the
    sources; the fields are those of section 3 of the specification and
    those the Scan & Fix page reads and writes. *)
Record BenchmarkItem := mkBenchmarkItem {
  i_id : string;
  i_title : string;
  i_description : string;
  i_type : string;
  i_selected : bool;
  i_status : option string;
  i_remediation : option string }.

Record BenchmarkSection := mkBenchmarkSection {
  s_id : string;
  s_title : string;
  s_items : list BenchmarkItem }.

(** A remediation result returned by [POST /api/remediate]. [rr_success]
    is [Some true] exactly when the field is the boolean [true]. *)
Record RemediationResult := mkRemediationResult {
  rr_checkId : string;
  rr_success : option bool;
  rr_status : option string;
  rr_action : option string }.

(** ** services/benchmarkAPI.ts *)

Module benchmarkAPI.

(** *** parseCheckId and the report ordering *)

Definition parseCheckId (checkId : string) : list Z :=
  match checkId with
  | EmptyString => [0]
  | String _ _ =>
      let parts :=
        map (fun part => match Js.parseInt part with
                         | Some num => num
                         | None => 0
                         end) (Js.split "." checkId) in
      if (0 <? length parts)%nat then parts else [0]
  end.

(** The loop [for (i = 0; i < Math.max(idA.length, idB.length); i++)] of the
    comparator, with [n] iterations left; [idA[i] || 0] is [nth i idA 0]. *)
Fixpoint compare_from (idA idB : list Z) (i n : nat) : Z :=
  match n with
  | O => 0
  | S n' =>
      let partA := nth i idA 0 in
      let partB := nth i idB 0 in
      if negb (partA =? partB) then partA - partB
      else compare_from idA idB (S i) n'
  end.

Definition check_key (a : CheckResult) : string :=
  Js.or_lit (Js.or (r_itemId a) (r_id a)) "".

Definition compareChecks (a b : CheckResult) : Z :=
  let idA := parseCheckId (check_key a) in
  let idB := parseCheckId (check_key b) in
  compare_from idA idB 0 (Nat.max (length idA) (length idB)).

Definition sortChecksByIdAscending (checks : list CheckResult) : list CheckResult :=
  Js.sort compareChecks checks.

(** *** exportScanResults and generateHTMLReport *)

Record Summary := mkSummary {
  total : nat;
  passed : nat;
  failed : nat;
  warnings : nat }.

Record ExportData := mkExportData {
  scanResults : list CheckResult;
  format : string;
  summary : Summary }.

Definition has_status (st : string) (r : CheckResult) : bool :=
  Js.strict_eq (r_status r) st.

Definition buildExportData (results : list CheckResult) (fmt : string) : ExportData :=
  {| scanResults := results;
     format := fmt;
     summary :=
       {| total := length results;
          passed := length (List.filter (has_status "PASS") results);
          failed := length (List.filter (has_status "FAIL") results);
          warnings := length (List.filter (has_status "WARN") results) |} |}.

(** One [<div class="section">] of the report: its title, the count shown
    next to it and its entries in document order. *)
Record ReportSection := mkReportSection {
  section_title : string;
  section_count : nat;
  section_items : list CheckResult }.

(** The generated document: the four summary tiles and the sections that
    are present, in document order. *)
Record HtmlReport := mkHtmlReport {
  tiles : Summary;
  sections : list ReportSection }.

Definition section_if_any (title : string) (items : list CheckResult) : list ReportSection :=
  if (0 <? length items)%nat
  then [ {| section_title := title; section_count := length items; section_items := items |} ]
  else [].

Definition generateHTMLReport (data : ExportData) : HtmlReport :=
  let sortedResults := sortChecksByIdAscending (scanResults data) in
  let passedItems := List.filter (has_status "PASS") sortedResults in
  let failedItems := List.filter (has_status "FAIL") sortedResults in
  let warningItems := List.filter (has_status "WARN") sortedResults in
  {| tiles := summary data;
     sections :=
       section_if_any "Failed Checks" failedItems ++
       section_if_any "Warnings" warningItems ++
       section_if_any "Passed Checks" passedItems |}.

Inductive Exported :=
  | JsonFile (data : ExportData)
  | PdfFile (report : HtmlReport)
  | HtmlFile (report : HtmlReport).

Definition exportScanResults (results : list CheckResult) (fmt : string) : Exported :=
  let exportData := buildExportData results fmt in
  if bool_decide (fmt = "json") then JsonFile exportData
  else if bool_decide (fmt = "pdf") then PdfFile (generateHTMLReport exportData)
  else HtmlFile (generateHTMLReport exportData).

(** The report a document-producing export shows, if any. *)
Definition exported_report (e : Exported) : option HtmlReport :=
  match e with
  | JsonFile _ => None
  | PdfFile r | HtmlFile r => Some r
  end.

(** *** pollScanStatus

    [getScanStatus] either answers with a body whose [data] is the scan or
    throws. The successive answers of the server are the script the polling
    loop runs against. The calls of [onProgress] and of [setTimeout] are
    recorded in order. *)

Record ScanPayload := mkScanPayload {
  scan_status : string;
  scan_progress : Z;
  scan_results : list CheckResult }.

Inductive StatusReply :=
  | Replied (scan : ScanPayload)
  | Threw (message : string).

Inductive PollEvent :=
  | OnProgress (progress : Z) (results : list CheckResult)
  | SetTimeout (ms : Z).

(** How the promise returned by [pollScanStatus] ends: resolved, rejected,
    or still pending when the script has no further answer. *)
Inductive Settled :=
  | Resolved (scan : ScanPayload)
  | Rejected (message : string)
  | Pending.

Fixpoint poll (hasOnProgress : bool) (replies : list StatusReply) : list PollEvent * Settled :=
  match replies with
  | [] => ([], Pending)
  | Threw message :: _ => ([], Rejected message)
  | Replied scan :: later =>
      let notify :=
        if hasOnProgress then [OnProgress (scan_progress scan) (scan_results scan)] else [] in
      if bool_decide (scan_status scan = "completed") then (notify, Resolved scan)
      else if bool_decide (scan_status scan = "failed") then (notify, Rejected "Scan failed")
      else let '(events, outcome) := poll hasOnProgress later in
           (notify ++ SetTimeout 2000 :: events, outcome)
  end.

Definition pollScanStatus (hasOnProgress : bool) (replies : list StatusReply) : list PollEvent * Settled :=
  poll hasOnProgress replies.

Definition is_progress (e : PollEvent) : bool :=
  match e with
  | OnProgress _ _ => true
  | SetTimeout _ => false
  end.

(** Number of times the progress callback was invoked. *)
Definition progress_calls (events : list PollEvent) : nat :=
  length (List.filter is_progress events).

End benchmarkAPI.

(** ** services/k8sAPI.ts: the inventory and bootstrap client *)

Module k8sAPI.

Record Details := mkDetails {
  d_error : option string;
  d_ssh_error : option string;
  d_output : option string }.

Record Body := mkBody {
  b_error : option string;
  b_message : option string;
  b_details : option Details }.

Definition permissionDenied : string :=
  "SSH Permission denied: The SSH key is not authorized on the remote node. Please add the public key to ~/.ssh/authorized_keys on the target node.".

(** [data.details?.field] *)
Definition details_field (field : Details -> option string) (data : Body) : option string :=
  match b_details data with
  | Some d => field d
  | None => None
  end.

(** [data.details?.output && data.details.output.includes('Permission denied')
      ? '...' : null] *)
Definition permissionHint (data : Body) : option string :=
  match details_field d_output data with
  | Some output =>
      if Js.truthy (Some output) && Js.includes "Permission denied" output
      then Some permissionDenied
      else None
  | None => None
  end.

Definition errorMsg (data : Body) : string :=
  Js.or_lit
    (Js.or (b_error data)
       (Js.or (b_message data)
          (Js.or (details_field d_error data)
             (Js.or (details_field d_ssh_error data)
                (permissionHint data)))))
    "API request failed".

Record InventoryNode := mkInventoryNode {
  n_name : string;
  n_ip : option string;
  n_user : option string;
  n_role : option string;
  n_status : option string;
  n_note : option string }.

(** The parsed body of an inventory answer: [nodes] may be missing. *)
Record InventoryData := mkInventoryData {
  inv_nodes : option (list InventoryNode);
  inv_body : Body }.

(** The parsed body of a bootstrap answer with its [success] flag. *)
Record BootstrapData := mkBootstrapData {
  boot_success : bool;
  boot_body : Body }.

(** A request of the client: the inventory query with its [refresh] flag,
    or the bootstrap post with the node names of its body. *)
Inductive Request :=
  | InventoryRequest (clusterName : string) (refresh : bool)
  | BootstrapRequest (clusterName : string) (nodeNames : list string).

(** A call of the client: the requests it sent, in order, and what it
    returned or the message of the error it threw. *)
Definition Call (A : Type) : Type := list Request * (A + string).

(** [getInventory]: one request; the answer of the server is [ok] and
    [data]. *)
Definition getInventory (clusterName : string) (refresh : bool)
    (ok : bool) (data : InventoryData) : Call InventoryData :=
  ([InventoryRequest clusterName refresh],
   if ok then inl data else inr (errorMsg (inv_body data))).

(** [bootstrapNodes]: the validation comes before the request; [server]
    answers a request for the given node names. *)
Definition bootstrapNodes (clusterName : string) (nodeNames : list string)
    (server : list string -> bool * BootstrapData) : Call BootstrapData :=
  match nodeNames with
  | [] => ([], inr "At least one node name is required")
  | _ :: _ =>
      let '(ok, data) := server nodeNames in
      ([BootstrapRequest clusterName nodeNames],
       if ok then inl data else inr (errorMsg (boot_body data)))
  end.

End k8sAPI.

(** ** JSON values

    What [res.json()] resolves with: the value [JSON.parse] gives for the
    body. A number is the double it is parsed to; an object is the list of
    its properties, each name once. *)

Module Json.

#[local] Set Warnings "-register-all".

Inductive Value :=
  | Null
  | Bool (b : bool)
  | Number (x : PrimFloat.float)
  | Str (s : string)
  | Arr (items : list Value)
  | Obj (fields : list (string * Value)).

(** [!!v], where [None] is [undefined]: [undefined], [null], [false], [0],
    [NaN] and the empty string are falsy. *)
Definition truthy (v : option Value) : bool :=
  match v with
  | None | Some Null => false
  | Some (Bool b) => b
  | Some (Number x) => negb (PrimFloat.eqb x PrimFloat.zero) && PrimFloat.eqb x x
  | Some (Str s) => negb (bool_decide (s = EmptyString))
  | Some (Arr _) | Some (Obj _) => true
  end.

(** [v.name] for a value [v] other than [null] and a [name] that no
    prototype defines, as is the case of [error], [message], [details],
    [ssh_error] and [output]: an own property of an object, and [undefined]
    on every other value. *)
Definition get (name : string) (v : Value) : option Value :=
  match v with
  | Obj fields => snd <$> List.find (fun property => bool_decide (property.1 = name)) fields
  | _ => None
  end.

(** [v?.name] *)
Definition opt_get (name : string) (v : option Value) : option Value :=
  match v with
  | None | Some Null => None
  | Some v => get name v
  end.

(** [a || b] *)
Definition or (a b : option Value) : option Value :=
  if truthy a then a else b.

(** [v === 'lit'] *)
Definition strict_eq (v : Value) (lit : string) : bool :=
  match v with
  | Str s => bool_decide (s = lit)
  | _ => false
  end.

End Json.

(** ** class K8sAPIService: [makeRequest] on the response as it arrives *)

Module K8sAPIService.

(** What [fetch] and [res.json()] give, in the order of the code: [fetch]
    rejects; or a response arrives whose body [res.json()] cannot parse; or
    the body parses to [data]. [ok] is [res.ok]. *)
Inductive Response :=
  | Unreachable (reason : string)
  | Unparsable (ok : bool) (reason : string)
  | Parsed (ok : bool) (data : Json.Value).

(** What [makeRequest] throws: the rejection of [fetch] or of [res.json()],
    which it does not catch; the [TypeError] of reading a property of
    [null] or of calling what is not a function; or [new Error(errorMsg)],
    recorded with the value the constructor is given, which is the message
    when it is a string. *)
Inductive Thrown :=
  | Rejection (reason : string)
  | TypeError
  | NewError (errorMsg : Json.Value).

(** [data.details?.output && data.details.output.includes('Permission denied')
      ? '...' : null]: [includes] is the method of a string or of an array;
    a truthy [output] of another kind has none. *)
Definition permissionHint (data : Json.Value) : Json.Value + Thrown :=
  let output := Json.opt_get "output" (Json.get "details" data) in
  if Json.truthy output then
    match output with
    | Some (Json.Str s) =>
        inl (if Js.includes "Permission denied" s
             then Json.Str k8sAPI.permissionDenied else Json.Null)
    | Some (Json.Arr items) =>
        inl (if existsb (fun item => Json.strict_eq item "Permission denied") items
             then Json.Str k8sAPI.permissionDenied else Json.Null)
    | _ => inr TypeError
    end
  else inl Json.Null.

(** [const errorMsg = data.error || data.message || data.details?.error ||
      data.details?.ssh_error || (...) || 'API request failed'], evaluated
    from the left: the hint is computed only when the four fields before it
    are falsy. *)
Definition errorMsg (data : Json.Value) : Json.Value + Thrown :=
  match data with
  | Json.Null => inr TypeError
  | _ =>
      let details := Json.get "details" data in
      let named :=
        Json.or
          (Json.or
             (Json.or (Json.get "error" data) (Json.get "message" data))
             (Json.opt_get "error" details))
          (Json.opt_get "ssh_error" details) in
      let rest :=
        match permissionHint data with
        | inl hint =>
            inl (if Json.truthy (Some hint) then hint else Json.Str "API request failed")
        | inr thrown => inr thrown
        end in
      match named with
      | Some value => if Json.truthy named then inl value else rest
      | None => rest
      end
  end.

(** [makeRequest]: [res.json()] is awaited before [res.ok] is tested. *)
Definition makeRequest (res : Response) : Json.Value + Thrown :=
  match res with
  | Unreachable reason => inr (Rejection reason)
  | Unparsable _ reason => inr (Rejection reason)
  | Parsed ok data =>
      if negb ok then
        match errorMsg data with
        | inl errorMsg => inr (NewError errorMsg)
        | inr thrown => inr thrown
        end
      else inl data
  end.

(** The body [k8sAPI.Body] describes, as a JSON value: an object whose
    fields are strings, each present or not. *)
Definition field (name : string) (v : option string) : list (string * Json.Value) :=
  match v with
  | Some s => [(name, Json.Str s)]
  | None => []
  end.

Definition json_of_details (d : k8sAPI.Details) : Json.Value :=
  Json.Obj (field "error" (k8sAPI.d_error d) ++ field "ssh_error" (k8sAPI.d_ssh_error d)
            ++ field "output" (k8sAPI.d_output d)).

Definition json_of_body (data : k8sAPI.Body) : Json.Value :=
  Json.Obj (field "error" (k8sAPI.b_error data) ++ field "message" (k8sAPI.b_message data)
            ++ match k8sAPI.b_details data with
               | Some d => [("details", json_of_details d)]
               | None => []
               end).

End K8sAPIService.

(** ** components/BootstrapModal.tsx *)

Module BootstrapModal.

Record BootstrapNode := mkBootstrapNode {
  bn_name : string;
  bn_role : option string;
  bn_status : string;
  bn_note : option string }.

(** The checkbox of a node is disabled. *)
Definition disabled (node : BootstrapNode) : bool :=
  bool_decide (bn_status node = "ready") || bool_decide (bn_status node = "unreachable").

Definition selectableNodes (nodes : list BootstrapNode) : list BootstrapNode :=
  List.filter (fun n => negb (bool_decide (bn_status n = "ready"))
                        && negb (bool_decide (bn_status n = "unreachable"))) nodes.

(** [setSelected(prev => ({ ...prev, [name]: !prev[name] }))] *)
Definition toggleNode (name : string) (prev : gmap string bool) : gmap string bool :=
  <[name := negb (Js.flag prev name)]> prev.

(** [handleSubmit]: the argument [onBootstrap] is called with, or [None]
    when it is not called. *)
Definition handleSubmit (nodes : list BootstrapNode) (selected : gmap string bool) : option (list BootstrapNode) :=
  let chosen := List.filter (fun n => Js.flag selected (bn_name n)) (selectableNodes nodes) in
  if (length chosen =? 0)%nat then None else Some chosen.

(** The [disabled] attribute of the submit button. *)
Definition submitDisabled (isLoading : bool) (nodes : list BootstrapNode) (selected : gmap string bool) : bool :=
  isLoading || forallb (fun n => negb (Js.flag selected (bn_name n))) (selectableNodes nodes).

End BootstrapModal.

(** ** layouts/MainLayout.tsx *)

Module MainLayout.

Record State := mkState {
  bootstrapNodes : list BootstrapModal.BootstrapNode;
  sidebarMessage : option string;
  inventoryUpdated : bool }.

Definition clusterName : string := "default".

(** [(res.nodes || []).map(n => ({ name, role, status: n.status ||
    'not_bootstrapped', note }))] *)
Definition toBootstrapNode (n : k8sAPI.InventoryNode) : BootstrapModal.BootstrapNode :=
  {| BootstrapModal.bn_name := k8sAPI.n_name n;
     BootstrapModal.bn_role := k8sAPI.n_role n;
     BootstrapModal.bn_status := Js.or_lit (k8sAPI.n_status n) "not_bootstrapped";
     BootstrapModal.bn_note := k8sAPI.n_note n |}.

(** [loadInventory]: [err?.message || 'Failed to load inventory'] on a
    failure. *)
Definition loadInventory (forceRefresh : bool) (ok : bool) (data : k8sAPI.InventoryData) (st : State) : State :=
  match (k8sAPI.getInventory clusterName forceRefresh ok data).2 with
  | inl res =>
      {| bootstrapNodes := map toBootstrapNode (default [] (k8sAPI.inv_nodes res));
         sidebarMessage := sidebarMessage st;
         inventoryUpdated := inventoryUpdated st |}
  | inr message =>
      {| bootstrapNodes := [];
         sidebarMessage := Some (Js.or_lit (Some message) "Failed to load inventory");
         inventoryUpdated := inventoryUpdated st |}
  end.

(** [handleBootstrap]: the message is cleared, the client is called, and on
    success the inventory is reloaded and [inventory-updated] is
    dispatched. *)
Definition handleBootstrap (selected : list BootstrapModal.BootstrapNode)
    (server : list string -> bool * k8sAPI.BootstrapData)
    (inventoryOk : bool) (inventory : k8sAPI.InventoryData) (st : State) : State :=
  let cleared :=
    {| bootstrapNodes := bootstrapNodes st; sidebarMessage := None;
       inventoryUpdated := inventoryUpdated st |} in
  match (k8sAPI.bootstrapNodes clusterName (map BootstrapModal.bn_name selected) server).2 with
  | inl res =>
      if k8sAPI.boot_success res
      then
        let loaded :=
          loadInventory true inventoryOk inventory
            {| bootstrapNodes := bootstrapNodes cleared;
               sidebarMessage := Some "Bootstrap completed successfully";
               inventoryUpdated := inventoryUpdated cleared |} in
        {| bootstrapNodes := bootstrapNodes loaded;
           sidebarMessage := sidebarMessage loaded;
           inventoryUpdated := true |}
      else
        {| bootstrapNodes := bootstrapNodes cleared;
           sidebarMessage :=
             Some (Js.or_lit
                     (Js.or (k8sAPI.b_error (k8sAPI.boot_body res))
                        (Js.or (k8sAPI.details_field k8sAPI.d_error (k8sAPI.boot_body res))
                           (k8sAPI.details_field k8sAPI.d_ssh_error (k8sAPI.boot_body res))))
                     "Bootstrap failed");
           inventoryUpdated := inventoryUpdated cleared |}
  | inr message =>
      {| bootstrapNodes := bootstrapNodes cleared;
         sidebarMessage := Some (Js.or_lit (Some message) "Bootstrap failed");
         inventoryUpdated := inventoryUpdated cleared |}
  end.

End MainLayout.

(** ** components/BenchmarkDashboard.tsx: the Scan & Fix page *)

Module BenchmarkDashboard.

Definition toggle (item : BenchmarkItem) : BenchmarkItem :=
  {| i_id := i_id item;
     i_title := i_title item;
     i_description := i_description item;
     i_type := i_type item;
     i_selected := negb (i_selected item);
     i_status := i_status item;
     i_remediation := i_remediation item |}.

Definition with_status (st : string) (item : BenchmarkItem) : BenchmarkItem :=
  {| i_id := i_id item;
     i_title := i_title item;
     i_description := i_description item;
     i_type := i_type item;
     i_selected := i_selected item;
     i_status := Some st;
     i_remediation := i_remediation item |}.

Definition with_items (items : list BenchmarkItem) (section : BenchmarkSection) : BenchmarkSection :=
  {| s_id := s_id section; s_title := s_title section; s_items := items |}.

(** The updater [handleToggleItem] passes to [setSections]. *)
Definition handleToggleItem (itemId : string) (prevSections : list BenchmarkSection) : list BenchmarkSection :=
  map (fun section =>
         with_items
           (map (fun item => if bool_decide (i_id item = itemId) then toggle item else item)
              (s_items section))
           section)
    prevSections.

(** [confirmRemediation]: the ids computed from the response. *)
Definition passedIds (results : list RemediationResult) : list string :=
  map rr_checkId
    (List.filter (fun r => Js.strict_eq (rr_status r) "PASS" || bool_decide (rr_success r = Some true))
       results).

Definition failedIds (results : list RemediationResult) : list string :=
  map rr_checkId
    (List.filter (fun r => Js.truthy (rr_status r) && negb (Js.strict_eq (rr_status r) "PASS"))
       results).

Definition includes_id (ids : list string) (x : string) : bool :=
  bool_decide (x ∈ ids).

Definition remediate_item (passed failed : list string) (item : BenchmarkItem) : BenchmarkItem :=
  if includes_id passed (i_id item) then with_status "PASS" item
  else if includes_id failed (i_id item) then with_status "FAIL" item
  else item.

(** The update of the catalog state on a successful response. *)
Definition applyRemediation (results : list RemediationResult) (prevSections : list BenchmarkSection) : list BenchmarkSection :=
  let passed := passedIds results in
  let failed := failedIds results in
  if (0 <? length passed)%nat || (0 <? length failed)%nat
  then map (fun section => with_items (map (remediate_item passed failed) (s_items section)) section)
         prevSections
  else prevSections.

(** The answer of [benchmarkAPI.remediateCheck]: a body with its [success]
    flag and results, or a thrown error. *)
Inductive RemediateReply :=
  | Answered (success : bool) (results : list RemediationResult)
  | Failed (message : string).

Record PageState := mkPageState {
  st_sections : list BenchmarkSection;
  st_remediationResults : option (list RemediationResult);
  st_errorBanner : option string;
  st_isRemediationModalOpen : bool }.

Definition confirmRemediation (reply : RemediateReply) (st : PageState) : PageState :=
  match reply with
  | Answered true results =>
      {| st_sections := applyRemediation results (st_sections st);
         st_remediationResults := Some results;
         st_errorBanner := st_errorBanner st;
         st_isRemediationModalOpen := st_isRemediationModalOpen st |}
  | Answered false _ =>
      {| st_sections := st_sections st;
         st_remediationResults := st_remediationResults st;
         st_errorBanner := Some "Remediation failed to start";
         st_isRemediationModalOpen := false |}
  | Failed message =>
      {| st_sections := st_sections st;
         st_remediationResults := st_remediationResults st;
         st_errorBanner := Some ("Failed to execute remediation: " +:+ message);
         st_isRemediationModalOpen := false |}
  end.

(** *** Node choice and role gating *)

Definition clusterName : string := "default".

(** The two pieces of page state [loadNodes] writes. *)
Record Nodes := mkNodes {
  ns_inventoryNodes : list k8sAPI.InventoryNode;
  ns_selectedNodeName : option string }.

(** [loadNodes], run by a closure in which [selectedNodeName] has the
    value [captured]; [stored] is what [localStorage] holds under
    [selectedNodeName], and [ok] and [data] are the answer to the inventory
    request. A failed request is logged and changes nothing. *)
Definition loadNodes (captured : option string) (forceRefresh : bool)
    (ok : bool) (data : k8sAPI.InventoryData) (stored : option string) (st : Nodes) : Nodes :=
  match (k8sAPI.getInventory clusterName forceRefresh ok data).2 with
  | inl res =>
      let nodes := default [] (k8sAPI.inv_nodes res) in
      {| ns_inventoryNodes := nodes;
         ns_selectedNodeName :=
           if negb (Js.truthy captured) then
             let stored := Js.or stored None in
             let stillExists :=
               match stored with
               | Some name =>
                   Js.truthy stored
                   && bool_decide
                        (is_Some (List.find (fun n => bool_decide (k8sAPI.n_name n = name)) nodes))
               | None => false
               end in
             if stillExists then stored
             else
               let ready := List.find (fun n => Js.strict_eq (k8sAPI.n_status n) "ready") nodes in
               let fallback := match ready with Some n => Some n | None => head nodes end in
               k8sAPI.n_name <$> fallback
           else ns_selectedNodeName st |}
  | inr _ => st
  end.

(** The three callers. The effect of lines 79-93 depends on [clusterName]
    alone, a constant, so it runs once, after the first render: the
    [loadNodes] it calls on mount and the one its [inventory-updated]
    listener calls are the first render's, in which [selectedNodeName] is
    its initial value, [undefined]. [refreshNodes] is made by every render
    and sees the selection of the render it was clicked in. *)
Definition onMount (ok : bool) (data : k8sAPI.InventoryData) (stored : option string)
    (st : Nodes) : Nodes :=
  loadNodes None false ok data stored st.

Definition handleInventoryUpdated (ok : bool) (data : k8sAPI.InventoryData)
    (stored : option string) (st : Nodes) : Nodes :=
  loadNodes None true ok data stored st.

Definition refreshNodes (ok : bool) (data : k8sAPI.InventoryData) (stored : option string)
    (st : Nodes) : Nodes :=
  loadNodes (ns_selectedNodeName st) true ok data stored st.

Definition selectedNodeRole (selectedNodeName : option string)
    (inventoryNodes : list k8sAPI.InventoryNode) : option string :=
  match selectedNodeName with
  | Some (String _ _ as name) =>
      match List.find (fun n => bool_decide (k8sAPI.n_name n = name)) inventoryNodes with
      | Some node =>
          let role := Js.toLowerCase <$> k8sAPI.n_role node in
          if Js.truthy role then role else None
      | None => None
      end
  | _ => None
  end.

Definition allSectionIds : list string :=
  ["section1"; "section2"; "section3"; "section4"; "section5"].

Definition getSectionsForRole (role : option string) : list string :=
  if negb (Js.truthy role) then allSectionIds
  else if Js.strict_eq role "master" then ["section1"; "section2"; "section3"; "section5"]
  else if Js.strict_eq role "worker" then ["section4"]
  else allSectionIds.

(** *** The visible catalogue *)

Definition matchesSearch (searchTerm : string) (item : BenchmarkItem) : bool :=
  Js.includes (Js.toLowerCase searchTerm) (Js.toLowerCase (i_title item))
  || Js.includes (Js.toLowerCase searchTerm) (Js.toLowerCase (i_description item))
  || Js.includes (Js.toLowerCase searchTerm) (Js.toLowerCase (i_id item)).

Definition matchesFilter (filterType : string) (item : BenchmarkItem) : bool :=
  bool_decide (filterType = "all")
  || (bool_decide (filterType = "manual") && bool_decide (i_type item = "Manual"))
  || (bool_decide (filterType = "automated") && bool_decide (i_type item = "Automated")).

Definition visible (searchTerm filterType : string) (item : BenchmarkItem) : bool :=
  matchesSearch searchTerm item && matchesFilter filterType item.

Definition allowed (role : option string) (section : BenchmarkSection) : bool :=
  bool_decide (s_id section ∈ getSectionsForRole role).

Definition filteredSections (sections : list BenchmarkSection)
    (searchTerm filterType : string) (role : option string) : list BenchmarkSection :=
  List.filter (fun section => (0 <? length (s_items section))%nat)
    (map (fun section =>
            with_items (List.filter (visible searchTerm filterType) (s_items section)) section)
       (List.filter (allowed role) sections)).

Definition totalItems (filtered : list BenchmarkSection) : nat :=
  fold_left (fun acc section => (acc + length (s_items section))%nat) filtered 0%nat.

Definition selectedItems (filtered : list BenchmarkSection) : nat :=
  fold_left (fun acc section => (acc + length (List.filter i_selected (s_items section)))%nat)
    filtered 0%nat.

Definition selectedFailedItems (filtered : list BenchmarkSection) : list BenchmarkItem :=
  flat_map (fun section =>
              List.filter (fun item => i_selected item && Js.strict_eq (i_status item) "FAIL")
                (s_items section))
    filtered.

(** *** Selection *)

Definition with_selected (flag : bool) (item : BenchmarkItem) : BenchmarkItem :=
  {| i_id := i_id item;
     i_title := i_title item;
     i_description := i_description item;
     i_type := i_type item;
     i_selected := flag;
     i_status := i_status item;
     i_remediation := i_remediation item |}.

Definition handleToggleSection (sectionId : string) (prevSections : list BenchmarkSection) : list BenchmarkSection :=
  map (fun section =>
         if bool_decide (s_id section = sectionId)
         then let allSelected := forallb i_selected (s_items section) in
              with_items (map (with_selected (negb allSelected)) (s_items section)) section
         else section)
    prevSections.

(** [handleSelectAll]: [allSelected] compares the two counts of the header,
    which are taken over the visible catalogue. *)
Definition handleSelectAll (sections : list BenchmarkSection)
    (searchTerm filterType : string) (role : option string) : list BenchmarkSection :=
  let filtered := filteredSections sections searchTerm filterType role in
  let allSelected := (selectedItems filtered =? totalItems filtered)%nat in
  map (fun section =>
         if allowed role section
         then with_items (map (with_selected (negb allSelected)) (s_items section)) section
         else section)
    sections.

(** [handleRemediateSelected]: the ids the remediation modal is opened
    with, or [None] when the handler returns early. *)
Definition handleRemediateSelected (filtered : list BenchmarkSection) : option (list string) :=
  let ids := map i_id (selectedFailedItems filtered) in
  if (length ids =? 0)%nat then None else Some ids.

(** *** Run Scan *)

Definition selectedControls (sections : list BenchmarkSection) : list BenchmarkItem :=
  flat_map (fun section => List.filter i_selected (s_items section)) sections.

(** The update of the catalogue with the results of a completed scan. *)
Definition mergeScanResults (scanResults : list CheckResult)
    (prevSections : list BenchmarkSection) : list BenchmarkSection :=
  map (fun section =>
         with_items
           (map (fun item =>
                   match List.find (fun r => bool_decide (r_itemId r = Some (i_id item))) scanResults with
                   | Some result =>
                       {| i_id := i_id item;
                          i_title := i_title item;
                          i_description := i_description item;
                          i_type := i_type item;
                          i_selected := i_selected item;
                          i_status := r_status result;
                          i_remediation := r_remediation result |}
                   | None => item
                   end)
              (s_items section))
           section)
    prevSections.

(** What [handleRunScan] leaves behind: the catalogue, the banner (its type
    and text), the results handed to the results modal, and whether
    [scan-complete] was dispatched. *)
Record ScanRun := mkScanRun {
  run_sections : list BenchmarkSection;
  run_message : string * string;
  run_lastScanResults : option (list CheckResult);
  run_dispatched : bool }.

Definition scan_error (sections : list BenchmarkSection) (text : string) : ScanRun :=
  {| run_sections := sections;
     run_message := ("error", text);
     run_lastScanResults := None;
     run_dispatched := false |}.

(** [handleRunScan] against a backend: [submitError] is the message of the
    error [submitAndScan] throws, if any; [replies] are the answers to the
    polling loop and [final] the answer to the fetch that follows it.
    [None]: the polling promise never settles. The catalogue is not
    touched by another handler while the scan runs, so the updater of
    [setSections] sees the [sections] the handler started from. *)
Definition handleRunScan (sections : list BenchmarkSection) (submitError : option string)
    (replies : list benchmarkAPI.StatusReply) (final : benchmarkAPI.StatusReply) : option ScanRun :=
  if (length (selectedControls sections) =? 0)%nat
  then Some (scan_error sections "Please select at least one benchmark item to scan")
  else
    match submitError with
    | Some message => Some (scan_error sections ("Failed to run scan: " +:+ message))
    | None =>
        match (benchmarkAPI.pollScanStatus true replies).2 with
        | benchmarkAPI.Pending => None
        | benchmarkAPI.Rejected message =>
            Some (scan_error sections ("Failed to run scan: " +:+ message))
        | benchmarkAPI.Resolved _ =>
            match final with
            | benchmarkAPI.Threw message =>
                Some (scan_error sections ("Failed to run scan: " +:+ message))
            | benchmarkAPI.Replied finalStatus =>
                if bool_decide (benchmarkAPI.scan_status finalStatus = "completed")
                then
                  let scanResults := benchmarkAPI.scan_results finalStatus in
                  let failedCount :=
                    length (List.filter (fun r => Js.strict_eq (r_status r) "FAIL") scanResults) in
                  Some {| run_sections := mergeScanResults scanResults sections;
                          run_message :=
                            (if (0 <? failedCount)%nat then "error" else "success",
                             "Scan completed! Found " +:+ pretty failedCount +:+ " failed checks.");
                          run_lastScanResults := Some scanResults;
                          run_dispatched := true |}
                else Some (scan_error sections "Failed to run scan: Scan failed to complete")
            end
        end
    end.

End BenchmarkDashboard.

(** ** The four copies of the substitution utility *)

(** [if (!text) return text; return Object.entries(kubeVarMap).reduce(...)],
    as written in ScanResultsModal.tsx, RemediationModal.tsx and the
    benchmark item card. *)
Definition substitute_or_same (text : option string) : option string :=
  match text with
  | Some (String _ _ as s) => Some (substitute kubeVarMap s)
  | _ => text
  end.

Module RemediationModal.

Definition applyKubeSubstitutions (text : option string) : option string :=
  substitute_or_same text.

End RemediationModal.

Module BenchmarkItemCard.

Definition applyKubeSubstitutions (text : option string) : option string :=
  substitute_or_same text.

End BenchmarkItemCard.

Module AuditPage.

(** [if (!text) return text || ''; return ...reduce(...)]: this copy is
    declared with return type [string]. *)
Definition applyKubeSubstitutions (text : option string) : string :=
  match text with
  | Some (String _ _ as s) => substitute kubeVarMap s
  | _ => Js.or_lit text ""
  end.

End AuditPage.

(** ** components/ScanResultsModal.tsx *)

Module ScanResultsModal.

Definition applyKubeSubstitutions (text : option string) : option string :=
  substitute_or_same text.

Definition isManual (r : CheckResult) : bool :=
  Js.strict_eq (r_type r) "Manual"
  || Js.has_marker "(Manual)" (r_title r)
  || Js.has_marker "Manual" (r_itemId r).

(** The predicate of [failedCount] and of the Failed section. *)
Definition is_failed (r : CheckResult) : bool :=
  if Js.strict_eq (r_status r) "FAIL" then negb (isManual r) else false.

(** The predicate of [warnCount] and of the Warnings section. *)
Definition is_warning (r : CheckResult) : bool :=
  if Js.strict_eq (r_status r) "WARN" then true
  else if Js.strict_eq (r_status r) "FAIL" then isManual r
  else false.

Definition is_passed (r : CheckResult) : bool :=
  Js.strict_eq (r_status r) "PASS".

(** One rendered card of a section. [r_command] stands for the first
    present one of the command fields the card reads. *)
Record Card := mkCard {
  card_result : CheckResult;
  card_details : string;
  card_remediationText : option string;
  card_remediationCommand : option string }.

Definition card_of (r : CheckResult) : Card :=
  {| card_result := r;
     card_details :=
       if isManual r then "Manual verification required" else Js.or_lit (r_details r) "";
     card_remediationText := applyKubeSubstitutions (r_remediation r);
     card_remediationCommand := applyKubeSubstitutions (r_command r) |}.

Record ModalSection := mkModalSection {
  heading : string;
  cards : list Card }.

(** The content pane: either the "All Checks Passed!" banner or the list of
    rendered sections. *)
Inductive Content :=
  | AllChecksPassed
  | ResultSections (rendered : list ModalSection).

Record Modal := mkModal {
  passedCount : nat;
  failedCount : nat;
  warnCount : nat;
  content : Content }.

Definition render (results : list CheckResult) : Modal :=
  let passedCount := length (List.filter is_passed results) in
  let failedCount := length (List.filter is_failed results) in
  let warnCount := length (List.filter is_warning results) in
  {| passedCount := passedCount;
     failedCount := failedCount;
     warnCount := warnCount;
     content :=
       if (failedCount =? 0)%nat && (warnCount =? 0)%nat then AllChecksPassed
       else ResultSections
              ((if (0 <? failedCount)%nat
                then [ {| heading := "Failed Checks";
                          cards := map card_of (List.filter is_failed results) |} ]
                else []) ++
               (if (0 <? warnCount)%nat
                then [ {| heading := "Warnings";
                          cards := map card_of (List.filter is_warning results) |} ]
                else [])) |}.

(** The component: [null] when the modal is closed. *)
Definition ScanResultsModal (isOpen : bool) (results : list CheckResult) : option Modal :=
  if isOpen then Some (render results) else None.

(** The headings of the sections the modal shows. *)
Definition headings (m : Modal) : list string :=
  match content m with
  | AllChecksPassed => []
  | ResultSections rendered => map heading rendered
  end.

End ScanResultsModal.

(** ** The overview page (DashboardPage) *)

Module DashboardPage.

(** A remediation audit event; [ev_verifyStatus] is
    [details.verifyResult.status] and [ev_postCheckStatus] is
    [details.post_check_status]. *)
Record AuditEvent := mkAuditEvent {
  ev_status : option string;
  ev_checkId : option string;
  ev_nodeName : option string;
  ev_verifyStatus : option string;
  ev_postCheckStatus : option string }.

Record ScanHistory := mkScanHistory {
  h_id : string;
  h_status : string;
  h_results : option (list CheckResult);
  h_nodeName : option string }.

(** [v?.toUpperCase() === lit] *)
Definition upper_is (v : option string) (lit : string) : bool :=
  Js.strict_eq (Js.toUpperCase <$> v) lit.

(** The filter that yields [successfulRemediations]. *)
Definition isSuccessfulRemediation (event : AuditEvent) : bool :=
  upper_is (ev_status event) "SUCCESS"
  && (upper_is (ev_verifyStatus event) "PASS" || upper_is (ev_postCheckStatus event) "PASS").

(** The filter that yields [scans]: completed, with a non-empty results
    array. *)
Definition shouldInclude (scan : ScanHistory) : bool :=
  bool_decide (h_status scan = "completed")
  && match h_results scan with
     | Some results => (0 <? length results)%nat
     | None => false
     end.

Definition isManual (r : CheckResult) : bool :=
  Js.strict_eq (r_type r) "Manual" || Js.has_marker "(Manual)" (r_title r).

(** [new Map(results.map(r => [r.itemId || r.id, r]))]: a later entry with
    the same key replaces the earlier one. *)
Definition resultMap (results : list CheckResult) : gmap (option string) CheckResult :=
  fold_left (fun m r => <[Js.or (r_itemId r) (r_id r) := r]> m) results ∅.

(** The first loop: the check ids of the events held in the component's
    [remediationEvents] state. *)
Definition addEventIds (events : list AuditEvent) (uniqueRemediated : gset (option string)) : gset (option string) :=
  fold_left (fun acc event => if Js.truthy (ev_checkId event) then {[ev_checkId event]} ∪ acc else acc)
    events uniqueRemediated.

(** The second loop: [latestMap.forEach] adds the ids that are PASS in the
    latest scan and FAIL in the previous one, unless the latest result is
    manual. *)
Definition addScanDelta (results previousResults : list CheckResult) (uniqueRemediated : gset (option string)) : gset (option string) :=
  let latestMap := resultMap results in
  let previousMap := resultMap previousResults in
  map_fold
    (fun checkId latestResult acc =>
       if Js.strict_eq (r_status latestResult) "PASS"
       then match previousMap !! checkId with
            | Some previousResult =>
                if Js.strict_eq (r_status previousResult) "FAIL" && negb (isManual latestResult)
                then {[checkId]} ∪ acc
                else acc
            | None => acc
            end
       else acc)
    uniqueRemediated latestMap.

Record Stats := mkStats {
  totalChecks : nat;
  passedChecks : nat;
  failedChecks : nat;
  warningChecks : nat;
  remediatedChecks : nat }.

(** The statistics block of [loadDashboardData], run on the filtered and
    sorted [scans] with the [remediationEvents] state the function sees.
    [None]: [setStats] is not called. The percentage [overallScore], a
    floating-point quotient, is left out of the record. *)
Definition computeStats (remediationEvents : list AuditEvent) (scans : list ScanHistory) : option Stats :=
  match scans with
  | [] => None
  | latestScan :: older =>
      let results := default [] (h_results latestScan) in
      let uniqueRemediated := addEventIds remediationEvents ∅ in
      let uniqueRemediated :=
        match older with
        | previousScan :: _ =>
            addScanDelta results (default [] (h_results previousScan)) uniqueRemediated
        | [] => uniqueRemediated
        end in
      Some {| totalChecks := length results;
              passedChecks := length (List.filter (fun r => Js.strict_eq (r_status r) "PASS") results);
              failedChecks :=
                length (List.filter (fun r => Js.strict_eq (r_status r) "FAIL" && negb (isManual r)) results);
              warningChecks :=
                length (List.filter
                          (fun r => Js.strict_eq (r_status r) "WARN"
                                    || (Js.strict_eq (r_status r) "FAIL" && isManual r)) results);
              remediatedChecks := size uniqueRemediated |}
  end.

(** *** formatTimeAgo

    The part of [formatTimeAgo] that follows the parsing of the timestamp:
    from the elapsed milliseconds [diffMs = now - time] to the text. The
    count and the unit are computed first and rendered afterwards. *)
Inductive Elapsed :=
  | JustNow
  | Ago (count : Z) (unit : string).

Definition elapsed (diffMs : Z) : Elapsed :=
  if diffMs <? 0 then JustNow
  else
    let diffMins := diffMs / 60000 in
    let diffHours := diffMs / 3600000 in
    let diffDays := diffMs / 86400000 in
    if diffMins <? 1 then JustNow
    else if diffMins <? 60 then Ago diffMins "minute"
    else if diffHours <? 24 then Ago diffHours "hour"
    else if diffDays <? 30 then Ago diffDays "day"
    else
      let diffMonths := diffDays / 30 in
      if diffMonths <? 12 then Ago diffMonths "month"
      else Ago (diffMonths / 12) "year".

Definition renderElapsed (e : Elapsed) : string :=
  match e with
  | JustNow => "Just now"
  | Ago count unit =>
      pretty count +:+ " " +:+ unit +:+ (if 1 <? count then "s" else "") +:+ " ago"
  end.

Definition formatElapsed (diffMs : Z) : string :=
  renderElapsed (elapsed diffMs).

End DashboardPage.

(** ** The properties as the specification words them

    These definitions follow the text of the specification, not the code;
    the theorems below compare them with the embedded functions. *)

Module Spec.

(** Section 4.1: every occurrence of every token is replaced by its literal
    value, in one pass over the text from the left. *)
Fixpoint expand_tokens_go (table : list (string * string)) (s : string) (skip : nat) : string :=
  match s with
  | EmptyString => EmptyString
  | String c s' =>
      match skip with
      | S k => expand_tokens_go table s' k
      | O =>
          match List.find (fun kv => String.prefix kv.1 s) table with
          | Some kv => kv.2 +:+ expand_tokens_go table s' (String.length kv.1 - 1)
          | None => String c (expand_tokens_go table s' 0)
          end
      end
  end.

Definition expand_tokens (s : string) : string :=
  expand_tokens_go kubeVarMap s 0.

(** Each of the nineteen tokens occurs exactly once in [s]. *)
Definition each_token_once (s : string) : bool :=
  forallb (fun kv => (Js.occurrences kv.1 s =? 1)%nat) kubeVarMap.

(** None of the nineteen tokens occurs in [s]. *)
Definition token_free (s : string) : bool :=
  forallb (fun kv => negb (Js.includes kv.1 s)) kubeVarMap.

(** Section 4.4: a segment that is not numeric counts as 0. *)
Definition segment_value (segment : string) : Z :=
  default 0 (Js.parseInt segment).

Definition id_segments (checkId : string) : list Z :=
  map segment_value (Js.split "." checkId).

(** A shorter id is padded with 0 on the right. *)
Definition pad (n : nat) (l : list Z) : list Z :=
  l ++ replicate (n - length l) 0.

(** Component-wise comparison of two lists of the same length: the
    difference at the first position where they differ. *)
Fixpoint componentwise (a b : list Z) : Z :=
  match a, b with
  | x :: a', y :: b' => if x =? y then componentwise a' b' else x - y
  | _, _ => 0
  end.

Definition compare_ids (idA idB : string) : Z :=
  let a := id_segments idA in
  let b := id_segments idB in
  let n := Nat.max (length a) (length b) in
  componentwise (pad n a) (pad n b).

(** Section 4.8: the checks that moved from FAIL (non-Manual) in the
    second-most-recent scan to PASS in the most recent one, for the same
    node. *)
Definition node_of (scan : DashboardPage.ScanHistory) : string :=
  Js.or_lit (DashboardPage.h_nodeName scan) "Unknown".

Definition key_of (r : CheckResult) : option string :=
  Js.or (r_itemId r) (r_id r).

Definition failed_before (previousResults : list CheckResult) (latestResult : CheckResult) : bool :=
  existsb (fun p => bool_decide (key_of p = key_of latestResult)
                    && Js.strict_eq (r_status p) "FAIL"
                    && negb (DashboardPage.isManual p))
    previousResults.

Definition moved_to_pass (latest previous : DashboardPage.ScanHistory) : gset (option string) :=
  if bool_decide (node_of latest = node_of previous)
  then list_to_set
         (map key_of
            (List.filter
               (fun l => Js.strict_eq (r_status l) "PASS"
                         && failed_before (default [] (DashboardPage.h_results previous)) l)
               (default [] (DashboardPage.h_results latest))))
  else ∅.

(** (a): the distinct check ids of the qualifying remediation events. *)
Definition event_ids (events : list DashboardPage.AuditEvent) : gset (option string) :=
  DashboardPage.addEventIds (List.filter DashboardPage.isSuccessfulRemediation events) ∅.

(** The statistic of section 4.8: the size of the union of (a) and, when
    there are at least two qualifying scans, (b). The union is taken over
    check ids; where no event qualifies, as in the input studied below,
    deduplicating by node and check id gives the same number. *)
Definition remediatedChecks (events : list DashboardPage.AuditEvent) (scans : list DashboardPage.ScanHistory) : nat :=
  match scans with
  | latest :: previous :: _ => size (event_ids events ∪ moved_to_pass latest previous)
  | _ => size (event_ids events)
  end.

(** Section 4.2: the first of the candidate fields, in priority order,
    that carries something. *)
Fixpoint first_present (candidates : list (option Json.Value)) : option Json.Value :=
  match candidates with
  | [] => None
  | candidate :: candidates' =>
      match candidate with
      | Some value => if Json.truthy candidate then Some value else first_present candidates'
      | None => first_present candidates'
      end
  end.

(** Section 4.2: whether [details.output] contains the marker. [None]: the
    output is something that cannot be searched. *)
Definition output_denied (output : option Json.Value) : option bool :=
  match output with
  | Some (Json.Str s) => Some (Js.includes "Permission denied" s)
  | Some (Json.Arr items) =>
      Some (existsb (fun item => Json.strict_eq item "Permission denied") items)
  | _ => if Json.truthy output then None else Some false
  end.

End Spec.

(** ** Proof devices *)

(** [s.split(key).join(val)] in one pass: the text with every occurrence of
    [key], found from the left, replaced by [val]. *)
Fixpoint replace_go (key val s : string) (skip : nat) : string :=
  match s with
  | EmptyString => EmptyString
  | String c s' =>
      match skip with
      | S k => replace_go key val s' k
      | O =>
          if String.prefix key s
          then val +:+ replace_go key val s' (String.length key - 1)
          else String c (replace_go key val s' 0)
      end
  end.

Fixpoint dollar_free (s : string) : bool :=
  match s with
  | EmptyString => true
  | String c s' => negb (bool_decide (c = "$"%char)) && dollar_free s'
  end.

(** A token is a dollar sign followed by characters other than it. *)
Definition token_shaped (key : string) : bool :=
  match key with
  | String c body => bool_decide (c = "$"%char) && dollar_free body
  | EmptyString => false
  end.

(** No key of the table is the beginning of another one, every key is
    token shaped and no value holds a dollar sign. *)
Definition table_ok (table : list (string * string)) : bool :=
  forallb (fun kv => token_shaped kv.1 && dollar_free kv.2) table
  && forallb (fun kv =>
                forallb (fun kv' => bool_decide (kv.1 = kv'.1) || negb (String.prefix kv.1 kv'.1))
                  table)
       table.

(** A text cut into literal pieces and token occurrences. *)
Inductive Piece :=
  | Lit (s : string)
  | Tok (key : string).

Definition piece_text (p : Piece) : string :=
  match p with
  | Lit s => s
  | Tok key => key
  end.

Fixpoint text_of (ps : list Piece) : string :=
  match ps with
  | [] => EmptyString
  | p :: ps' => piece_text p +:+ text_of ps'
  end.

Definition lookup_value (table : list (string * string)) (key : string) : option string :=
  snd <$> List.find (fun kv => bool_decide (kv.1 = key)) table.

Definition expand_piece (table : list (string * string)) (p : Piece) : Piece :=
  match p with
  | Lit s => Lit s
  | Tok key =>
      match lookup_value table key with
      | Some v => Lit v
      | None => Tok key
      end
  end.

Definition piece_ok (table : list (string * string)) (p : Piece) : Prop :=
  match p with
  | Lit s => dollar_free s = true
  | Tok key => In key (map fst table)
  end.

(** A text given as a leading separator followed by tokens, each with the
    separator that follows it. *)
Fixpoint weave (parts : list (string * string)) : string :=
  match parts with
  | [] => EmptyString
  | (word, sep) :: parts' => word +:+ sep +:+ weave parts'
  end.

Definition value_of (key : string) : string :=
  default key (lookup_value kubeVarMap key).

Definition expand_parts (parts : list (string * string)) : list (string * string) :=
  map (fun part => (value_of part.1, part.2)) parts.

(** One step of the reduction: the occurrences of one key become literal. *)
Definition replace_piece (k v : string) (p : Piece) : Piece :=
  match p with
  | Lit s => Lit s
  | Tok j => if bool_decide (j = k) then Lit v else Tok j
  end.

(** The pieces of a woven text. *)
Definition pieces_of (pre : string) (parts : list (string * string)) : list Piece :=
  Lit pre :: flat_map (fun part => [Tok part.1; Lit part.2]) parts.

(** The reduction written with [replace_go]: literal replacement of each
    key in turn, in table order. *)
Definition replace_in_order (table : list (string * string)) (text : string) : string :=
  fold_left (fun acc kv => replace_go kv.1 kv.2 acc 0) table text.

(** ** Concrete inputs *)

(** Each token once, separated by spaces, the twelfth one written between
    a dollar sign and the letters [conf]. *)
Definition nested_text : string :=
  "$apiserverconf $apiserverbin $controllermanagerbin $controllermanagerconf $schedulerbin $schedulerconf $schedulerkubeconfig $controllermanagerkubeconfig $etcddatadir $etcdconf $etcdbin $$kubeletbinconf $kubeletsvc $kubeletkubeconfig $kubeletconf $kubeletcafile $proxybin $proxykubeconfig $proxyconf".

(** The nineteen tokens in reverse table order, adjacent to each other. *)
Definition reversed_adjacent : list (string * string) :=
  map (fun kv => (kv.1, "")) (rev kubeVarMap).

Definition check_with_id (checkId : string) : CheckResult :=
  {| r_itemId := Some checkId; r_id := None; r_title := None; r_type := None;
     r_status := None; r_details := None; r_remediation := None; r_command := None |}.

Definition scan_reply (st : string) (progress : Z) : benchmarkAPI.ScanPayload :=
  {| benchmarkAPI.scan_status := st;
     benchmarkAPI.scan_progress := progress;
     benchmarkAPI.scan_results := [] |}.

(** A catalogue excerpt and scan results used as concrete inputs. *)
Definition manual_fail : CheckResult :=
  {| r_itemId := Some "1.1.9"; r_id := None;
     r_title := Some "Ensure that the CNI file permissions are set (Manual)";
     r_type := Some "Manual"; r_status := Some "FAIL";
     r_details := Some "Check failed"; r_remediation := None; r_command := None |}.

Definition automated_fail : CheckResult :=
  {| r_itemId := Some "1.2.1"; r_id := None;
     r_title := Some "Ensure that anonymous-auth is set to false";
     r_type := Some "Automated"; r_status := Some "FAIL";
     r_details := Some "Check failed"; r_remediation := None; r_command := None |}.

Definition automated_pass : CheckResult :=
  {| r_itemId := Some "1.2.1"; r_id := None;
     r_title := Some "Ensure that anonymous-auth is set to false";
     r_type := Some "Automated"; r_status := Some "PASS";
     r_details := None; r_remediation := None; r_command := None |}.

Definition item_1_2_1 : BenchmarkItem :=
  {| i_id := "1.2.1"; i_title := "Ensure that anonymous-auth is set to false";
     i_description := "Disable anonymous requests to the API server.";
     i_type := "Automated"; i_selected := true;
     i_status := Some "FAIL"; i_remediation := None |}.

Definition section1 : BenchmarkSection :=
  {| s_id := "section1"; s_title := "Control Plane Components"; s_items := [item_1_2_1] |}.

(** The fix command ran, the verification afterwards still fails. *)
Definition fix_ran_still_failing : RemediationResult :=
  {| rr_checkId := "1.2.1"; rr_success := Some true;
     rr_status := Some "FAIL"; rr_action := Some "verify" |}.

Definition page_with_section1 : BenchmarkDashboard.PageState :=
  {| BenchmarkDashboard.st_sections := [section1];
     BenchmarkDashboard.st_remediationResults := None;
     BenchmarkDashboard.st_errorBanner := None;
     BenchmarkDashboard.st_isRemediationModalOpen := true |}.

(** Two completed scans of different nodes, newest first. *)
Definition scans_of_two_nodes : list DashboardPage.ScanHistory :=
  [ {| DashboardPage.h_id := "scan-2"; DashboardPage.h_status := "completed";
       DashboardPage.h_results := Some [automated_pass];
       DashboardPage.h_nodeName := Some "k8s-master-node02" |};
    {| DashboardPage.h_id := "scan-1"; DashboardPage.h_status := "completed";
       DashboardPage.h_results := Some [automated_fail];
       DashboardPage.h_nodeName := Some "k8s-master-node01" |} ].

(** What the claims about the Scan & Fix page say of one item: the fields
    other than [selected] are kept. *)
Definition same_but_selected (item item' : BenchmarkItem) : Prop :=
  i_id item' = i_id item
  /\ i_title item' = i_title item
  /\ i_description item' = i_description item
  /\ i_type item' = i_type item
  /\ i_status item' = i_status item
  /\ i_remediation item' = i_remediation item.

(** The fields other than [status] are kept. *)
Definition same_but_status (item item' : BenchmarkItem) : Prop :=
  i_id item' = i_id item
  /\ i_title item' = i_title item
  /\ i_description item' = i_description item
  /\ i_type item' = i_type item
  /\ i_selected item' = i_selected item
  /\ i_remediation item' = i_remediation item.

(** Two catalogue states with the same sections, whose items are related
    one by one by [R]. *)
Definition sections_related (R : BenchmarkItem -> BenchmarkItem -> Prop)
    (before after : list BenchmarkSection) : Prop :=
  Forall2 (fun section section' =>
             s_id section' = s_id section
             /\ s_title section' = s_title section
             /\ Forall2 R (s_items section) (s_items section'))
    before after.

(** Some result for the check reports verification PASS or execution
    success. *)
Definition reported_passed (results : list RemediationResult) (checkId : string) : Prop :=
  exists r, r ∈ results /\ rr_checkId r = checkId
            /\ (rr_status r = Some "PASS" \/ rr_success r = Some true).

(** Some result for the check carries a verification status other than
    PASS. *)
Definition reported_failed (results : list RemediationResult) (checkId : string) : Prop :=
  exists r st, r ∈ results /\ rr_checkId r = checkId
               /\ rr_status r = Some st /\ st <> "" /\ st <> "PASS".

(** The section of a report with a given title, if it is present. *)
Definition report_section (title : string) (r : benchmarkAPI.HtmlReport) : option benchmarkAPI.ReportSection :=
  List.find (fun sec => bool_decide (benchmarkAPI.section_title sec = title))
    (benchmarkAPI.sections r).

(** A section of the report accounts for the results of one status: when
    present it shows the number of its entries, which is the number of the
    summary tile and is not 0, and its entries are the results of that
    status, ranked by id; it is absent only when no result has that
    status. *)
Definition section_accounts (results : list CheckResult) (r : benchmarkAPI.HtmlReport)
    (title st : string) (tile : nat) : Prop :=
  match report_section title r with
  | Some sec =>
      benchmarkAPI.section_count sec = tile
      /\ (0 < tile)%nat
      /\ benchmarkAPI.section_count sec = length (benchmarkAPI.section_items sec)
      /\ benchmarkAPI.section_items sec ≡ₚ List.filter (benchmarkAPI.has_status st) results
      /\ StronglySorted (fun a b => benchmarkAPI.compareChecks a b <= 0)
           (benchmarkAPI.section_items sec)
  | None => tile = 0%nat /\ Forall (fun x => r_status x <> Some st) results
  end.

(** A result whose status is none of PASS, FAIL and WARN. *)
Definition other_status (r : CheckResult) : bool :=
  negb (Js.strict_eq (r_status r) "PASS")
  && negb (Js.strict_eq (r_status r) "FAIL")
  && negb (Js.strict_eq (r_status r) "WARN").

(** An inventory as the bootstrap modal receives it, and a map of checked
    boxes. *)
Definition two_nodes : list BootstrapModal.BootstrapNode :=
  [ {| BootstrapModal.bn_name := "k8s-master-node01"; BootstrapModal.bn_role := Some "master";
       BootstrapModal.bn_status := "ready"; BootstrapModal.bn_note := None |};
    {| BootstrapModal.bn_name := "k8s-worker-node01"; BootstrapModal.bn_role := Some "worker";
       BootstrapModal.bn_status := "not_bootstrapped"; BootstrapModal.bn_note := None |} ].

Definition both_checked : gmap string bool :=
  <["k8s-master-node01" := true]> (<["k8s-worker-node01" := true]> ∅).

Definition accepting_server (names : list string) : bool * k8sAPI.BootstrapData :=
  (true, {| k8sAPI.boot_success := true;
            k8sAPI.boot_body := {| k8sAPI.b_error := None; k8sAPI.b_message := None;
                                   k8sAPI.b_details := None |} |}).

(** The time the polling loop asked to wait, in milliseconds. *)
Definition total_wait (events : list benchmarkAPI.PollEvent) : Z :=
  fold_right (fun e acc => match e with
                           | benchmarkAPI.SetTimeout ms => ms + acc
                           | benchmarkAPI.OnProgress _ _ => acc
                           end) 0 events.

(** A scan that is neither completed nor failed. *)
Definition still_running (scan : benchmarkAPI.ScanPayload) : Prop :=
  benchmarkAPI.scan_status scan <> "completed" /\ benchmarkAPI.scan_status scan <> "failed".

(** A remediation text that names the same token twice. *)
Definition kubelet_twice : list (string * string) :=
  [ ("$kubeletbin", " --version; systemctl restart "); ("$kubeletbin", "") ].

(** An inventory with a worker node whose role is written in capitals. *)
Definition worker_inventory : list k8sAPI.InventoryNode :=
  [ {| k8sAPI.n_name := "k8s-worker-node01"; k8sAPI.n_ip := Some "192.168.1.112";
       k8sAPI.n_user := Some "ansible-user"; k8sAPI.n_role := Some "Worker";
       k8sAPI.n_status := Some "ready"; k8sAPI.n_note := None |} ].

(** Bodies of bootstrap answers that are not ok: the playbook output
    reports the refused key; the same with an [error] field; and an answer
    whose [details.output] is an exit code. *)
Definition ssh_refused : Json.Value :=
  Json.Obj [("success", Json.Bool false);
            ("details",
             Json.Obj [("output", Json.Str "root@10.0.0.12: Permission denied (publickey).")])].

Definition ssh_refused_with_error : Json.Value :=
  Json.Obj [("success", Json.Bool false);
            ("error", Json.Str "Bootstrap failed on 1 node");
            ("details",
             Json.Obj [("output", Json.Str "root@10.0.0.12: Permission denied (publickey).")])].

Definition exit_code_output : Json.Value :=
  Json.Obj [("details", Json.Obj [("output", Json.Number PrimFloat.one)])].

(** The name kept in local storage is not empty and a node of the
    inventory has it. *)
Definition stored_listed (stored : option string) (nodes : list k8sAPI.InventoryNode) : Prop :=
  exists name n, stored = Some name /\ name <> "" /\ n ∈ nodes /\ k8sAPI.n_name n = name.

(** An inventory whose second node has been bootstrapped, and the page
    state from before: the first node, selected by default. *)
Definition master_not_bootstrapped : k8sAPI.InventoryNode :=
  {| k8sAPI.n_name := "k8s-master-node01"; k8sAPI.n_ip := Some "192.168.1.111";
     k8sAPI.n_user := Some "ansible-user"; k8sAPI.n_role := Some "master";
     k8sAPI.n_status := Some "not_bootstrapped"; k8sAPI.n_note := None |}.

Definition worker_ready : k8sAPI.InventoryNode :=
  {| k8sAPI.n_name := "k8s-worker-node01"; k8sAPI.n_ip := Some "192.168.1.112";
     k8sAPI.n_user := Some "ansible-user"; k8sAPI.n_role := Some "worker";
     k8sAPI.n_status := Some "ready"; k8sAPI.n_note := None |}.

Definition inventory_after_bootstrap : k8sAPI.InventoryData :=
  {| k8sAPI.inv_nodes := Some [master_not_bootstrapped; worker_ready];
     k8sAPI.inv_body :=
       {| k8sAPI.b_error := None; k8sAPI.b_message := None; k8sAPI.b_details := None |} |}.

Definition first_node_selected : BenchmarkDashboard.Nodes :=
  {| BenchmarkDashboard.ns_inventoryNodes :=
       [master_not_bootstrapped;
        {| k8sAPI.n_name := "k8s-worker-node01"; k8sAPI.n_ip := Some "192.168.1.112";
           k8sAPI.n_user := Some "ansible-user"; k8sAPI.n_role := Some "worker";
           k8sAPI.n_status := Some "not_bootstrapped"; k8sAPI.n_note := None |}];
     BenchmarkDashboard.ns_selectedNodeName := Some "k8s-master-node01" |}.

(** The answer to a status query once the scan of item 1.2.1 is done. *)
Definition completed_scan : benchmarkAPI.ScanPayload :=
  {| benchmarkAPI.scan_status := "completed";
     benchmarkAPI.scan_progress := 100;
     benchmarkAPI.scan_results := [automated_pass] |}.

(** ** String lemmas *)

Section Strings.

Lemma append_cons c (s t : string) : String c s +:+ t = String c (s +:+ t).
Proof. reflexivity. Qed.

Lemma append_nil_l (s : string) : "" +:+ s = s.
Proof. reflexivity. Qed.

Lemma append_nil_r (s : string) : s +:+ "" = s.
Proof. induction s as [|c s IH]; [done|]. by rewrite append_cons, IH. Qed.

Lemma append_assoc (s t u : string) : (s +:+ t) +:+ u = s +:+ (t +:+ u).
Proof. induction s as [|c s IH]; [done|]. by rewrite !append_cons, IH. Qed.

Lemma prefix_cons a b (s t : string) :
  String.prefix (String a s) (String b t) = bool_decide (a = b) && String.prefix s t.
Proof. simpl. destruct (Ascii.ascii_dec a b); by case_bool_decide. Qed.

Lemma prefix_nil (s : string) : String.prefix "" s = true.
Proof. by destruct s. Qed.

Lemma prefix_append (s t : string) : String.prefix s (s +:+ t) = true.
Proof.
  induction s as [|c s IH]; [apply prefix_nil|].
  rewrite append_cons, prefix_cons, IH. by rewrite bool_decide_eq_true_2.
Qed.

(** A prefix of [t +:+ rest] and [t] are comparable. *)
Lemma prefix_append_inv (key t rest : string) :
  String.prefix key (t +:+ rest) = true ->
  String.prefix key t = true \/ String.prefix t key = true.
Proof.
  revert t. induction key as [|a key IH]; intros t H.
  - left. apply prefix_nil.
  - destruct t as [|b t].
    + right. apply prefix_nil.
    + rewrite append_cons, prefix_cons in H. rewrite !prefix_cons.
      apply andb_true_iff in H as [Hab H].
      apply bool_decide_eq_true in Hab as ->.
      rewrite !bool_decide_eq_true_2 by done. simpl. by apply IH.
Qed.

Lemma dollar_free_append (s t : string) :
  dollar_free (s +:+ t) = dollar_free s && dollar_free t.
Proof.
  induction s as [|c s IH]; [done|].
  rewrite append_cons. simpl. rewrite IH. by rewrite andb_assoc.
Qed.

End Strings.

(** ** Splitting and joining is replacing *)

Section SplitJoin.

Implicit Types key val s cur rest word : string.

Lemma split_go_nonempty key s skip cur : Js.split_go key s skip cur <> [].
Proof.
  revert skip cur. induction s as [|c s IH]; intros skip cur.
  - discriminate.
  - cbn [Js.split_go]. destruct skip; [|apply IH].
    destruct (String.prefix key (String c s)); [discriminate|apply IH].
Qed.

Lemma join_cons val (p : string) (pieces : list string) :
  pieces <> [] -> Js.join val (p :: pieces) = p +:+ val +:+ Js.join val pieces.
Proof. by destruct pieces. Qed.

Lemma join_split_go key val s skip cur :
  Js.join val (Js.split_go key s skip cur) = cur +:+ replace_go key val s skip.
Proof.
  revert skip cur. induction s as [|c s IH]; intros skip cur.
  - simpl. by rewrite append_nil_r.
  - destruct skip as [|k].
    + cbn [Js.split_go replace_go].
      destruct (String.prefix key (String c s)).
      * rewrite join_cons by apply split_go_nonempty.
        by rewrite IH, append_nil_l.
      * by rewrite IH, append_assoc, append_cons, append_nil_l.
    + cbn [Js.split_go replace_go]. apply IH.
Qed.

Lemma join_split key val s :
  token_shaped key = true -> Js.join val (Js.split key s) = replace_go key val s 0.
Proof.
  intros Hkey. destruct key as [|c body]; [done|].
  unfold Js.split. rewrite join_split_go. apply append_nil_l.
Qed.

(** Where the key does not occur nothing changes. *)
Lemma replace_go_absent key val s :
  Js.includes key s = false -> replace_go key val s 0 = s.
Proof.
  induction s as [|c s IH]; [done|]. intros H.
  cbn [Js.includes] in H. cbn [replace_go].
  destruct (String.prefix key (String c s)); [done|]. by rewrite IH.
Qed.

(** The characters of an occurrence are skipped. *)
Lemma replace_go_skip key val (a : string) rest :
  replace_go key val (a +:+ rest) (String.length a) = replace_go key val rest 0.
Proof.
  induction a as [|c a IH]; [by destruct rest|].
  rewrite append_cons. simpl. apply IH.
Qed.

Lemma replace_go_hit key val rest :
  token_shaped key = true ->
  replace_go key val (key +:+ rest) 0 = val +:+ replace_go key val rest 0.
Proof.
  intros Hkey. pose proof (prefix_append key rest) as Hp.
  destruct key as [|c body]; [done|].
  rewrite append_cons in *. cbn [replace_go]. rewrite Hp.
  simpl String.length. rewrite Nat.sub_1_r. simpl Nat.pred.
  f_equal. apply replace_go_skip.
Qed.

Lemma replace_go_literal key val (a : string) rest :
  token_shaped key = true ->
  dollar_free a = true ->
  replace_go key val (a +:+ rest) 0 = a +:+ replace_go key val rest 0.
Proof.
  intros Hkey Ha. induction a as [|c a IH]; [done|].
  simpl in Ha. apply andb_true_iff in Ha as [Hc Ha].
  rewrite !append_cons. cbn [replace_go].
  rewrite IH by done.
  destruct key as [|k body]; [done|].
  rewrite prefix_cons.
  simpl in Hkey. apply andb_true_iff in Hkey as [Hk _].
  apply bool_decide_eq_true in Hk as ->.
  apply negb_true_iff, bool_decide_eq_false in Hc.
  by rewrite bool_decide_eq_false_2 by congruence.
Qed.

Lemma replace_go_miss key val word rest :
  token_shaped key = true ->
  token_shaped word = true ->
  String.prefix key word = false ->
  String.prefix word key = false ->
  replace_go key val (word +:+ rest) 0 = word +:+ replace_go key val rest 0.
Proof.
  intros Hkey Hw Hkw Hwk.
  assert (String.prefix key (word +:+ rest) = false) as Hp.
  { apply not_true_is_false. intros H.
    apply prefix_append_inv in H as [H|H]; congruence. }
  destruct word as [|c body]; [done|].
  simpl in Hw. apply andb_true_iff in Hw as [_ Hbody].
  rewrite append_cons in *. cbn [replace_go]. rewrite Hp.
  by rewrite replace_go_literal.
Qed.

End SplitJoin.

(** ** Substitution over a text cut into pieces *)

Section Pieces.

Variable table : list (string * string).
Hypothesis table_is_ok : table_ok table = true.

Lemma table_entry_ok k v :
  In (k, v) table -> token_shaped k = true /\ dollar_free v = true.
Proof.
  intros Hin. apply andb_true_iff in table_is_ok as [H _].
  rewrite forallb_forall in H. apply H in Hin. by apply andb_true_iff in Hin.
Qed.

Lemma table_key_shaped k : In k (map fst table) -> token_shaped k = true.
Proof.
  intros Hin. apply in_map_iff in Hin as [[k' v] [<- Hin]].
  by apply table_entry_ok in Hin as [? _].
Qed.

Lemma table_prefix_free k k' :
  In k (map fst table) -> In k' (map fst table) -> k <> k' ->
  String.prefix k k' = false.
Proof.
  intros Hk Hk' Hne. apply andb_true_iff in table_is_ok as [_ H].
  rewrite forallb_forall in H.
  apply in_map_iff in Hk as [[a va] [<- Hk]].
  apply in_map_iff in Hk' as [[b vb] [<- Hk']].
  apply H in Hk. rewrite forallb_forall in Hk. apply Hk in Hk'.
  simpl in *. apply orb_true_iff in Hk' as [Heq|Hp].
  - by apply bool_decide_eq_true in Heq.
  - by apply negb_true_iff in Hp.
Qed.

Lemma replace_pieces k v (ps : list Piece) :
  In (k, v) table ->
  Forall (piece_ok table) ps ->
  replace_go k v (text_of ps) 0 = text_of (map (replace_piece k v) ps).
Proof.
  intros Hin Hps. destruct (table_entry_ok _ _ Hin) as [Hk Hv].
  assert (In k (map fst table)) as Hkin by (apply in_map_iff; by exists (k, v)).
  induction Hps as [|p ps Hp _ IH]; [done|].
  destruct p as [s|j]; simpl in *.
  - by rewrite replace_go_literal, IH.
  - case_bool_decide as Hj.
    + subst j. simpl. by rewrite replace_go_hit, IH.
    + simpl. rewrite replace_go_miss, IH; auto using table_key_shaped, table_prefix_free.
Qed.

Lemma replace_piece_ok k v (p : Piece) :
  In (k, v) table -> piece_ok table p -> piece_ok table (replace_piece k v p).
Proof.
  intros Hin Hp. destruct p as [s|j]; simpl; [done|].
  case_bool_decide; simpl; [|done]. by apply table_entry_ok in Hin as [_ ?].
Qed.

Lemma expand_after_replace k v (entries : list (string * string)) (p : Piece) :
  expand_piece entries (replace_piece k v p) = expand_piece ((k, v) :: entries) p.
Proof.
  destruct p as [s|j]; [done|]. unfold expand_piece, lookup_value. simpl.
  destruct (decide (j = k)) as [->|Hne].
  - by rewrite !bool_decide_eq_true_2.
  - rewrite !bool_decide_eq_false_2 by congruence. done.
Qed.

(** The whole reduction over a prefix-free table expands each token piece
    once and leaves the literal pieces alone. *)
Lemma substitute_pieces (entries : list (string * string)) (ps : list Piece) :
  (forall kv, In kv entries -> In kv table) ->
  Forall (piece_ok table) ps ->
  substitute entries (text_of ps) = text_of (map (expand_piece entries) ps).
Proof.
  revert ps. induction entries as [|[k v] entries IH]; intros ps Hsub Hps.
  - unfold substitute. simpl. f_equal. clear Hsub Hps.
    induction ps as [|[s|j] ps IHps]; [done| |]; simpl; by f_equal.
  - assert (In (k, v) table) as Hin by (apply Hsub; by left).
    unfold substitute in *. cbn [fold_left fst snd].
    rewrite join_split by (by apply table_entry_ok in Hin as [? _]).
    rewrite replace_pieces by done.
    rewrite IH.
    + rewrite map_map. f_equal. apply map_ext. intros p. apply expand_after_replace.
    + intros kv Hkv. apply Hsub. by right.
    + apply Forall_map. eapply Forall_impl; [exact Hps|].
      intros p Hp. by apply replace_piece_ok.
Qed.

End Pieces.

Lemma kubeVarMap_ok : table_ok kubeVarMap = true.
Proof. by vm_compute. Qed.

Lemma text_of_pieces pre (parts : list (string * string)) :
  text_of (pieces_of pre parts) = pre +:+ weave parts.
Proof.
  unfold pieces_of. simpl. f_equal.
  induction parts as [|[w sep] parts IH]; [done|]. simpl. by rewrite IH.
Qed.

Lemma text_of_expanded pre (parts : list (string * string)) :
  text_of (map (expand_piece kubeVarMap) (pieces_of pre parts))
  = pre +:+ weave (expand_parts parts).
Proof.
  unfold pieces_of. cbn [map text_of expand_piece piece_text]. f_equal.
  induction parts as [|[w sep] parts IH]; [done|].
  cbn [flat_map app map text_of expand_parts weave fst snd] in *.
  rewrite IH. f_equal. unfold value_of, expand_piece.
  by destruct (lookup_value kubeVarMap w).
Qed.

Lemma substitute_weave pre (parts : list (string * string)) :
  dollar_free pre = true ->
  Forall (fun part => In part.1 (map fst kubeVarMap) /\ dollar_free part.2 = true) parts ->
  substitute kubeVarMap (pre +:+ weave parts) = pre +:+ weave (expand_parts parts).
Proof.
  intros Hpre Hparts.
  rewrite <- text_of_pieces, <- text_of_expanded.
  apply (substitute_pieces kubeVarMap kubeVarMap_ok); [done|].
  unfold pieces_of. constructor; [done|].
  induction Hparts as [|[w sep] parts [Hw Hsep] _ IH]; [constructor|].
  simpl in *. constructor; [exact Hw|]. constructor; [exact Hsep|exact IH].
Qed.

(** On a text that holds none of the keys the reduction is the identity. *)
Lemma substitute_absent (entries : list (string * string)) (s : string) :
  forallb (fun kv => token_shaped kv.1) entries = true ->
  forallb (fun kv => negb (Js.includes kv.1 s)) entries = true ->
  substitute entries s = s.
Proof.
  induction entries as [|[k v] entries IH]; [done|]. intros Hshape Hfree.
  simpl in Hshape, Hfree.
  apply andb_true_iff in Hshape as [Hk Hshape].
  apply andb_true_iff in Hfree as [Hks Hfree].
  apply negb_true_iff in Hks.
  unfold substitute in *. cbn [fold_left fst snd].
  rewrite join_split, replace_go_absent by done. by apply IH.
Qed.

Lemma substitute_is_replace (entries : list (string * string)) (text : string) :
  forallb (fun kv => token_shaped kv.1) entries = true ->
  substitute entries text = replace_in_order entries text.
Proof.
  revert text. induction entries as [|[k v] entries IH]; intros text Hshape; [done|].
  simpl in Hshape. apply andb_true_iff in Hshape as [Hk Hshape].
  unfold substitute, replace_in_order in *. cbn [fold_left fst snd].
  rewrite join_split by done. by apply IH.
Qed.

Lemma kubeVarMap_shaped : forallb (fun kv => token_shaped kv.1) kubeVarMap = true.
Proof. by vm_compute. Qed.

Lemma substitute_or_same_some (s : string) :
  substitute_or_same (Some s) = Some (substitute kubeVarMap s).
Proof. by destruct s. Qed.

(** ** Token substitution (C6, C7) *)

(** The example of the specification, with and without a separator. *)
Example substitute_adjacent_tokens :
  ScanResultsModal.applyKubeSubstitutions (Some "$etcdbin $etcdconf")
  = Some "etcd /etc/kubernetes/manifests/etcd.yaml"
  /\ ScanResultsModal.applyKubeSubstitutions (Some "$etcdbin$etcdconf")
     = Some "etcd/etc/kubernetes/manifests/etcd.yaml".
Proof. split; by vm_compute. Qed.

(** C6, as stated, fails: for absent input the copy of the scan-results
    modal returns the absent input itself, not the empty string, and so it
    does not agree with the copy of the audit page. *)
Lemma absent_input_not_empty_everywhere :
  ScanResultsModal.applyKubeSubstitutions None <> Some ""
  /\ ScanResultsModal.applyKubeSubstitutions None
     <> Some (AuditPage.applyKubeSubstitutions None).
Proof. split; discriminate. Qed.

(** C6 (amended): for absent input the audit page's copy returns the empty
    string, while the copies of the scan-results modal, the remediation
    modal and the item card return the absent input unchanged; on every
    text that is given, all four copies return the same string. *)
Theorem applyKubeSubstitutions_copies_agree :
  AuditPage.applyKubeSubstitutions None = ""
  /\ ScanResultsModal.applyKubeSubstitutions None = None
  /\ RemediationModal.applyKubeSubstitutions None = None
  /\ BenchmarkItemCard.applyKubeSubstitutions None = None
  /\ forall text : string,
       ScanResultsModal.applyKubeSubstitutions (Some text)
         = Some (AuditPage.applyKubeSubstitutions (Some text))
       /\ RemediationModal.applyKubeSubstitutions (Some text)
         = Some (AuditPage.applyKubeSubstitutions (Some text))
       /\ BenchmarkItemCard.applyKubeSubstitutions (Some text)
         = Some (AuditPage.applyKubeSubstitutions (Some text)).
Proof.
  repeat split; by destruct text.
Qed.

(** C7, as stated, fails: [nested_text] holds each of the nineteen tokens
    exactly once, yet the result is not the text with each token occurrence
    replaced by its value. Replacing [$kubeletbin] leaves [$kubeletconf]
    behind the dollar sign that preceded it, and the later step for
    [$kubeletconf] replaces that too. *)
Lemma nested_token_expanded_twice :
  Spec.each_token_once nested_text = true
  /\ ScanResultsModal.applyKubeSubstitutions (Some nested_text)
     <> Some (Spec.expand_tokens nested_text)
  /\ Js.includes "$kubeletconf" (Spec.expand_tokens nested_text) = true
  /\ ScanResultsModal.applyKubeSubstitutions (Some "$$kubeletbinconf")
     = Some "/var/lib/kubelet/config.yaml".
Proof.
  repeat split; by vm_compute.
Qed.

(** C7 (amended): the substitution is literal replacement of each key in
    turn, in table order; it is the identity on a text that holds none of
    the nineteen tokens; and on a text made of the nineteen tokens, each
    once, in any order, with separators (possibly empty) that hold no
    dollar sign, the result is that text with each token replaced by its
    table value. *)
Theorem applyKubeSubstitutions_expands_tokens
    (plain pre : string) (parts : list (string * string)) :
  Spec.token_free plain = true ->
  map fst parts ≡ₚ map fst kubeVarMap ->
  dollar_free pre = true ->
  Forall (fun part => dollar_free part.2 = true) parts ->
  (forall text : string,
     ScanResultsModal.applyKubeSubstitutions (Some text)
     = Some (replace_in_order kubeVarMap text))
  /\ ScanResultsModal.applyKubeSubstitutions (Some plain) = Some plain
  /\ ScanResultsModal.applyKubeSubstitutions (Some (pre +:+ weave parts))
     = Some (pre +:+ weave (expand_parts parts)).
Proof.
  intros Hplain Hperm Hpre Hseps.
  unfold ScanResultsModal.applyKubeSubstitutions. split; [|split].
  - intros text. rewrite substitute_or_same_some.
    by rewrite substitute_is_replace by apply kubeVarMap_shaped.
  - rewrite substitute_or_same_some. f_equal.
    apply substitute_absent; [apply kubeVarMap_shaped|exact Hplain].
  - rewrite substitute_or_same_some. f_equal.
    apply substitute_weave; [done|].
    rewrite Forall_forall in Hseps. apply Forall_forall. intros part Hin.
    split; [|by apply Hseps].
    apply list_elem_of_In. rewrite <- Hperm. apply list_elem_of_In.
    apply in_map. by apply list_elem_of_In.
Qed.

(** The theorem above at a text without tokens and at the nineteen tokens
    in reverse table order, adjacent to each other, after the word sudo. *)
Lemma applyKubeSubstitutions_expands_tokens_witness :
  (Spec.token_free "kubectl get pods -n $NAMESPACE" = true
   /\ map fst reversed_adjacent ≡ₚ map fst kubeVarMap
   /\ dollar_free "sudo " = true
   /\ Forall (fun part => dollar_free part.2 = true) reversed_adjacent)
  /\ (forall text : string,
        ScanResultsModal.applyKubeSubstitutions (Some text)
        = Some (replace_in_order kubeVarMap text))
  /\ ScanResultsModal.applyKubeSubstitutions (Some "kubectl get pods -n $NAMESPACE")
     = Some "kubectl get pods -n $NAMESPACE"
  /\ ScanResultsModal.applyKubeSubstitutions (Some ("sudo " +:+ weave reversed_adjacent))
     = Some ("sudo " +:+ weave (expand_parts reversed_adjacent)).
Proof.
  assert (map fst reversed_adjacent ≡ₚ map fst kubeVarMap) as Hperm.
  { apply (bool_decide_unpack _). by vm_compute. }
  assert (Forall (fun part : string * string => dollar_free part.2 = true) reversed_adjacent)
    as Hseps.
  { apply Forall_forall. intros part Hin. apply list_elem_of_In in Hin.
    unfold reversed_adjacent in Hin. apply in_map_iff in Hin as [kv [<- _]]. done. }
  split; [repeat split; done|].
  apply (applyKubeSubstitutions_expands_tokens
           "kubectl get pods -n $NAMESPACE" "sudo " reversed_adjacent); done.
Defined.

(** ** The report ordering (C9) *)

Section Sorting.

Context {A : Type} (cmp : A -> A -> Z).

Lemma sort_insert_Permutation (x : A) (l : list A) : Js.sort_insert cmp x l ≡ₚ x :: l.
Proof.
  induction l as [|y l IH]; [done|]. simpl.
  destruct (cmp x y <=? 0); [done|]. rewrite IH. apply Permutation_swap.
Qed.

Lemma sort_Permutation (l : list A) : Js.sort cmp l ≡ₚ l.
Proof.
  induction l as [|x l IH]; [done|]. simpl.
  by rewrite sort_insert_Permutation, IH.
Qed.

(** The comparator never ranks two elements each before the other. *)
Hypothesis cmp_opposed : forall x y, 0 < cmp x y -> cmp y x <= 0.

Lemma sort_insert_Sorted (x : A) (l : list A) :
  Sorted (fun a b => cmp a b <= 0) l ->
  Sorted (fun a b => cmp a b <= 0) (Js.sort_insert cmp x l).
Proof.
  induction 1 as [|y l Hl IH Hy]; simpl.
  - by repeat constructor.
  - destruct (Z.leb_spec (cmp x y) 0) as [Hle|Hgt].
    + constructor; [by constructor|]. by constructor.
    + constructor; [exact IH|].
      destruct l as [|z l]; simpl.
      * constructor. by apply cmp_opposed.
      * destruct (cmp x z <=? 0); constructor; [by apply cmp_opposed|].
        by inversion Hy.
Qed.

Lemma sort_Sorted (l : list A) : Sorted (fun a b => cmp a b <= 0) (Js.sort cmp l).
Proof.
  induction l as [|x l IH]; simpl; [constructor|]. by apply sort_insert_Sorted.
Qed.

End Sorting.

Lemma Sorted_weaken {A : Type} (R R' : A -> A -> Prop) (l : list A) :
  (forall a b, R a b -> R' a b) -> Sorted R l -> Sorted R' l.
Proof.
  intros HR. induction 1 as [|x l Hl IH Hx]; constructor; [exact IH|].
  destruct Hx; constructor. by apply HR.
Qed.

Lemma compare_from_opp (idA idB : list Z) i n :
  benchmarkAPI.compare_from idA idB i n = - benchmarkAPI.compare_from idB idA i n.
Proof.
  revert i. induction n as [|n IH]; intros i; [done|]. simpl.
  rewrite (Z.eqb_sym (nth i idB 0)).
  destruct (nth i idA 0 =? nth i idB 0); simpl; [apply IH|lia].
Qed.

Lemma compareChecks_opposed (a b : CheckResult) :
  0 < benchmarkAPI.compareChecks a b -> benchmarkAPI.compareChecks b a <= 0.
Proof.
  unfold benchmarkAPI.compareChecks. cbv zeta.
  rewrite (Nat.max_comm (length (benchmarkAPI.parseCheckId (benchmarkAPI.check_key b)))).
  rewrite (compare_from_opp (benchmarkAPI.parseCheckId (benchmarkAPI.check_key b))). lia.
Qed.

(** The loop of the comparator reads the two ids at the positions
    [i, i+1, ...], with 0 past the end. *)
Lemma compare_from_componentwise (idA idB : list Z) i n :
  benchmarkAPI.compare_from idA idB i n
  = Spec.componentwise (map (fun j => nth j idA 0) (seq i n))
                       (map (fun j => nth j idB 0) (seq i n)).
Proof.
  revert i. induction n as [|n IH]; intros i; [done|]. simpl.
  destruct (nth i idA 0 =? nth i idB 0); simpl; [apply IH|done].
Qed.

Lemma nth_seq_pad (l : list Z) n :
  (length l <= n)%nat -> map (fun j => nth j l 0) (seq 0 n) = Spec.pad n l.
Proof.
  unfold Spec.pad. revert n. induction l as [|x l IH]; intros n Hn.
  - clear Hn. simpl. rewrite Nat.sub_0_r. generalize 0%nat at 1.
    induction n as [|n IHn]; intros k; [done|]. simpl. f_equal; [by destruct k|apply IHn].
  - destruct n as [|n]; [simpl in Hn; lia|].
    simpl. f_equal. rewrite <- seq_shift, map_map. simpl. apply IH. simpl in Hn. lia.
Qed.

Lemma parseCheckId_segments (checkId : string) :
  benchmarkAPI.parseCheckId checkId = Spec.id_segments checkId.
Proof.
  destruct checkId as [|c s]; [done|].
  unfold benchmarkAPI.parseCheckId, Spec.id_segments, Spec.segment_value.
  cbv zeta. rewrite length_map.
  destruct (Js.split "." (String c s)) as [|p ps] eqn:E; [|done].
  exfalso. unfold Js.split in E. by apply split_go_nonempty in E.
Qed.

Lemma compareChecks_spec (a b : CheckResult) :
  benchmarkAPI.compareChecks a b
  = Spec.compare_ids (benchmarkAPI.check_key a) (benchmarkAPI.check_key b).
Proof.
  unfold benchmarkAPI.compareChecks, Spec.compare_ids. cbv zeta.
  rewrite !parseCheckId_segments, compare_from_componentwise.
  by rewrite !nth_seq_pad by lia.
Qed.

(** C9: the report orders checks by dotted id, comparing the segments as
    numbers from the left, a non-numeric segment counting as 0 and a
    shorter id being padded with 0: the comparator is [Spec.compare_ids],
    the sorted list is a rearrangement of the input in which each check is
    ranked no later than its successor, and the ids 5.1.1, 1.2, 1.10, 1.2.1
    come out as 1.2, 1.2.1, 1.10, 5.1.1. *)
Theorem sortChecksByIdAscending_dotted_ids :
  map benchmarkAPI.check_key
    (benchmarkAPI.sortChecksByIdAscending
       (map check_with_id ["5.1.1"; "1.2"; "1.10"; "1.2.1"]))
  = ["1.2"; "1.2.1"; "1.10"; "5.1.1"]
  /\ (forall a b : CheckResult,
        benchmarkAPI.compareChecks a b
        = Spec.compare_ids (benchmarkAPI.check_key a) (benchmarkAPI.check_key b))
  /\ (forall checks : list CheckResult,
        benchmarkAPI.sortChecksByIdAscending checks ≡ₚ checks
        /\ Sorted (fun a b => Spec.compare_ids (benchmarkAPI.check_key a)
                                               (benchmarkAPI.check_key b) <= 0)
             (benchmarkAPI.sortChecksByIdAscending checks)).
Proof.
  split; [by vm_compute|]. split; [apply compareChecks_spec|].
  intros checks. split; [apply sort_Permutation|].
  eapply Sorted_weaken; [|apply sort_Sorted, compareChecks_opposed].
  intros a b. simpl. by rewrite compareChecks_spec.
Qed.

(** ** Polling (C5) *)

Lemma poll_continue (scan : benchmarkAPI.ScanPayload) (later : list benchmarkAPI.StatusReply) :
  benchmarkAPI.scan_status scan <> "completed" ->
  benchmarkAPI.scan_status scan <> "failed" ->
  benchmarkAPI.poll true (benchmarkAPI.Replied scan :: later)
  = (benchmarkAPI.OnProgress (benchmarkAPI.scan_progress scan) (benchmarkAPI.scan_results scan)
       :: benchmarkAPI.SetTimeout 2000 :: (benchmarkAPI.poll true later).1,
     (benchmarkAPI.poll true later).2).
Proof.
  intros Hc Hf. cbn [benchmarkAPI.poll].
  rewrite !bool_decide_eq_false_2 by done.
  by destruct (benchmarkAPI.poll true later).
Qed.

(** C5, as stated, fails: against the statuses running, running, completed
    the progress callback is invoked three times, not twice, before the
    promise resolves. *)
Lemma pollScanStatus_three_progress_calls :
  (benchmarkAPI.pollScanStatus true
     [benchmarkAPI.Replied (scan_reply "running" 10);
      benchmarkAPI.Replied (scan_reply "running" 60);
      benchmarkAPI.Replied (scan_reply "completed" 100)]).2
  = benchmarkAPI.Resolved (scan_reply "completed" 100)
  /\ benchmarkAPI.progress_calls
       (benchmarkAPI.pollScanStatus true
          [benchmarkAPI.Replied (scan_reply "running" 10);
           benchmarkAPI.Replied (scan_reply "running" 60);
           benchmarkAPI.Replied (scan_reply "completed" 100)]).1
     <> 2%nat.
Proof. split; by vm_compute. Qed.

(** C5 (amended): against the statuses running, running, completed the
    progress callback is invoked exactly three times, once per fetch and the
    last time with the completed scan, and the promise resolves with the
    completed payload; against running, failed it is invoked twice and the
    promise is rejected with "Scan failed", never resolved. Answers the
    server would give later are not fetched. *)
Theorem pollScanStatus_terminates
    (r1 r2 final bad : benchmarkAPI.ScanPayload) (later : list benchmarkAPI.StatusReply) :
  benchmarkAPI.scan_status r1 = "running" ->
  benchmarkAPI.scan_status r2 = "running" ->
  benchmarkAPI.scan_status final = "completed" ->
  benchmarkAPI.scan_status bad = "failed" ->
  (benchmarkAPI.pollScanStatus true
     (benchmarkAPI.Replied r1 :: benchmarkAPI.Replied r2 :: benchmarkAPI.Replied final :: later)
   = ([benchmarkAPI.OnProgress (benchmarkAPI.scan_progress r1) (benchmarkAPI.scan_results r1);
       benchmarkAPI.SetTimeout 2000;
       benchmarkAPI.OnProgress (benchmarkAPI.scan_progress r2) (benchmarkAPI.scan_results r2);
       benchmarkAPI.SetTimeout 2000;
       benchmarkAPI.OnProgress (benchmarkAPI.scan_progress final) (benchmarkAPI.scan_results final)],
      benchmarkAPI.Resolved final)
   /\ benchmarkAPI.progress_calls
        (benchmarkAPI.pollScanStatus true
           (benchmarkAPI.Replied r1 :: benchmarkAPI.Replied r2 :: benchmarkAPI.Replied final :: later)).1
      = 3%nat)
  /\ (benchmarkAPI.pollScanStatus true
        (benchmarkAPI.Replied r1 :: benchmarkAPI.Replied bad :: later)
      = ([benchmarkAPI.OnProgress (benchmarkAPI.scan_progress r1) (benchmarkAPI.scan_results r1);
          benchmarkAPI.SetTimeout 2000;
          benchmarkAPI.OnProgress (benchmarkAPI.scan_progress bad) (benchmarkAPI.scan_results bad)],
         benchmarkAPI.Rejected "Scan failed")
      /\ forall scan,
           (benchmarkAPI.pollScanStatus true
              (benchmarkAPI.Replied r1 :: benchmarkAPI.Replied bad :: later)).2
           <> benchmarkAPI.Resolved scan).
Proof.
  intros H1 H2 Hfinal Hbad. unfold benchmarkAPI.pollScanStatus.
  assert (benchmarkAPI.poll true (benchmarkAPI.Replied final :: later)
          = ([benchmarkAPI.OnProgress (benchmarkAPI.scan_progress final)
                (benchmarkAPI.scan_results final)], benchmarkAPI.Resolved final)) as Ed.
  { cbn [benchmarkAPI.poll]. by rewrite Hfinal. }
  assert (benchmarkAPI.poll true (benchmarkAPI.Replied bad :: later)
          = ([benchmarkAPI.OnProgress (benchmarkAPI.scan_progress bad)
                (benchmarkAPI.scan_results bad)], benchmarkAPI.Rejected "Scan failed")) as Eb.
  { cbn [benchmarkAPI.poll]. by rewrite Hbad. }
  rewrite !(poll_continue r1), !(poll_continue r2) by (rewrite ?H1, ?H2; discriminate).
  rewrite Ed, Eb. simpl. repeat split. discriminate.
Qed.

(** The theorem above at the scripts running (10%), running (60%),
    completed (100%) and running (10%), failed (60%). *)
Lemma pollScanStatus_terminates_witness :
  (benchmarkAPI.scan_status (scan_reply "running" 10) = "running"
   /\ benchmarkAPI.scan_status (scan_reply "running" 60) = "running"
   /\ benchmarkAPI.scan_status (scan_reply "completed" 100) = "completed"
   /\ benchmarkAPI.scan_status (scan_reply "failed" 60) = "failed")
  /\ benchmarkAPI.progress_calls
       (benchmarkAPI.pollScanStatus true
          [benchmarkAPI.Replied (scan_reply "running" 10);
           benchmarkAPI.Replied (scan_reply "running" 60);
           benchmarkAPI.Replied (scan_reply "completed" 100)]).1
     = 3%nat
  /\ (benchmarkAPI.pollScanStatus true
        [benchmarkAPI.Replied (scan_reply "running" 10);
         benchmarkAPI.Replied (scan_reply "failed" 60)]).2
     = benchmarkAPI.Rejected "Scan failed".
Proof.
  split; [by repeat split|].
  destruct (pollScanStatus_terminates
              (scan_reply "running" 10) (scan_reply "running" 60)
              (scan_reply "completed" 100) (scan_reply "failed" 60) []
              eq_refl eq_refl eq_refl eq_refl) as [[_ Hcalls] [Hrej _]].
  split; [exact Hcalls|]. by rewrite Hrej.
Defined.

(** ** The inventory client's error message (C8) *)

Lemma errorMsg_chain (e m de ds : option Json.Value)
    (rest : Json.Value + K8sAPIService.Thrown) :
  match Json.or (Json.or (Json.or e m) de) ds with
  | Some value =>
      if Json.truthy (Json.or (Json.or (Json.or e m) de) ds) then inl value else rest
  | None => rest
  end
  = match Spec.first_present [e; m; de; ds] with
    | Some value => inl value
    | None => rest
    end.
Proof.
  assert (Json.truthy None = false) as Hnone by reflexivity.
  destruct e as [e|], m as [m|], de as [de|], ds as [ds|];
    unfold Json.or; cbn [Spec.first_present]; rewrite ?Hnone;
    repeat match goal with
           | |- context [Json.truthy (Some ?v)] =>
               let H := fresh "Htruthy" in
               destruct (Json.truthy (Some v)) eqn:H; cbv iota; rewrite ?H, ?Hnone
           end;
    reflexivity.
Qed.

Lemma permissionHint_denied (data : Json.Value) :
  K8sAPIService.permissionHint data
  = match Spec.output_denied (Json.opt_get "output" (Json.get "details" data)) with
    | Some true => inl (Json.Str k8sAPI.permissionDenied)
    | Some false => inl Json.Null
    | None => inr K8sAPIService.TypeError
    end.
Proof.
  unfold K8sAPIService.permissionHint, Spec.output_denied.
  destruct (Json.opt_get "output" (Json.get "details" data)) as [[|b|x|s|items|fields]|];
    try reflexivity.
  - by destruct b.
  - by destruct (Json.truthy (Some (Json.Number x))).
  - destruct s as [|c s]; [reflexivity|].
    change (Json.truthy (Some (Json.Str (String c s)))) with true. cbv iota.
    by destruct (Js.includes "Permission denied" (String c s)).
  - change (Json.truthy (Some (Json.Arr items))) with true. cbv iota.
    by destruct (existsb _ items).
Qed.

Lemma errorMsg_not_null (data : Json.Value) :
  data <> Json.Null ->
  K8sAPIService.errorMsg data
  = match Spec.first_present
            [Json.get "error" data; Json.get "message" data;
             Json.opt_get "error" (Json.get "details" data);
             Json.opt_get "ssh_error" (Json.get "details" data)] with
    | Some value => inl value
    | None =>
        match K8sAPIService.permissionHint data with
        | inl hint =>
            inl (if Json.truthy (Some hint) then hint else Json.Str "API request failed")
        | inr thrown => inr thrown
        end
    end.
Proof.
  intros Hnull. rewrite <- errorMsg_chain. by destruct data.
Qed.

(** C8: a response that is not ok and whose body parses to a JSON value
    other than [null] makes [makeRequest] throw [new Error] of the first
    truthy one of the body's [error], [message], [details.error] and
    [details.ssh_error]. When none of them is truthy, it throws the fixed
    explanation that names the authorized-keys fix if [details.output] is a
    string that contains "Permission denied" (or an array with that string
    as an element), "API request failed" if the output is absent, falsy or
    does not contain it, and a [TypeError] if the output is truthy and
    neither a string nor an array. A body that is not JSON makes it throw
    the parser's error, whatever the status of the response, and the body
    [null] a [TypeError]. *)
Theorem makeRequest_error_priority (data : Json.Value) :
  let details := Json.get "details" data in
  data <> Json.Null ->
  K8sAPIService.makeRequest (K8sAPIService.Parsed false data)
  = inr (match Spec.first_present
                 [Json.get "error" data;
                  Json.get "message" data;
                  Json.opt_get "error" details;
                  Json.opt_get "ssh_error" details] with
         | Some value => K8sAPIService.NewError value
         | None =>
             match Spec.output_denied (Json.opt_get "output" details) with
             | Some true =>
                 K8sAPIService.NewError
                   (Json.Str "SSH Permission denied: The SSH key is not authorized on the remote node. Please add the public key to ~/.ssh/authorized_keys on the target node.")
             | Some false => K8sAPIService.NewError (Json.Str "API request failed")
             | None => K8sAPIService.TypeError
             end
         end)
  /\ K8sAPIService.makeRequest (K8sAPIService.Parsed false Json.Null)
     = inr K8sAPIService.TypeError
  /\ (forall ok reason,
        K8sAPIService.makeRequest (K8sAPIService.Unparsable ok reason)
        = inr (K8sAPIService.Rejection reason)).
Proof.
  intros details Hnull. split; [|by split].
  unfold K8sAPIService.makeRequest. cbn [negb]. cbv iota.
  rewrite (errorMsg_not_null data Hnull), permissionHint_denied. fold details.
  destruct (Spec.first_present _) as [value|]; [reflexivity|].
  by destruct (Spec.output_denied _) as [[|]|].
Qed.

Lemma makeRequest_error_priority_witness :
  ssh_refused <> Json.Null
  /\ K8sAPIService.makeRequest (K8sAPIService.Parsed false ssh_refused)
     = inr (K8sAPIService.NewError
              (Json.Str "SSH Permission denied: The SSH key is not authorized on the remote node. Please add the public key to ~/.ssh/authorized_keys on the target node."))
  /\ K8sAPIService.makeRequest (K8sAPIService.Parsed false ssh_refused_with_error)
     = inr (K8sAPIService.NewError (Json.Str "Bootstrap failed on 1 node")).
Proof.
  split; [discriminate|]. split.
  - exact (proj1 (makeRequest_error_priority ssh_refused ltac:(discriminate))).
  - exact (proj1 (makeRequest_error_priority ssh_refused_with_error ltac:(discriminate))).
Defined.

(** C8, counterexample: responses that are not ok and throw none of the
    messages of the list: a gateway page that is not JSON gives the
    parser's error, the body [null] and an exit code for [details.output]
    give a [TypeError]. *)
Lemma unparsable_body_throws_parser_error :
  K8sAPIService.makeRequest
    (K8sAPIService.Unparsable false "Unexpected token < in JSON at position 0")
  = inr (K8sAPIService.Rejection "Unexpected token < in JSON at position 0")
  /\ K8sAPIService.makeRequest (K8sAPIService.Parsed false Json.Null)
     = inr K8sAPIService.TypeError
  /\ K8sAPIService.makeRequest (K8sAPIService.Parsed false exit_code_output)
     = inr K8sAPIService.TypeError.
Proof. by repeat split. Qed.

(** On a body as [k8sAPI.Body] describes it, the message [makeRequest]
    throws is the one [k8sAPI.errorMsg] computes. *)
Lemma makeRequest_typed_body (data : k8sAPI.Body) :
  K8sAPIService.makeRequest (K8sAPIService.Parsed false (K8sAPIService.json_of_body data))
  = inr (K8sAPIService.NewError (Json.Str (k8sAPI.errorMsg data))).
Proof.
  destruct data as [e m d].
  destruct e as [[|? ?]|], m as [[|? ?]|]; try reflexivity;
    destruct d as [[de ds dout]|]; try reflexivity;
    destruct de as [[|? ?]|], ds as [[|? ?]|]; try reflexivity;
    destruct dout as [[|? ?]|]; try reflexivity;
    cbv -[Js.includes];
    match goal with |- context [Js.includes ?a ?b] => destruct (Js.includes a b) end;
    reflexivity.
Qed.

(** ** The Scan & Fix page (C10, C2) *)

Lemma sections_related_map (R : BenchmarkItem -> BenchmarkItem -> Prop)
    (f : BenchmarkItem -> BenchmarkItem) (sections : list BenchmarkSection) :
  (forall item, R item (f item)) ->
  sections_related R sections
    (map (fun section => BenchmarkDashboard.with_items (map f (s_items section)) section)
       sections).
Proof.
  intros Hf. unfold sections_related. apply Forall2_fmap_r, Forall_Forall2_diag.
  apply Forall_forall. intros section _. simpl. repeat split.
  apply Forall2_fmap_r, Forall_Forall2_diag, Forall_forall. intros item _. apply Hf.
Qed.

(** C10: toggling an item id keeps the sections, their order, ids and
    titles and the items and their order; an item with that id has its
    [selected] flag negated and its other fields kept; every other item is
    unchanged. *)
Theorem handleToggleItem_frame (itemId : string) (sections : list BenchmarkSection) :
  sections_related
    (fun item item' =>
       if decide (i_id item = itemId)
       then i_selected item' = negb (i_selected item) /\ same_but_selected item item'
       else item' = item)
    sections (BenchmarkDashboard.handleToggleItem itemId sections).
Proof.
  unfold BenchmarkDashboard.handleToggleItem. apply sections_related_map.
  intros item. by case_bool_decide; case_decide.
Qed.

Lemma strict_eq_true (v : option string) (lit : string) :
  Js.strict_eq v lit = true <-> v = Some lit.
Proof.
  destruct v as [s|]; simpl; [|done].
  rewrite bool_decide_eq_true. split; congruence.
Qed.

Lemma filter_elem_of {A : Type} (p : A -> bool) (l : list A) (x : A) :
  x ∈ List.filter p l <-> x ∈ l /\ p x = true.
Proof. rewrite !list_elem_of_In. apply filter_In. Qed.

Lemma passedIds_spec (results : list RemediationResult) (checkId : string) :
  checkId ∈ BenchmarkDashboard.passedIds results <-> reported_passed results checkId.
Proof.
  unfold BenchmarkDashboard.passedIds, reported_passed.
  rewrite list_elem_of_fmap. split.
  - intros [r [-> Hr]]. apply filter_elem_of in Hr as [Hr Hp].
    exists r. split; [done|]. split; [done|].
    apply orb_true_iff in Hp as [Hp|Hp].
    + left. by apply strict_eq_true.
    + right. by apply bool_decide_eq_true in Hp.
  - intros [r [Hr [<- Hp]]]. exists r. split; [done|].
    apply filter_elem_of. split; [done|]. apply orb_true_iff.
    destruct Hp as [Hp|Hp].
    + left. by apply strict_eq_true.
    + right. by apply bool_decide_eq_true.
Qed.

Lemma failedIds_spec (results : list RemediationResult) (checkId : string) :
  checkId ∈ BenchmarkDashboard.failedIds results <-> reported_failed results checkId.
Proof.
  unfold BenchmarkDashboard.failedIds, reported_failed.
  rewrite list_elem_of_fmap. split.
  - intros [r [-> Hr]]. apply filter_elem_of in Hr as [Hr Hp].
    apply andb_true_iff in Hp as [Ht Hn]. apply negb_true_iff in Hn.
    destruct (rr_status r) as [[|c st]|] eqn:E; try done.
    exists r, (String c st). repeat split; try done.
    intros Heq. simpl in Hn. by rewrite Heq in Hn.
  - intros [r [st [Hr [<- [Hst [Hne Hnp]]]]]]. exists r. split; [done|].
    apply filter_elem_of. split; [done|]. rewrite Hst.
    apply andb_true_iff. split.
    + by destruct st.
    + apply negb_true_iff. simpl. by apply bool_decide_eq_false.
Qed.

(** C2, as stated, fails: a result whose fix command reported success but
    whose verification status is FAIL turns the item's displayed status
    into PASS. *)
Lemma success_alone_displays_pass :
  rr_success fix_ran_still_failing = Some true
  /\ rr_status fix_ran_still_failing = Some "FAIL"
  /\ map (fun section => map (fun item => (i_id item, i_status item)) (s_items section))
       (BenchmarkDashboard.st_sections
          (BenchmarkDashboard.confirmRemediation
             (BenchmarkDashboard.Answered true [fix_ran_still_failing])
             page_with_section1))
     = [[("1.2.1", Some "PASS")]].
Proof. by vm_compute. Qed.

(** C2 (amended): when the Scan & Fix page applies a successful remediation
    response, an item's displayed status becomes PASS when some result for
    its id carries the verification status PASS or reports execution
    success; failing that, it becomes FAIL when some result for its id
    carries another non-empty verification status; otherwise it is
    unchanged. The other fields of every item and the sections are kept. *)
Theorem confirmRemediation_item_status
    (results : list RemediationResult) (st : BenchmarkDashboard.PageState) :
  sections_related
    (fun item item' =>
       same_but_status item item'
       /\ (reported_passed results (i_id item) -> i_status item' = Some "PASS")
       /\ (~ reported_passed results (i_id item) ->
           reported_failed results (i_id item) -> i_status item' = Some "FAIL")
       /\ (~ reported_passed results (i_id item) ->
           ~ reported_failed results (i_id item) -> i_status item' = i_status item))
    (BenchmarkDashboard.st_sections st)
    (BenchmarkDashboard.st_sections
       (BenchmarkDashboard.confirmRemediation (BenchmarkDashboard.Answered true results) st)).
Proof.
  cbn [BenchmarkDashboard.confirmRemediation BenchmarkDashboard.st_sections].
  unfold BenchmarkDashboard.applyRemediation. cbv zeta.
  assert (forall item,
    (fun item item' =>
       same_but_status item item'
       /\ (reported_passed results (i_id item) -> i_status item' = Some "PASS")
       /\ (~ reported_passed results (i_id item) ->
           reported_failed results (i_id item) -> i_status item' = Some "FAIL")
       /\ (~ reported_passed results (i_id item) ->
           ~ reported_failed results (i_id item) -> i_status item' = i_status item))
      item
      (BenchmarkDashboard.remediate_item
         (BenchmarkDashboard.passedIds results) (BenchmarkDashboard.failedIds results) item))
    as Hitem.
  { intros item. unfold BenchmarkDashboard.remediate_item, BenchmarkDashboard.includes_id.
    rewrite <- passedIds_spec, <- failedIds_spec.
    repeat case_bool_decide; unfold same_but_status; simpl; by repeat split. }
  destruct (_ || _) eqn:Hany.
  - by apply sections_related_map.
  - apply orb_false_iff in Hany as [Hp Hf].
    apply Nat.ltb_ge in Hp, Hf.
    destruct (BenchmarkDashboard.passedIds results) as [|? ?] eqn:Ep; [|simpl in Hp; lia].
    destruct (BenchmarkDashboard.failedIds results) as [|? ?] eqn:Ef; [|simpl in Hf; lia].
    unfold sections_related. apply Forall_Forall2_diag, Forall_forall.
    intros section _. repeat split.
    apply Forall_Forall2_diag, Forall_forall. intros item _.
    specialize (Hitem item). by unfold BenchmarkDashboard.remediate_item in Hitem.
Qed.

(** ** The exported report (C1) *)

(** C1, evaluated on the code: exporting a Manual check that failed,
    together with a passed one, lists the Manual check under "Failed
    Checks", shows no "Warnings" section and counts it as failed in the
    summary, while the scan-results modal counts the same result as a
    warning. *)
Theorem export_lists_manual_fail_as_failed :
  benchmarkAPI.exportScanResults [manual_fail; automated_pass] "html"
  = benchmarkAPI.HtmlFile
      {| benchmarkAPI.tiles :=
           {| benchmarkAPI.total := 2; benchmarkAPI.passed := 1;
              benchmarkAPI.failed := 1; benchmarkAPI.warnings := 0 |};
         benchmarkAPI.sections :=
           [ {| benchmarkAPI.section_title := "Failed Checks";
                benchmarkAPI.section_count := 1;
                benchmarkAPI.section_items := [manual_fail] |};
             {| benchmarkAPI.section_title := "Passed Checks";
                benchmarkAPI.section_count := 1;
                benchmarkAPI.section_items := [automated_pass] |} ] |}
  /\ ScanResultsModal.failedCount (ScanResultsModal.render [manual_fail; automated_pass]) = 0%nat
  /\ ScanResultsModal.warnCount (ScanResultsModal.render [manual_fail; automated_pass]) = 1%nat.
Proof. by vm_compute. Qed.

(** ** The remediated-checks statistic (C3) *)

(** C3, evaluated on the code: with no remediation event and two scans of
    different nodes, a check that failed on the one node and passes on the
    other is counted as remediated, where the statistic of the
    specification, which compares scans of the same node only, is 0. *)
Theorem remediatedChecks_compares_across_nodes :
  DashboardPage.computeStats [] scans_of_two_nodes
  = Some {| DashboardPage.totalChecks := 1; DashboardPage.passedChecks := 1;
            DashboardPage.failedChecks := 0; DashboardPage.warningChecks := 0;
            DashboardPage.remediatedChecks := 1 |}
  /\ Spec.remediatedChecks [] scans_of_two_nodes = 0%nat.
Proof. by vm_compute. Qed.

(** ** The scan-results modal (C4) *)

Lemma filter_length_pos {A : Type} (p : A -> bool) (l : list A) :
  (0 < length (List.filter p l))%nat <-> exists x, x ∈ l /\ p x = true.
Proof.
  split.
  - destruct (List.filter p l) as [|x l'] eqn:E; [simpl; lia|]. intros _.
    exists x. apply filter_elem_of. rewrite E. left.
  - intros [x Hx]. apply filter_elem_of in Hx.
    destruct (List.filter p l); [by apply elem_of_nil in Hx|simpl; lia].
Qed.

Lemma is_failed_spec (r : CheckResult) :
  ScanResultsModal.is_failed r = true
  <-> r_status r = Some "FAIL" /\ ScanResultsModal.isManual r = false.
Proof.
  unfold ScanResultsModal.is_failed. rewrite <- strict_eq_true.
  destruct (Js.strict_eq (r_status r) "FAIL"), (ScanResultsModal.isManual r);
    simpl; intuition congruence.
Qed.

Lemma is_warning_spec (r : CheckResult) :
  ScanResultsModal.is_warning r = true
  <-> r_status r = Some "WARN"
      \/ (r_status r = Some "FAIL" /\ ScanResultsModal.isManual r = true).
Proof.
  unfold ScanResultsModal.is_warning. rewrite <- !strict_eq_true.
  destruct (Js.strict_eq (r_status r) "WARN"), (Js.strict_eq (r_status r) "FAIL"),
    (ScanResultsModal.isManual r); simpl; intuition congruence.
Qed.

(** C4, as stated, fails: a result list with a passed check has no Passed
    section. With only passed checks the modal shows the "All Checks
    Passed!" banner and no section; with a passed and a failed check it
    shows the Failed section alone. *)
Lemma modal_renders_no_passed_section :
  (exists m, ScanResultsModal.ScanResultsModal true [automated_pass] = Some m
             /\ ScanResultsModal.passedCount m = 1%nat
             /\ ScanResultsModal.content m = ScanResultsModal.AllChecksPassed
             /\ ScanResultsModal.headings m = [])
  /\ (exists m, ScanResultsModal.ScanResultsModal true [automated_pass; automated_fail] = Some m
                /\ ScanResultsModal.passedCount m = 1%nat
                /\ ScanResultsModal.headings m = ["Failed Checks"]).
Proof. split; eexists; by vm_compute. Qed.

(** C4 (amended): the open scan-results modal renders a Failed section
    exactly when some result is FAIL and not Manual, and a Warnings section
    exactly when some result is WARN or is FAIL and Manual; it renders no
    other section, so passed results only enter the count of the summary;
    when neither group has a member the "All Checks Passed!" banner takes
    the place of the sections. *)
Theorem ScanResultsModal_sections (results : list CheckResult) :
  exists m,
    ScanResultsModal.ScanResultsModal true results = Some m
    /\ ("Failed Checks" ∈ ScanResultsModal.headings m
        <-> exists r, r ∈ results /\ r_status r = Some "FAIL"
                      /\ ScanResultsModal.isManual r = false)
    /\ ("Warnings" ∈ ScanResultsModal.headings m
        <-> exists r, r ∈ results
                      /\ (r_status r = Some "WARN"
                          \/ (r_status r = Some "FAIL" /\ ScanResultsModal.isManual r = true)))
    /\ (forall h, h ∈ ScanResultsModal.headings m -> h = "Failed Checks" \/ h = "Warnings")
    /\ ScanResultsModal.passedCount m
       = length (List.filter (fun r => Js.strict_eq (r_status r) "PASS") results)
    /\ (ScanResultsModal.content m = ScanResultsModal.AllChecksPassed
        <-> ScanResultsModal.headings m = []).
Proof.
  eexists. split; [reflexivity|].
  unfold ScanResultsModal.headings, ScanResultsModal.render.
  cbn [ScanResultsModal.content ScanResultsModal.passedCount].
  pose proof (filter_length_pos ScanResultsModal.is_failed results) as Hf.
  pose proof (filter_length_pos ScanResultsModal.is_warning results) as Hw.
  setoid_rewrite is_failed_spec in Hf. setoid_rewrite is_warning_spec in Hw.
  rewrite <- Hf, <- Hw. clear Hf Hw.
  destruct (length (List.filter ScanResultsModal.is_failed results)) as [|nf];
    destruct (length (List.filter ScanResultsModal.is_warning results)) as [|nw];
    simpl; repeat split; intros;
    repeat match goal with
           | H : _ ∈ _ |- _ => apply list_elem_of_In in H; simpl in H
           end;
    rewrite ?list_elem_of_In; simpl;
    intuition (try lia; try discriminate; try (subst; auto)).
Qed.

(** ** Further properties of the Scan & Fix page *)

Lemma with_items_same (section : BenchmarkSection) :
  BenchmarkDashboard.with_items (s_items section) section = section.
Proof. by destruct section. Qed.

Lemma map_sections_id (f : BenchmarkItem -> BenchmarkItem) (sections : list BenchmarkSection) :
  (forall item, f item = item) ->
  map (fun section => BenchmarkDashboard.with_items (map f (s_items section)) section) sections
  = sections.
Proof.
  intros Hf. rewrite <- (map_id sections) at 2. apply map_ext. intros section.
  rewrite (map_ext f (fun item => item)) by exact Hf. rewrite map_id. apply with_items_same.
Qed.

(** X1: toggling the same item id twice gives back the catalogue state
    the page started from. *)
Theorem handleToggleItem_twice (itemId : string) (sections : list BenchmarkSection) :
  BenchmarkDashboard.handleToggleItem itemId
    (BenchmarkDashboard.handleToggleItem itemId sections)
  = sections.
Proof.
  unfold BenchmarkDashboard.handleToggleItem. rewrite map_map. simpl.
  rewrite <- (map_sections_id (fun item => item) sections) at 2 by done.
  apply map_ext. intros section. unfold BenchmarkDashboard.with_items. simpl.
  f_equal. rewrite map_map. apply map_ext. intros item.
  destruct item as [i t d ty sel st rem].
  destruct (decide (i = itemId)) as [Heq|Hne]; simpl.
  - rewrite (bool_decide_eq_true_2 _ Heq). simpl.
    rewrite (bool_decide_eq_true_2 _ Heq). unfold BenchmarkDashboard.toggle. simpl.
    by rewrite negb_involutive.
  - rewrite (bool_decide_eq_false_2 _ Hne). simpl.
    by rewrite (bool_decide_eq_false_2 _ Hne).
Qed.

(** X2: toggling a section selects all of its items unless all of them
    were selected already, in which case it deselects them all; nothing
    but the [selected] flags of that section changes. *)
Theorem handleToggleSection_all_or_none (sectionId : string) (sections : list BenchmarkSection) :
  Forall2
    (fun section section' =>
       s_id section' = s_id section
       /\ s_title section' = s_title section
       /\ if decide (s_id section = sectionId)
          then Forall2
                 (fun item item' =>
                    same_but_selected item item'
                    /\ i_selected item' = negb (forallb i_selected (s_items section)))
                 (s_items section) (s_items section')
          else section' = section)
    sections (BenchmarkDashboard.handleToggleSection sectionId sections).
Proof.
  unfold BenchmarkDashboard.handleToggleSection.
  apply Forall2_fmap_r, Forall_Forall2_diag, Forall_forall. intros section _.
  unfold compose. cbv beta. destruct (decide (s_id section = sectionId)) as [Heq|Hne].
  - rewrite (bool_decide_eq_true_2 _ Heq). simpl. repeat split.
    apply Forall2_fmap_r, Forall_Forall2_diag, Forall_forall. by intros item _.
  - by rewrite (bool_decide_eq_false_2 _ Hne).
Qed.

Lemma shown_sections_gated (sections : list BenchmarkSection)
    (searchTerm filterType : string) (role : option string) :
  Forall
    (fun shown =>
       s_id shown ∈ BenchmarkDashboard.getSectionsForRole role
       /\ s_items shown <> []
       /\ (exists section,
             section ∈ sections
             /\ s_id shown = s_id section
             /\ s_title shown = s_title section
             /\ s_items shown
                = List.filter (BenchmarkDashboard.visible searchTerm filterType) (s_items section))
       /\ (role = Some "worker" -> s_id shown = "section4")
       /\ (role = Some "master" -> s_id shown <> "section4"))
    (BenchmarkDashboard.filteredSections sections searchTerm filterType role).
Proof.
  apply Forall_forall. intros shown Hin.
  unfold BenchmarkDashboard.filteredSections in Hin.
  apply filter_elem_of in Hin as [Hin Hlen].
  apply list_elem_of_fmap in Hin as [section [-> Hin]].
  apply filter_elem_of in Hin as [Hin Hallowed].
  apply bool_decide_eq_true in Hallowed. simpl in *.
  split; [done|]. split.
  { intros E. rewrite E in Hlen. discriminate. }
  split; [by exists section|]. split.
  - intros ->. vm_compute in Hallowed. by apply list_elem_of_singleton in Hallowed.
  - intros -> E. rewrite E in Hallowed. vm_compute in Hallowed.
    repeat (apply elem_of_cons in Hallowed as [Hallowed|Hallowed]; [discriminate|]).
    by apply elem_of_nil in Hallowed.
Qed.

(** X3: whatever the search text and the type filter, every section the
    page shows is allowed for the role of the selected node, is not empty
    and holds exactly the visible items of a section of the catalogue; for
    a worker node only section 4 is shown, for a master node section 4 is
    never shown. *)
Theorem filteredSections_role_gated (sections : list BenchmarkSection)
    (searchTerm filterType : string) (role : option string) :
  Forall
    (fun shown =>
       s_id shown ∈ BenchmarkDashboard.getSectionsForRole role
       /\ s_items shown <> []
       /\ (exists section,
             section ∈ sections
             /\ s_id shown = s_id section
             /\ s_title shown = s_title section
             /\ s_items shown
                = List.filter (BenchmarkDashboard.visible searchTerm filterType) (s_items section))
       /\ (role = Some "worker" -> s_id shown = "section4")
       /\ (role = Some "master" -> s_id shown <> "section4"))
    (BenchmarkDashboard.filteredSections sections searchTerm filterType role).
Proof. apply shown_sections_gated. Qed.

Section Sums.

Context {A : Type}.

Lemma fold_sum_shift (g : A -> nat) (l : list A) (a : nat) :
  fold_left (fun acc x => (acc + g x)%nat) l a
  = (a + fold_left (fun acc x => (acc + g x)%nat) l 0)%nat.
Proof.
  revert a. induction l as [|x l IH]; intros a; simpl; [lia|].
  rewrite IH, (IH (g x)). lia.
Qed.

Lemma fold_sum_cons (g : A -> nat) (x : A) (l : list A) :
  fold_left (fun acc x => (acc + g x)%nat) (x :: l) 0%nat
  = (g x + fold_left (fun acc x => (acc + g x)%nat) l 0)%nat.
Proof. simpl. apply fold_sum_shift. Qed.

Lemma fold_sum_app (g : A -> nat) (l l' : list A) :
  fold_left (fun acc x => (acc + g x)%nat) (l ++ l') 0%nat
  = (fold_left (fun acc x => (acc + g x)%nat) l 0
     + fold_left (fun acc x => (acc + g x)%nat) l' 0)%nat.
Proof. rewrite fold_left_app. apply fold_sum_shift. Qed.

Lemma fold_sum_ext (g g' : A -> nat) (l : list A) :
  (forall x, g x = g' x) ->
  fold_left (fun acc x => (acc + g x)%nat) l 0%nat
  = fold_left (fun acc x => (acc + g' x)%nat) l 0%nat.
Proof.
  intros H. induction l as [|x l IH]; [done|].
  rewrite !fold_sum_cons. rewrite IH. rewrite H. done.
Qed.

Lemma fold_sum_zero (g : A -> nat) (l : list A) :
  (forall x, g x = 0%nat) -> fold_left (fun acc x => (acc + g x)%nat) l 0%nat = 0%nat.
Proof.
  intros H. induction l as [|x l IH]; [done|].
  rewrite fold_sum_cons. rewrite IH. rewrite H. done.
Qed.

Lemma filter_filter_length (p q : A -> bool) (l : list A) :
  (length (List.filter p (List.filter q l)) <= length (List.filter p l))%nat.
Proof.
  induction l as [|x l IH]; [done|]. simpl.
  destruct (q x), (p x) eqn:E; simpl; rewrite ?E; simpl; lia.
Qed.

End Sums.

Lemma fold_sum_map {A B : Type} (h : B -> A) (g : A -> nat) (l : list B) :
  fold_left (fun acc x => (acc + g x)%nat) (map h l) 0%nat
  = fold_left (fun acc x => (acc + g (h x))%nat) l 0%nat.
Proof.
  induction l as [|x l IH]; [done|]. simpl map.
  rewrite (fold_sum_cons g), (fold_sum_cons (fun x => g (h x))). by rewrite IH.
Qed.

(** Setting every [selected] flag of a section. *)
Lemma filter_visible_with_selected searchTerm filterType (flag : bool) (items : list BenchmarkItem) :
  List.filter (BenchmarkDashboard.visible searchTerm filterType)
    (map (BenchmarkDashboard.with_selected flag) items)
  = map (BenchmarkDashboard.with_selected flag)
      (List.filter (BenchmarkDashboard.visible searchTerm filterType) items).
Proof.
  induction items as [|item items IH]; [done|]. simpl.
  change (BenchmarkDashboard.visible searchTerm filterType
            (BenchmarkDashboard.with_selected flag item))
    with (BenchmarkDashboard.visible searchTerm filterType item).
  destruct (BenchmarkDashboard.visible searchTerm filterType item); simpl; by rewrite IH.
Qed.

Lemma filter_selected_with_selected (flag : bool) (items : list BenchmarkItem) :
  length (List.filter i_selected (map (BenchmarkDashboard.with_selected flag) items))
  = if flag then length items else 0%nat.
Proof.
  induction items as [|item items IH]; [by destruct flag|].
  destruct flag; simpl in *; by rewrite ?IH.
Qed.

Lemma filteredSections_cons (section : BenchmarkSection) (sections : list BenchmarkSection)
    searchTerm filterType role :
  BenchmarkDashboard.filteredSections (section :: sections) searchTerm filterType role
  = (if BenchmarkDashboard.allowed role section
        && (0 <? length (List.filter (BenchmarkDashboard.visible searchTerm filterType)
                           (s_items section)))%nat
     then [BenchmarkDashboard.with_items
             (List.filter (BenchmarkDashboard.visible searchTerm filterType) (s_items section))
             section]
     else [])
    ++ BenchmarkDashboard.filteredSections sections searchTerm filterType role.
Proof.
  unfold BenchmarkDashboard.filteredSections. simpl.
  destruct (BenchmarkDashboard.allowed role section); simpl; [|done].
  by destruct (0 <? _)%nat.
Qed.

Lemma filteredSections_select (flag : bool) (sections : list BenchmarkSection)
    searchTerm filterType role :
  BenchmarkDashboard.filteredSections
    (map (fun section =>
            if BenchmarkDashboard.allowed role section
            then BenchmarkDashboard.with_items
                   (map (BenchmarkDashboard.with_selected flag) (s_items section)) section
            else section)
       sections)
    searchTerm filterType role
  = map (fun section =>
           BenchmarkDashboard.with_items
             (map (BenchmarkDashboard.with_selected flag) (s_items section)) section)
      (BenchmarkDashboard.filteredSections sections searchTerm filterType role).
Proof.
  induction sections as [|section sections IH]; [done|].
  simpl map at 1. rewrite !filteredSections_cons, map_app, IH. f_equal.
  destruct (BenchmarkDashboard.allowed role section) eqn:Ha.
  - change (BenchmarkDashboard.allowed role
              (BenchmarkDashboard.with_items
                 (map (BenchmarkDashboard.with_selected flag) (s_items section)) section))
      with (BenchmarkDashboard.allowed role section).
    rewrite Ha. simpl s_items. rewrite filter_visible_with_selected, length_map.
    simpl. by destruct (0 <? _)%nat.
  - by rewrite Ha.
Qed.

(** X4: "select all" sets the [selected] flag of every item of the
    sections allowed for the role, shown or hidden by the search, and
    leaves the other sections as they are; afterwards the header counts
    read "all of the visible items selected" if they did not before, and
    "none selected" if they did. *)
Theorem handleSelectAll_counts (sections : list BenchmarkSection)
    (searchTerm filterType : string) (role : option string) :
  let before := BenchmarkDashboard.filteredSections sections searchTerm filterType role in
  let after :=
    BenchmarkDashboard.filteredSections
      (BenchmarkDashboard.handleSelectAll sections searchTerm filterType role)
      searchTerm filterType role in
  let allSelected :=
    (BenchmarkDashboard.selectedItems before =? BenchmarkDashboard.totalItems before)%nat in
  BenchmarkDashboard.totalItems after = BenchmarkDashboard.totalItems before
  /\ BenchmarkDashboard.selectedItems after
     = (if allSelected then 0%nat else BenchmarkDashboard.totalItems before)
  /\ Forall2
       (fun section section' =>
          if BenchmarkDashboard.allowed role section
          then s_id section' = s_id section
               /\ s_title section' = s_title section
               /\ Forall2 (fun item item' =>
                             same_but_selected item item'
                             /\ i_selected item' = negb allSelected)
                    (s_items section) (s_items section')
          else section' = section)
       sections (BenchmarkDashboard.handleSelectAll sections searchTerm filterType role).
Proof.
  intros before after allSelected. subst after.
  unfold BenchmarkDashboard.handleSelectAll. cbv zeta. fold before. fold allSelected.
  rewrite filteredSections_select. fold before.
  unfold BenchmarkDashboard.totalItems, BenchmarkDashboard.selectedItems.
  rewrite !fold_sum_map. simpl s_items. split; [|split].
  - apply fold_sum_ext. intros section. apply length_map.
  - destruct allSelected; simpl negb.
    + apply fold_sum_zero. intros section. apply filter_selected_with_selected.
    + apply fold_sum_ext. intros section. apply filter_selected_with_selected.
  - apply Forall2_fmap_r, Forall_Forall2_diag, Forall_forall. intros section _.
    unfold compose. cbv beta.
    destruct (BenchmarkDashboard.allowed role section); [|done].
    simpl. repeat split.
    apply Forall2_fmap_r, Forall_Forall2_diag, Forall_forall. by intros item _.
Qed.

Lemma selectedItems_cons (section : BenchmarkSection) (sections : list BenchmarkSection) :
  BenchmarkDashboard.selectedItems (section :: sections)
  = (length (List.filter i_selected (s_items section))
     + BenchmarkDashboard.selectedItems sections)%nat.
Proof.
  unfold BenchmarkDashboard.selectedItems.
  apply (fold_sum_cons (fun section => length (List.filter i_selected (s_items section)))).
Qed.

(** X5: Run Scan submits every selected item of the whole catalogue,
    including items of sections the role filter or the search hides, so
    the number of submitted items is never below the "selected" count of
    the header. *)
Theorem selectedControls_cover_visible (sections : list BenchmarkSection)
    (searchTerm filterType : string) (role : option string) :
  (forall item, item ∈ BenchmarkDashboard.selectedControls sections
                <-> exists section, section ∈ sections /\ item ∈ s_items section
                                    /\ i_selected item = true)
  /\ (BenchmarkDashboard.selectedItems
        (BenchmarkDashboard.filteredSections sections searchTerm filterType role)
      <= length (BenchmarkDashboard.selectedControls sections))%nat.
Proof.
  split.
  - intros item. unfold BenchmarkDashboard.selectedControls.
    rewrite list_elem_of_In, in_flat_map. split.
    + intros [section [Hs Hi]]. apply list_elem_of_In in Hs, Hi.
      apply filter_elem_of in Hi as [Hi Hsel]. by exists section.
    + intros [section [Hs [Hi Hsel]]]. exists section.
      rewrite <- !list_elem_of_In. split; [done|]. by apply filter_elem_of.
  - induction sections as [|section sections IH]; [done|].
    rewrite filteredSections_cons. unfold BenchmarkDashboard.selectedControls in *.
    simpl flat_map. rewrite length_app.
    destruct (_ && _); simpl app.
    + rewrite selectedItems_cons. simpl s_items.
      pose proof (filter_filter_length i_selected
                    (BenchmarkDashboard.visible searchTerm filterType) (s_items section)).
      lia.
    + lia.
Qed.

Lemma find_elem_of {A : Type} (p : A -> bool) (l : list A) (x : A) :
  List.find p l = Some x -> x ∈ l /\ p x = true.
Proof. intros H. apply find_some in H. by rewrite list_elem_of_In. Qed.

Lemma find_first {A : Type} (p : A -> bool) (before after : list A) (x : A) :
  Forall (fun y => p y = false) before -> p x = true ->
  List.find p (before ++ x :: after) = Some x.
Proof.
  intros Hbefore Hx. induction Hbefore as [|y before Hy _ IH]; simpl.
  - by rewrite Hx.
  - by rewrite Hy.
Qed.

Lemma find_nowhere {A : Type} (p : A -> bool) (l : list A) :
  Forall (fun y => p y = false) l -> List.find p l = None.
Proof.
  intros Hall. induction Hall as [|y l Hy _ IH]; simpl; [done|]. by rewrite Hy.
Qed.

Lemma find_listed {A : Type} (p : A -> bool) (l : list A) (x : A) :
  x ∈ l -> p x = true -> is_Some (List.find p l).
Proof.
  intros Hx Hp. destruct (List.find p l) as [y|] eqn:Hfind; [by exists y|].
  apply list_elem_of_In in Hx. eapply find_none in Hfind; [|exact Hx]. congruence.
Qed.

Lemma not_ready (n : k8sAPI.InventoryNode) :
  k8sAPI.n_status n <> Some "ready" -> Js.strict_eq (k8sAPI.n_status n) "ready" = false.
Proof.
  intros Hn. destruct (Js.strict_eq _ _) eqn:Hst; [|done]. by apply strict_eq_true in Hst.
Qed.

(** What a closure that captured no selection picks when the stored name
    is of no use. *)
Lemma loadNodes_not_listed (forceRefresh : bool) (data : k8sAPI.InventoryData)
    (stored : option string) (st : BenchmarkDashboard.Nodes) :
  ~ stored_listed stored (default [] (k8sAPI.inv_nodes data)) ->
  BenchmarkDashboard.ns_selectedNodeName
    (BenchmarkDashboard.loadNodes None forceRefresh true data stored st)
  = k8sAPI.n_name <$>
      match List.find (fun n => Js.strict_eq (k8sAPI.n_status n) "ready")
              (default [] (k8sAPI.inv_nodes data)) with
      | Some n => Some n
      | None => head (default [] (k8sAPI.inv_nodes data))
      end.
Proof.
  intros Hnot. unfold BenchmarkDashboard.loadNodes. cbn [k8sAPI.getInventory snd negb Js.truthy].
  cbn [BenchmarkDashboard.ns_selectedNodeName].
  unfold Js.or. destruct (Js.truthy stored) eqn:Hs; [|done].
  destruct stored as [name|]; [|done]. rewrite Hs. cbn [andb].
  case_bool_decide as Hfound; [|done].
  destruct Hnot. destruct Hfound as [n Hn].
  apply find_elem_of in Hn as [Hn Hname]. apply bool_decide_eq_true in Hname.
  exists name, n. repeat split; try done. intros ->. discriminate.
Qed.

(** X6: the node [loadNodes] selects when the inventory arrives, by
    priority: the name kept in local storage if it is not empty and a node
    of the inventory has it; otherwise the first node whose status is
    ready; otherwise, no node being ready, the first node, and nothing for
    an empty inventory. On mount and on [inventory-updated] this choice is
    made whatever node is selected at that moment, so a selection that was
    not stored is replaced; the refresh button keeps a selection that is
    not empty and makes the same choice when there is none. A failed
    inventory request changes neither the nodes nor the selection. *)
Theorem loadNodes_default (data : k8sAPI.InventoryData) (stored : option string)
    (st : BenchmarkDashboard.Nodes) :
  let nodes := default [] (k8sAPI.inv_nodes data) in
  let updated := BenchmarkDashboard.handleInventoryUpdated true data stored st in
  let picked := BenchmarkDashboard.ns_selectedNodeName updated in
  BenchmarkDashboard.ns_inventoryNodes updated = nodes
  /\ BenchmarkDashboard.onMount true data stored st = updated
  /\ (stored_listed stored nodes -> picked = stored)
  /\ (~ stored_listed stored nodes ->
      forall before n after,
        nodes = before ++ n :: after ->
        Forall (fun m => k8sAPI.n_status m <> Some "ready") before ->
        k8sAPI.n_status n = Some "ready" ->
        picked = Some (k8sAPI.n_name n))
  /\ (~ stored_listed stored nodes ->
      Forall (fun m => k8sAPI.n_status m <> Some "ready") nodes ->
      picked = k8sAPI.n_name <$> head nodes)
  /\ BenchmarkDashboard.refreshNodes true data stored st
     = (if Js.truthy (BenchmarkDashboard.ns_selectedNodeName st)
        then {| BenchmarkDashboard.ns_inventoryNodes := nodes;
                BenchmarkDashboard.ns_selectedNodeName :=
                  BenchmarkDashboard.ns_selectedNodeName st |}
        else updated)
  /\ (forall captured forceRefresh,
        BenchmarkDashboard.loadNodes captured forceRefresh false data stored st = st).
Proof.
  intros nodes updated picked. split; [done|]. split; [done|].
  split; [|split; [|split; [|split; [|done]]]].
  - intros (name & n & -> & Hname & Hn & Hsame).
    subst picked updated. unfold BenchmarkDashboard.handleInventoryUpdated,
      BenchmarkDashboard.loadNodes.
    cbn [k8sAPI.getInventory snd negb Js.truthy BenchmarkDashboard.ns_selectedNodeName].
    fold nodes. unfold Js.or.
    assert (Js.truthy (Some name) = true) as Hs by (by destruct name).
    rewrite !Hs. cbn [andb].
    rewrite bool_decide_eq_true_2; [done|].
    eapply find_listed; [exact Hn|]. by apply bool_decide_eq_true.
  - intros Hnot before n after Hnodes Hbefore Hready.
    subst picked updated. unfold BenchmarkDashboard.handleInventoryUpdated.
    rewrite (loadNodes_not_listed true data stored st Hnot). fold nodes.
    rewrite Hnodes, find_first; [done| |by apply strict_eq_true].
    eapply Forall_impl; [exact Hbefore|]. intros m. apply not_ready.
  - intros Hnot Hnone.
    subst picked updated. unfold BenchmarkDashboard.handleInventoryUpdated.
    rewrite (loadNodes_not_listed true data stored st Hnot). fold nodes.
    rewrite find_nowhere; [done|].
    eapply Forall_impl; [exact Hnone|]. intros m. apply not_ready.
  - subst updated. unfold BenchmarkDashboard.refreshNodes,
      BenchmarkDashboard.handleInventoryUpdated, BenchmarkDashboard.loadNodes.
    cbn [k8sAPI.getInventory snd].
    by destruct (Js.truthy (BenchmarkDashboard.ns_selectedNodeName st)).
Qed.

Lemma loadNodes_default_witness :
  BenchmarkDashboard.ns_selectedNodeName
    (BenchmarkDashboard.handleInventoryUpdated true inventory_after_bootstrap None
       first_node_selected)
  = Some "k8s-worker-node01"
  /\ BenchmarkDashboard.ns_selectedNodeName
       (BenchmarkDashboard.refreshNodes true inventory_after_bootstrap None
          first_node_selected)
     = Some "k8s-master-node01"
  /\ BenchmarkDashboard.ns_selectedNodeName
       (BenchmarkDashboard.handleInventoryUpdated true inventory_after_bootstrap
          (Some "k8s-master-node01") first_node_selected)
     = Some "k8s-master-node01".
Proof.
  destruct (loadNodes_default inventory_after_bootstrap None first_node_selected)
    as (_ & _ & _ & Hready & _ & Hrefresh & _).
  destruct (loadNodes_default inventory_after_bootstrap (Some "k8s-master-node01")
              first_node_selected) as (_ & _ & Hstored & _).
  split; [|split].
  - apply (Hready ltac:(by intros (name & n & Hs & _)) [master_not_bootstrapped] worker_ready []).
    + reflexivity.
    + by repeat constructor.
    + reflexivity.
  - by rewrite Hrefresh.
  - apply Hstored. exists "k8s-master-node01", master_not_bootstrapped.
    repeat split; [discriminate|]. left.
Defined.

Lemma handleRunScan_cases (sections : list BenchmarkSection) (submitError : option string)
    (replies : list benchmarkAPI.StatusReply) (final : benchmarkAPI.StatusReply) :
  match BenchmarkDashboard.handleRunScan sections submitError replies final with
  | Some run =>
      (BenchmarkDashboard.run_sections run = sections
       /\ (BenchmarkDashboard.run_message run).1 = "error"
       /\ BenchmarkDashboard.run_lastScanResults run = None
       /\ BenchmarkDashboard.run_dispatched run = false)
      \/ (exists polled finalStatus,
            BenchmarkDashboard.selectedControls sections <> []
            /\ submitError = None
            /\ (benchmarkAPI.pollScanStatus true replies).2 = benchmarkAPI.Resolved polled
            /\ final = benchmarkAPI.Replied finalStatus
            /\ benchmarkAPI.scan_status finalStatus = "completed"
            /\ BenchmarkDashboard.run_sections run
               = BenchmarkDashboard.mergeScanResults
                   (benchmarkAPI.scan_results finalStatus) sections
            /\ BenchmarkDashboard.run_lastScanResults run
               = Some (benchmarkAPI.scan_results finalStatus)
            /\ BenchmarkDashboard.run_dispatched run = true
            /\ ((BenchmarkDashboard.run_message run).1 = "success"
                <-> Forall (fun r => r_status r <> Some "FAIL")
                      (benchmarkAPI.scan_results finalStatus)))
  | None =>
      BenchmarkDashboard.selectedControls sections <> []
      /\ submitError = None
      /\ (benchmarkAPI.pollScanStatus true replies).2 = benchmarkAPI.Pending
  end.
Proof.
  unfold BenchmarkDashboard.handleRunScan.
  destruct (BenchmarkDashboard.selectedControls sections) as [|c cs] eqn:Hsel; simpl.
  { left. by repeat split. }
  destruct submitError as [message|]; [left; by repeat split|].
  destruct (benchmarkAPI.pollScanStatus true replies).2 as [polled|message|] eqn:Hpoll;
    [|left; by repeat split|by repeat split].
  destruct final as [finalStatus|message]; [|left; by repeat split].
  case_bool_decide as Hstatus; [|left; by repeat split].
  right. exists polled, finalStatus. simpl. repeat split; try done.
  - intros Hmsg. apply Forall_forall. intros r Hr Hfail.
    destruct (0 <? _)%nat eqn:Hcount; [discriminate|].
    apply Nat.ltb_ge in Hcount.
    assert (r ∈ List.filter (fun r => Js.strict_eq (r_status r) "FAIL")
                  (benchmarkAPI.scan_results finalStatus)) as Hin.
    { apply filter_elem_of. split; [done|]. by apply strict_eq_true. }
    destruct (List.filter _ _); [by apply elem_of_nil in Hin|simpl in Hcount; lia].
  - intros Hall. destruct (0 <? _)%nat eqn:Hcount; [|done].
    apply Nat.ltb_lt, filter_length_pos in Hcount as [r [Hr Hfail]].
    apply strict_eq_true in Hfail. rewrite Forall_forall in Hall. by apply Hall in Hr.
Qed.

(** X7: Run Scan with a selection, a submission that is accepted, a
    polling promise that resolves and a status fetched afterwards that is
    "completed" merges the results of that last fetch into the catalogue,
    hands them to the results modal and announces them, with the banner
    "Scan completed! Found n failed checks.", n the number of FAIL results;
    the banner is a success banner exactly when no result is FAIL. With
    nothing selected the run ends at once with the request to select an
    item. Every other run that ends leaves the catalogue as it was, with an
    error banner and nothing announced. The run does not end exactly when
    the polling promise does not settle. *)
Theorem handleRunScan_outcomes (sections : list BenchmarkSection) (submitError : option string)
    (replies : list benchmarkAPI.StatusReply) (final : benchmarkAPI.StatusReply) :
  let outcome := BenchmarkDashboard.handleRunScan sections submitError replies final in
  let polled := (benchmarkAPI.pollScanStatus true replies).2 in
  (forall scan finalStatus,
     BenchmarkDashboard.selectedControls sections <> [] ->
     submitError = None ->
     polled = benchmarkAPI.Resolved scan ->
     final = benchmarkAPI.Replied finalStatus ->
     benchmarkAPI.scan_status finalStatus = "completed" ->
     exists run,
       outcome = Some run
       /\ BenchmarkDashboard.run_sections run
          = BenchmarkDashboard.mergeScanResults (benchmarkAPI.scan_results finalStatus) sections
       /\ BenchmarkDashboard.run_lastScanResults run
          = Some (benchmarkAPI.scan_results finalStatus)
       /\ BenchmarkDashboard.run_dispatched run = true
       /\ (BenchmarkDashboard.run_message run).2
          = "Scan completed! Found "
            +:+ pretty (length (List.filter (benchmarkAPI.has_status "FAIL")
                                  (benchmarkAPI.scan_results finalStatus)))
            +:+ " failed checks."
       /\ ((BenchmarkDashboard.run_message run).1 = "success"
           <-> Forall (fun r => r_status r <> Some "FAIL")
                 (benchmarkAPI.scan_results finalStatus))
       /\ ((BenchmarkDashboard.run_message run).1 = "error"
           <-> Exists (fun r => r_status r = Some "FAIL")
                 (benchmarkAPI.scan_results finalStatus)))
  /\ (BenchmarkDashboard.selectedControls sections = [] ->
      outcome
      = Some {| BenchmarkDashboard.run_sections := sections;
                BenchmarkDashboard.run_message :=
                  ("error", "Please select at least one benchmark item to scan");
                BenchmarkDashboard.run_lastScanResults := None;
                BenchmarkDashboard.run_dispatched := false |})
  /\ (forall run,
        outcome = Some run ->
        BenchmarkDashboard.run_sections run <> sections
        \/ (BenchmarkDashboard.run_message run).1 <> "error"
        \/ BenchmarkDashboard.run_lastScanResults run <> None
        \/ BenchmarkDashboard.run_dispatched run = true ->
        exists scan finalStatus,
          BenchmarkDashboard.selectedControls sections <> []
          /\ submitError = None
          /\ polled = benchmarkAPI.Resolved scan
          /\ final = benchmarkAPI.Replied finalStatus
          /\ benchmarkAPI.scan_status finalStatus = "completed")
  /\ (outcome = None
      <-> BenchmarkDashboard.selectedControls sections <> []
          /\ submitError = None
          /\ polled = benchmarkAPI.Pending).
Proof.
  intros outcome polled.
  pose proof (handleRunScan_cases sections submitError replies final) as Hcases.
  fold outcome in Hcases. split; [|split; [|split]].
  - intros scan finalStatus Hsel -> Hpolled -> Hstatus.
    subst outcome polled. unfold BenchmarkDashboard.handleRunScan in *.
    destruct (BenchmarkDashboard.selectedControls sections) as [|c cs]; [done|].
    cbn [length Nat.eqb]. rewrite Hpolled, bool_decide_eq_true_2 by done.
    eexists. split; [reflexivity|]. cbn [BenchmarkDashboard.run_sections
      BenchmarkDashboard.run_lastScanResults BenchmarkDashboard.run_dispatched
      BenchmarkDashboard.run_message fst snd].
    repeat split; try done.
    + intros Hmsg. apply Forall_forall. intros r Hr Hfail.
      destruct (0 <? _)%nat eqn:Hcount; [discriminate|].
      apply Nat.ltb_ge in Hcount.
      assert (r ∈ List.filter (fun r => Js.strict_eq (r_status r) "FAIL")
                    (benchmarkAPI.scan_results finalStatus)) as Hin.
      { apply filter_elem_of. split; [done|]. by apply strict_eq_true. }
      destruct (List.filter _ _); [by apply elem_of_nil in Hin|simpl in Hcount; lia].
    + intros Hall. destruct (0 <? _)%nat eqn:Hcount; [|done].
      apply Nat.ltb_lt, filter_length_pos in Hcount as [r [Hr Hfail]].
      apply strict_eq_true in Hfail. rewrite Forall_forall in Hall. by apply Hall in Hr.
    + intros Hmsg. destruct (0 <? _)%nat eqn:Hcount; [|discriminate].
      apply Nat.ltb_lt, filter_length_pos in Hcount as [r [Hr Hfail]].
      apply strict_eq_true in Hfail. apply Exists_exists. by exists r.
    + intros Hsome. apply Exists_exists in Hsome as [r [Hr Hfail]].
      destruct (0 <? _)%nat eqn:Hcount; [done|]. apply Nat.ltb_ge in Hcount.
      assert (r ∈ List.filter (fun r => Js.strict_eq (r_status r) "FAIL")
                    (benchmarkAPI.scan_results finalStatus)) as Hin.
      { apply filter_elem_of. split; [done|]. by apply strict_eq_true. }
      destruct (List.filter _ _); [by apply elem_of_nil in Hin|simpl in Hcount; lia].
  - intros Hsel. subst outcome. unfold BenchmarkDashboard.handleRunScan. by rewrite Hsel.
  - intros run Hrun Hdiffers. rewrite Hrun in Hcases.
    destruct Hcases as [(Hs & Hm & Hl & Hd)|(scan & finalStatus & Hrest)].
    + destruct Hdiffers as [?|[?|[?|?]]]; congruence.
    + exists scan, finalStatus. tauto.
  - split.
    + intros Hnone. by rewrite Hnone in Hcases.
    + intros (Hsel & -> & Hpending). subst outcome polled.
      unfold BenchmarkDashboard.handleRunScan.
      destruct (BenchmarkDashboard.selectedControls sections) as [|c cs]; [done|].
      cbn [length Nat.eqb]. by rewrite Hpending.
Qed.

Lemma handleRunScan_outcomes_witness :
  BenchmarkDashboard.handleRunScan [section1] None
    [benchmarkAPI.Replied (scan_reply "running" 40); benchmarkAPI.Replied completed_scan]
    (benchmarkAPI.Replied completed_scan)
  = Some {| BenchmarkDashboard.run_sections :=
              [BenchmarkDashboard.with_items
                 [BenchmarkDashboard.with_status "PASS" item_1_2_1] section1];
            BenchmarkDashboard.run_message :=
              ("success", "Scan completed! Found 0 failed checks.");
            BenchmarkDashboard.run_lastScanResults := Some [automated_pass];
            BenchmarkDashboard.run_dispatched := true |}.
Proof.
  destruct (handleRunScan_outcomes [section1] None
              [benchmarkAPI.Replied (scan_reply "running" 40);
               benchmarkAPI.Replied completed_scan]
              (benchmarkAPI.Replied completed_scan)) as [Hmerged _].
  destruct (Hmerged completed_scan completed_scan ltac:(discriminate) eq_refl eq_refl
              eq_refl eq_refl) as (run & -> & Hsections & Hresults & Hdispatched & Htext & Hok & _).
  destruct run as [sections [kind text] results dispatched]. simpl in *.
  subst. f_equal. f_equal. f_equal. apply Hok. by repeat constructor.
Defined.


(** X8: merging scan results into the catalogue keeps the sections and,
    of every item, the id, title, description, type and [selected] flag; an
    item no result names is unchanged; and merging the same results a
    second time changes nothing more. *)
Theorem mergeScanResults_frame (scanResults : list CheckResult) (sections : list BenchmarkSection) :
  sections_related
    (fun item item' =>
       i_id item' = i_id item
       /\ i_title item' = i_title item
       /\ i_description item' = i_description item
       /\ i_type item' = i_type item
       /\ i_selected item' = i_selected item
       /\ (Forall (fun r => r_itemId r <> Some (i_id item)) scanResults -> item' = item))
    sections (BenchmarkDashboard.mergeScanResults scanResults sections)
  /\ BenchmarkDashboard.mergeScanResults scanResults
       (BenchmarkDashboard.mergeScanResults scanResults sections)
     = BenchmarkDashboard.mergeScanResults scanResults sections.
Proof.
  split.
  - unfold BenchmarkDashboard.mergeScanResults. apply sections_related_map.
    intros item. destruct (List.find _ scanResults) as [result|] eqn:Hfind.
    + simpl. repeat split. intros Hnone.
      apply find_elem_of in Hfind as [Hin Hid]. apply bool_decide_eq_true in Hid.
      rewrite Forall_forall in Hnone. by apply Hnone in Hin.
    + by repeat split.
  - unfold BenchmarkDashboard.mergeScanResults. rewrite map_map.
    apply map_ext. intros section. unfold BenchmarkDashboard.with_items. simpl.
    f_equal. rewrite map_map. apply map_ext. intros item.
    destruct (List.find (fun r => bool_decide (r_itemId r = Some (i_id item))) scanResults)
      as [result|] eqn:Hfind.
    + simpl. by rewrite Hfind.
    + by rewrite Hfind.
Qed.

(** ** Bootstrap: modal, layout and client *)

Lemma chosen_nodes_selectable
    (nodes : list BootstrapModal.BootstrapNode) (selected : gmap string bool) :
  match BootstrapModal.handleSubmit nodes selected with
  | Some chosen =>
      chosen <> []
      /\ Forall (fun n => n ∈ nodes
                          /\ BootstrapModal.disabled n = false
                          /\ Js.flag selected (BootstrapModal.bn_name n) = true) chosen
      /\ BootstrapModal.submitDisabled false nodes selected = false
  | None =>
      Forall (fun n => BootstrapModal.disabled n = true
                       \/ Js.flag selected (BootstrapModal.bn_name n) = false) nodes
      /\ BootstrapModal.submitDisabled false nodes selected = true
  end.
Proof.
  unfold BootstrapModal.handleSubmit, BootstrapModal.submitDisabled,
    BootstrapModal.selectableNodes, BootstrapModal.disabled.
  cbv zeta. simpl orb.
  destruct (List.filter _ (List.filter _ nodes)) as [|c chosen] eqn:E; simpl.
  - assert (forall n, n ∈ nodes ->
              (bool_decide (BootstrapModal.bn_status n = "ready")
               || bool_decide (BootstrapModal.bn_status n = "unreachable") = true)
              \/ Js.flag selected (BootstrapModal.bn_name n) = false) as Hall.
    { intros n Hn.
      destruct (bool_decide (BootstrapModal.bn_status n = "ready")) eqn:Hr; [by left|].
      destruct (bool_decide (BootstrapModal.bn_status n = "unreachable")) eqn:Hu; [by left|].
      destruct (Js.flag selected (BootstrapModal.bn_name n)) eqn:Hf; [|by right].
      assert (n ∈ @nil BootstrapModal.BootstrapNode) as Hin; [|by apply elem_of_nil in Hin].
      rewrite <- E. apply filter_elem_of. split; [|done].
      apply filter_elem_of. split; [done|]. by rewrite Hr, Hu. }
    split; [by apply Forall_forall|].
    apply forallb_forall. intros n Hn. apply list_elem_of_In, filter_elem_of in Hn as [Hn Hs].
    destruct (Hall n Hn) as [Hd|Hf]; [|by rewrite Hf].
    apply andb_true_iff in Hs as [Hr Hu].
    apply negb_true_iff in Hr, Hu. rewrite Hr, Hu in Hd. discriminate.
  - split; [done|]. split.
    + apply Forall_forall. intros n Hn. rewrite <- E in Hn.
      apply filter_elem_of in Hn as [Hn Hf]. apply filter_elem_of in Hn as [Hn Hs].
      apply andb_true_iff in Hs as [Hr Hu]. apply negb_true_iff in Hr, Hu.
      by rewrite Hr, Hu.
    + apply not_true_is_false. intros Hall. rewrite forallb_forall in Hall.
      assert (c ∈ c :: chosen) as Hc by left. rewrite <- E in Hc.
      apply filter_elem_of in Hc as [Hc Hf]. apply list_elem_of_In, Hall in Hc.
      rewrite Hf in Hc. discriminate.
Qed.

(** X9: the bootstrap modal hands over only nodes of the list that are
    neither ready nor unreachable and whose box is checked, and never an
    empty list; it hands over nothing exactly when the submit button is
    disabled for lack of a checked selectable node. Whatever the map of
    checked names holds, a ready or unreachable node is never handed
    over. *)
Theorem bootstrap_submit_only_selectable
    (nodes : list BootstrapModal.BootstrapNode) (selected : gmap string bool) :
  match BootstrapModal.handleSubmit nodes selected with
  | Some chosen =>
      chosen <> []
      /\ Forall (fun n => n ∈ nodes
                          /\ BootstrapModal.disabled n = false
                          /\ Js.flag selected (BootstrapModal.bn_name n) = true) chosen
      /\ BootstrapModal.submitDisabled false nodes selected = false
  | None =>
      Forall (fun n => BootstrapModal.disabled n = true
                       \/ Js.flag selected (BootstrapModal.bn_name n) = false) nodes
      /\ BootstrapModal.submitDisabled false nodes selected = true
  end.
Proof. apply chosen_nodes_selectable. Qed.

(** X10: ticking a box flips the checked state of that node name and of
    no other; ticking it twice gives every node the checked state it had. *)
Theorem toggleNode_flips_one (name : string) (selected : gmap string bool) :
  (forall key,
     Js.flag (BootstrapModal.toggleNode name selected) key
     = if decide (key = name) then negb (Js.flag selected key) else Js.flag selected key)
  /\ (forall key,
        Js.flag (BootstrapModal.toggleNode name (BootstrapModal.toggleNode name selected)) key
        = Js.flag selected key).
Proof.
  assert (forall sel key,
            Js.flag (BootstrapModal.toggleNode name sel) key
            = if decide (key = name) then negb (Js.flag sel key) else Js.flag sel key) as H.
  { intros sel key. unfold BootstrapModal.toggleNode, Js.flag at 1.
    destruct (decide (key = name)) as [->|Hne].
    - by rewrite lookup_insert_eq.
    - by rewrite lookup_insert_ne. }
  split; [apply H|]. intros key. rewrite !H.
  destruct (decide (key = name)); [apply negb_involutive|done].
Qed.

Lemma or_lit_nonempty (v : option string) (lit : string) :
  lit <> "" -> Js.or_lit v lit <> "".
Proof. intros Hlit. by destruct v as [[|c s]|]. Qed.

Lemma errorMsg_nonempty (data : k8sAPI.Body) : k8sAPI.errorMsg data <> "".
Proof. by apply or_lit_nonempty. Qed.

(** X11: a bootstrap run never ends silently: whatever the selection and
    whatever the backend answers to the bootstrap and to the inventory
    reload, the sidebar ends with a non-empty message. The
    [inventory-updated] signal is sent only after a bootstrap request the
    backend answered with success. *)
Theorem handleBootstrap_always_reports
    (selected : list BootstrapModal.BootstrapNode)
    (server : list string -> bool * k8sAPI.BootstrapData)
    (inventoryOk : bool) (inventory : k8sAPI.InventoryData) (st : MainLayout.State) :
  (exists message,
     MainLayout.sidebarMessage
       (MainLayout.handleBootstrap selected server inventoryOk inventory st)
     = Some message
     /\ message <> "")
  /\ (MainLayout.inventoryUpdated
        (MainLayout.handleBootstrap selected server inventoryOk inventory st)
      = MainLayout.inventoryUpdated st
      \/ (selected <> []
          /\ (server (map BootstrapModal.bn_name selected)).1 = true
          /\ k8sAPI.boot_success (server (map BootstrapModal.bn_name selected)).2 = true)).
Proof.
  unfold MainLayout.handleBootstrap, k8sAPI.bootstrapNodes.
  destruct selected as [|n selected]; simpl.
  { split; [|by left]. eexists. split; [reflexivity|done]. }
  destruct (server _) as [ok data] eqn:Hserver. simpl.
  destruct ok; simpl.
  - destruct (k8sAPI.boot_success data) eqn:Hsuccess; simpl.
    + split; [|by right].
      unfold MainLayout.loadInventory, k8sAPI.getInventory. simpl.
      destruct inventoryOk; simpl; eexists; (split; [reflexivity|]); [done|].
      by destruct (k8sAPI.errorMsg (k8sAPI.inv_body inventory)).
    + split; [|by left]. eexists. split; [reflexivity|]. by apply or_lit_nonempty.
  - split; [|by left]. eexists. split; [reflexivity|].
    by destruct (k8sAPI.errorMsg (k8sAPI.boot_body data)).
Qed.

(** X12: what the modal hands over always passes the validation of the
    client: exactly one bootstrap request is sent, for the names of the
    chosen nodes, none of which has a disabled checkbox; the validation
    error is reserved to an empty list, for which no request is sent. *)
Theorem modal_submission_sends_one_request
    (nodes chosen : list BootstrapModal.BootstrapNode) (selected : gmap string bool)
    (server : list string -> bool * k8sAPI.BootstrapData) :
  BootstrapModal.handleSubmit nodes selected = Some chosen ->
  (k8sAPI.bootstrapNodes MainLayout.clusterName (map BootstrapModal.bn_name chosen) server).1
  = [k8sAPI.BootstrapRequest MainLayout.clusterName (map BootstrapModal.bn_name chosen)]
  /\ Forall (fun n => n ∈ nodes /\ BootstrapModal.disabled n = false) chosen
  /\ k8sAPI.bootstrapNodes MainLayout.clusterName [] server
     = ([], inr "At least one node name is required").
Proof.
  intros Hsubmit. pose proof (chosen_nodes_selectable nodes selected) as H.
  rewrite Hsubmit in H. destruct H as [Hne [Hall _]].
  split; [|split; [|done]].
  - unfold k8sAPI.bootstrapNodes. destruct chosen as [|c chosen]; [done|].
    simpl. by destruct (server _).
  - eapply Forall_impl; [exact Hall|]. by intros n [? [? _]].
Qed.

(** ** Further properties of the report *)

Section StrongSorting.

Context {A : Type} (cmp : A -> A -> Z).
Hypothesis cmp_opposed : forall x y, 0 < cmp x y -> cmp y x <= 0.
Hypothesis cmp_trans : forall x y z, cmp x y <= 0 -> cmp y z <= 0 -> cmp x z <= 0.

Lemma sort_insert_StronglySorted (x : A) (l : list A) :
  StronglySorted (fun a b => cmp a b <= 0) l ->
  StronglySorted (fun a b => cmp a b <= 0) (Js.sort_insert cmp x l).
Proof.
  induction 1 as [|y l Hl IH Hy]; simpl.
  - by repeat constructor.
  - destruct (Z.leb_spec (cmp x y) 0) as [Hle|Hgt].
    + constructor; [by constructor|]. constructor; [done|].
      eapply Forall_impl; [exact Hy|]. intros z Hz. by eapply cmp_trans.
    + constructor; [exact IH|].
      rewrite (sort_insert_Permutation cmp x l). constructor; [|done].
      by apply cmp_opposed.
Qed.

Lemma sort_StronglySorted (l : list A) :
  StronglySorted (fun a b => cmp a b <= 0) (Js.sort cmp l).
Proof.
  induction l as [|x l IH]; simpl; [constructor|]. by apply sort_insert_StronglySorted.
Qed.

End StrongSorting.

Lemma List_filter_Permutation {A : Type} (p : A -> bool) (l l' : list A) :
  l ≡ₚ l' -> List.filter p l ≡ₚ List.filter p l'.
Proof.
  induction 1 as [|x l l' _ IH|x y l|l l' l'' _ IH _ IH']; simpl.
  - done.
  - destruct (p x); by rewrite IH.
  - destruct (p x), (p y); try done. apply Permutation_swap.
  - by rewrite IH.
Qed.

Lemma List_filter_StronglySorted {A : Type} (R : A -> A -> Prop) (p : A -> bool) (l : list A) :
  StronglySorted R l -> StronglySorted R (List.filter p l).
Proof.
  induction 1 as [|x l Hl IH Hx]; simpl; [constructor|].
  destruct (p x); [|done]. constructor; [done|].
  apply Forall_forall. intros y Hy. apply filter_elem_of in Hy as [Hy _].
  rewrite Forall_forall in Hx. by apply Hx.
Qed.

Lemma compare_from_past_end (idA idB : list Z) i n :
  (length idA <= i)%nat -> (length idB <= i)%nat ->
  benchmarkAPI.compare_from idA idB i n = 0.
Proof.
  revert i. induction n as [|n IH]; intros i Ha Hb; [done|]. simpl.
  rewrite !nth_overflow by done. simpl. apply IH; lia.
Qed.

Lemma compare_from_extend (idA idB : list Z) i n m :
  (Nat.max (length idA) (length idB) <= i + n)%nat ->
  benchmarkAPI.compare_from idA idB i (n + m) = benchmarkAPI.compare_from idA idB i n.
Proof.
  revert i. induction n as [|n IH]; intros i Hlen.
  - simpl. apply compare_from_past_end; lia.
  - simpl. destruct (negb _); [done|]. apply IH. lia.
Qed.

Lemma compare_from_trans (idA idB idC : list Z) i n :
  benchmarkAPI.compare_from idA idB i n <= 0 ->
  benchmarkAPI.compare_from idB idC i n <= 0 ->
  benchmarkAPI.compare_from idA idC i n <= 0.
Proof.
  revert i. induction n as [|n IH]; intros i; [done|]. simpl.
  destruct (Z.eqb_spec (nth i idA 0) (nth i idB 0)) as [Eab|Nab];
    destruct (Z.eqb_spec (nth i idB 0) (nth i idC 0)) as [Ebc|Nbc];
    destruct (Z.eqb_spec (nth i idA 0) (nth i idC 0)) as [Eac|Nac];
    simpl; try lia; try apply IH.
Qed.

Lemma compareChecks_at (a b : CheckResult) (n : nat) :
  (Nat.max (length (benchmarkAPI.parseCheckId (benchmarkAPI.check_key a)))
     (length (benchmarkAPI.parseCheckId (benchmarkAPI.check_key b))) <= n)%nat ->
  benchmarkAPI.compareChecks a b
  = benchmarkAPI.compare_from
      (benchmarkAPI.parseCheckId (benchmarkAPI.check_key a))
      (benchmarkAPI.parseCheckId (benchmarkAPI.check_key b)) 0 n.
Proof.
  intros Hn. unfold benchmarkAPI.compareChecks. cbv zeta.
  set (idA := benchmarkAPI.parseCheckId (benchmarkAPI.check_key a)) in *.
  set (idB := benchmarkAPI.parseCheckId (benchmarkAPI.check_key b)) in *.
  assert (n = (Nat.max (length idA) (length idB)
               + (n - Nat.max (length idA) (length idB)))%nat) as -> by lia.
  symmetry. apply compare_from_extend. lia.
Qed.

Lemma compareChecks_trans (a b c : CheckResult) :
  benchmarkAPI.compareChecks a b <= 0 ->
  benchmarkAPI.compareChecks b c <= 0 ->
  benchmarkAPI.compareChecks a c <= 0.
Proof.
  set (n := Nat.max (length (benchmarkAPI.parseCheckId (benchmarkAPI.check_key a)))
              (Nat.max (length (benchmarkAPI.parseCheckId (benchmarkAPI.check_key b)))
                 (length (benchmarkAPI.parseCheckId (benchmarkAPI.check_key c))))).
  rewrite (compareChecks_at a b n), (compareChecks_at b c n), (compareChecks_at a c n)
    by (subst n; lia).
  apply compare_from_trans.
Qed.

Lemma compareChecks_ranking :
  (forall a : CheckResult, benchmarkAPI.compareChecks a a = 0)
  /\ (forall a b : CheckResult,
        benchmarkAPI.compareChecks b a = - benchmarkAPI.compareChecks a b)
  /\ (forall a b c : CheckResult,
        benchmarkAPI.compareChecks a b <= 0 ->
        benchmarkAPI.compareChecks b c <= 0 ->
        benchmarkAPI.compareChecks a c <= 0)
  /\ (forall checks : list CheckResult,
        StronglySorted (fun a b => benchmarkAPI.compareChecks a b <= 0)
          (benchmarkAPI.sortChecksByIdAscending checks)).
Proof.
  assert (forall a b : CheckResult,
            benchmarkAPI.compareChecks b a = - benchmarkAPI.compareChecks a b) as Hopp.
  { intros a b. unfold benchmarkAPI.compareChecks. cbv zeta.
    rewrite (Nat.max_comm (length (benchmarkAPI.parseCheckId (benchmarkAPI.check_key b)))).
    apply compare_from_opp. }
  split; [|split; [exact Hopp|split; [apply compareChecks_trans|]]].
  - intros a. specialize (Hopp a a). lia.
  - intros checks. apply sort_StronglySorted;
      [apply compareChecks_opposed|apply compareChecks_trans].
Qed.

(** X13: the comparator of the report is a consistent ranking: a check
    ranks equal to itself, swapping the arguments negates the result, and
    ranking is transitive. Hence in the sorted list every check is ranked
    no later than every check that follows it, not only its successor. *)
Theorem report_order_consistent :
  (forall a : CheckResult, benchmarkAPI.compareChecks a a = 0)
  /\ (forall a b : CheckResult,
        benchmarkAPI.compareChecks b a = - benchmarkAPI.compareChecks a b)
  /\ (forall a b c : CheckResult,
        benchmarkAPI.compareChecks a b <= 0 ->
        benchmarkAPI.compareChecks b c <= 0 ->
        benchmarkAPI.compareChecks a c <= 0)
  /\ (forall checks : list CheckResult,
        StronglySorted (fun a b => benchmarkAPI.compareChecks a b <= 0)
          (benchmarkAPI.sortChecksByIdAscending checks)).
Proof. apply compareChecks_ranking. Qed.

(** The theorem above at an inventory of a ready and a not bootstrapped
    node with both boxes recorded as checked: only the second is sent. *)
Lemma modal_submission_sends_one_request_witness :
  BootstrapModal.handleSubmit two_nodes both_checked = Some (drop 1 two_nodes)
  /\ (k8sAPI.bootstrapNodes MainLayout.clusterName
        (map BootstrapModal.bn_name (drop 1 two_nodes)) accepting_server).1
     = [k8sAPI.BootstrapRequest MainLayout.clusterName ["k8s-worker-node01"]].
Proof.
  assert (BootstrapModal.handleSubmit two_nodes both_checked = Some (drop 1 two_nodes)) as H
    by (by vm_compute).
  split; [exact H|].
  exact (proj1 (modal_submission_sends_one_request
                  two_nodes (drop 1 two_nodes) both_checked accepting_server H)).
Defined.

Section Counting.

Context {A : Type}.

Lemma filter_length_cons (p : A -> bool) (x : A) (l : list A) :
  length (List.filter p (x :: l)) = (Nat.b2n (p x) + length (List.filter p l))%nat.
Proof. simpl. by destruct (p x). Qed.

(** Four tests of which exactly one holds of each element split a list. *)
Lemma filter_length_split4 (p1 p2 p3 p4 : A -> bool) (l : list A) :
  (forall x, (Nat.b2n (p1 x) + Nat.b2n (p2 x) + Nat.b2n (p3 x) + Nat.b2n (p4 x) = 1)%nat) ->
  (length (List.filter p1 l) + length (List.filter p2 l)
   + length (List.filter p3 l) + length (List.filter p4 l) = length l)%nat.
Proof.
  intros H. induction l as [|x l IH]; [done|].
  rewrite !filter_length_cons. specialize (H x). simpl length. lia.
Qed.

Lemma filter_length_regroup (p q p' q' : A -> bool) (l : list A) :
  (forall x, (Nat.b2n (p x) + Nat.b2n (q x) = Nat.b2n (p' x) + Nat.b2n (q' x))%nat) ->
  (length (List.filter p l) + length (List.filter q l)
   = length (List.filter p' l) + length (List.filter q' l))%nat.
Proof.
  intros H. induction l as [|x l IH]; [done|].
  rewrite !filter_length_cons. specialize (H x). lia.
Qed.

Lemma filter_length_mono (p q : A -> bool) (l : list A) :
  (forall x, p x = true -> q x = true) ->
  (length (List.filter p l) <= length (List.filter q l))%nat.
Proof.
  intros H. induction l as [|x l IH]; [done|].
  rewrite !filter_length_cons. specialize (H x).
  destruct (p x), (q x); simpl; lia.
Qed.

Lemma filter_nil_Forall (p : A -> bool) (l : list A) :
  List.filter p l = [] -> Forall (fun x => p x = false) l.
Proof.
  intros E. apply Forall_forall. intros x Hx. apply not_true_is_false. intros Hp.
  assert (x ∈ List.filter p l) as Hin by (by apply filter_elem_of).
  rewrite E in Hin. by apply elem_of_nil in Hin.
Qed.

End Counting.

Lemma status_split (r : CheckResult) :
  (Nat.b2n (benchmarkAPI.has_status "PASS" r) + Nat.b2n (benchmarkAPI.has_status "FAIL" r)
   + Nat.b2n (benchmarkAPI.has_status "WARN" r) + Nat.b2n (other_status r) = 1)%nat.
Proof.
  unfold other_status, benchmarkAPI.has_status, Js.strict_eq.
  destruct (r_status r) as [st|]; [|done].
  repeat case_bool_decide; simplify_eq; done.
Qed.

Lemma sorted_group (st : string) (results : list CheckResult) :
  List.filter (benchmarkAPI.has_status st) (benchmarkAPI.sortChecksByIdAscending results)
  ≡ₚ List.filter (benchmarkAPI.has_status st) results
  /\ StronglySorted (fun a b => benchmarkAPI.compareChecks a b <= 0)
       (List.filter (benchmarkAPI.has_status st) (benchmarkAPI.sortChecksByIdAscending results)).
Proof.
  split.
  - apply List_filter_Permutation, sort_Permutation.
  - apply List_filter_StronglySorted, compareChecks_ranking.
Qed.

Lemma has_status_false (st : string) (results : list CheckResult) :
  Forall (fun x => benchmarkAPI.has_status st x = false) results ->
  Forall (fun x => r_status x <> Some st) results.
Proof.
  intros H. eapply Forall_impl; [exact H|]. intros x Hx E. apply strict_eq_true in E.
  unfold benchmarkAPI.has_status in Hx. congruence.
Qed.

(** X14: the HTML and PDF exports lose no result and invent none. The
    report has a section for a status exactly when some result has it; the
    section lists the results of that status, each once, ranked by id, and
    its count is the figure of the summary tile. The total tile is the
    number of results; results whose status is none of PASS, FAIL and WARN
    are in the total only. The JSON export carries no report. *)
Theorem report_sections_account (results : list CheckResult) (fmt : string) :
  let r := benchmarkAPI.generateHTMLReport (benchmarkAPI.buildExportData results fmt) in
  benchmarkAPI.exported_report (benchmarkAPI.exportScanResults results fmt)
  = (if bool_decide (fmt = "json") then None else Some r)
  /\ section_accounts results r "Failed Checks" "FAIL" (benchmarkAPI.failed (benchmarkAPI.tiles r))
  /\ section_accounts results r "Warnings" "WARN" (benchmarkAPI.warnings (benchmarkAPI.tiles r))
  /\ section_accounts results r "Passed Checks" "PASS" (benchmarkAPI.passed (benchmarkAPI.tiles r))
  /\ (benchmarkAPI.passed (benchmarkAPI.tiles r) + benchmarkAPI.failed (benchmarkAPI.tiles r)
      + benchmarkAPI.warnings (benchmarkAPI.tiles r)
      + length (List.filter other_status results)
      = benchmarkAPI.total (benchmarkAPI.tiles r))%nat.
Proof.
  intros r. split.
  { unfold benchmarkAPI.exportScanResults. cbv zeta.
    case_bool_decide; [done|]. by case_bool_decide. }
  assert (forall title st,
            List.find (fun sec => bool_decide (benchmarkAPI.section_title sec = title))
              (benchmarkAPI.section_if_any title
                 (List.filter (benchmarkAPI.has_status st)
                    (benchmarkAPI.sortChecksByIdAscending results)))
            = match List.filter (benchmarkAPI.has_status st)
                      (benchmarkAPI.sortChecksByIdAscending results) with
              | [] => None
              | items => Some {| benchmarkAPI.section_title := title;
                                 benchmarkAPI.section_count := length items;
                                 benchmarkAPI.section_items := items |}
              end) as Hown.
  { intros title st. unfold benchmarkAPI.section_if_any.
    destruct (List.filter _ _); [done|]. simpl. by rewrite bool_decide_eq_true_2. }
  assert (forall title title' items,
            title <> title' ->
            List.find (fun sec => bool_decide (benchmarkAPI.section_title sec = title))
              (benchmarkAPI.section_if_any title' items) = None) as Hother.
  { intros title title' items Hne. unfold benchmarkAPI.section_if_any.
    destruct (0 <? _)%nat; [|done]. simpl. by rewrite bool_decide_eq_false_2. }
  assert (forall title st,
            List.find (fun sec => bool_decide (benchmarkAPI.section_title sec = title))
              (benchmarkAPI.section_if_any title
                 (List.filter (benchmarkAPI.has_status st)
                    (benchmarkAPI.sortChecksByIdAscending results)))
            = report_section title r ->
            section_accounts results r title st
              (length (List.filter (benchmarkAPI.has_status st) results))) as Hacc.
  { intros title st Hfind. unfold section_accounts. rewrite <- Hfind, Hown.
    destruct (sorted_group st results) as [Hperm Hsorted].
    destruct (List.filter (benchmarkAPI.has_status st)
                (benchmarkAPI.sortChecksByIdAscending results)) as [|x items] eqn:E.
    - apply Permutation_nil in Hperm. rewrite Hperm. split; [done|].
      by apply has_status_false, filter_nil_Forall.
    - apply Permutation_length in Hperm as Hlen. rewrite <- Hlen. simpl.
      repeat split; try done. lia. }
  assert (forall {X} (f : X -> bool) (l l' : list X),
            List.find f (l ++ l') = match List.find f l with
                                    | Some x => Some x
                                    | None => List.find f l'
                                    end) as Happ.
  { intros X f l l'. induction l as [|x l IH]; [done|]. simpl. by destruct (f x). }
  split; [|split; [|split]].
  - apply Hacc. unfold report_section. subst r. simpl.
    rewrite !Happ, (Hother "Failed Checks" "Warnings"),
      (Hother "Failed Checks" "Passed Checks") by done.
    by destruct (List.find _ _).
  - apply Hacc. unfold report_section. subst r. simpl.
    rewrite !Happ, (Hother "Warnings" "Failed Checks"),
      (Hother "Warnings" "Passed Checks") by done.
    by destruct (List.find _ _).
  - apply Hacc. unfold report_section. subst r. simpl.
    by rewrite !Happ, (Hother "Passed Checks" "Failed Checks"),
      (Hother "Passed Checks" "Warnings") by done.
  - subst r. simpl. apply filter_length_split4, status_split.
Qed.

(** ** Counting in the modal and on the overview page *)

Lemma modal_split (r : CheckResult) :
  (Nat.b2n (ScanResultsModal.is_passed r) + Nat.b2n (ScanResultsModal.is_failed r)
   + Nat.b2n (ScanResultsModal.is_warning r) + Nat.b2n (other_status r) = 1)%nat.
Proof.
  pose proof (status_split r) as H.
  unfold ScanResultsModal.is_passed, ScanResultsModal.is_failed, ScanResultsModal.is_warning,
    other_status, benchmarkAPI.has_status in *.
  destruct (Js.strict_eq (r_status r) "PASS"), (Js.strict_eq (r_status r) "FAIL"),
    (Js.strict_eq (r_status r) "WARN"), (ScanResultsModal.isManual r); simpl in *; lia.
Qed.

(** X15: the three counts of the scan-results modal count every result
    whose status is PASS, FAIL or WARN exactly once, and no other result:
    a failed Manual check moves from the failed count to the warning
    count and is not dropped. *)
Theorem modal_counts_partition (results : list CheckResult) :
  let m := ScanResultsModal.render results in
  (ScanResultsModal.passedCount m + ScanResultsModal.failedCount m
   + ScanResultsModal.warnCount m + length (List.filter other_status results)
   = length results)%nat
  /\ (ScanResultsModal.failedCount m + ScanResultsModal.warnCount m
      = length (List.filter (benchmarkAPI.has_status "FAIL") results)
        + length (List.filter (benchmarkAPI.has_status "WARN") results))%nat.
Proof.
  simpl. split.
  - apply filter_length_split4, modal_split.
  - apply filter_length_regroup. intros r.
    unfold ScanResultsModal.is_failed, ScanResultsModal.is_warning, benchmarkAPI.has_status.
    pose proof (status_split r) as H. unfold benchmarkAPI.has_status, other_status in H.
    destruct (Js.strict_eq (r_status r) "PASS"), (Js.strict_eq (r_status r) "FAIL"),
      (Js.strict_eq (r_status r) "WARN"), (ScanResultsModal.isManual r); simpl in *; lia.
Qed.

(** X16: the overview page and the scan-results modal agree on the passed
    count of a scan and on the sum of its failed and warning counts; the
    failed count of the overview is never below that of the modal, which
    also takes a check for Manual when its id contains "Manual". With no
    qualifying scan the statistics are left as they were. *)
Theorem overview_counts_match_modal
    (remediationEvents : list DashboardPage.AuditEvent) (scans : list DashboardPage.ScanHistory) :
  match DashboardPage.computeStats remediationEvents scans with
  | Some stats =>
      exists latest older,
        scans = latest :: older
        /\ let results := default [] (DashboardPage.h_results latest) in
           let m := ScanResultsModal.render results in
           DashboardPage.totalChecks stats = length results
           /\ DashboardPage.passedChecks stats = ScanResultsModal.passedCount m
           /\ (DashboardPage.failedChecks stats + DashboardPage.warningChecks stats
               = ScanResultsModal.failedCount m + ScanResultsModal.warnCount m)%nat
           /\ (ScanResultsModal.failedCount m <= DashboardPage.failedChecks stats)%nat
  | None => scans = []
  end.
Proof.
  destruct scans as [|latest older]; [done|].
  exists latest, older. split; [done|]. simpl.
  repeat split.
  - apply filter_length_regroup. intros r.
    unfold ScanResultsModal.is_failed, ScanResultsModal.is_warning.
    pose proof (status_split r) as H. unfold benchmarkAPI.has_status, other_status in H.
    destruct (Js.strict_eq (r_status r) "PASS"), (Js.strict_eq (r_status r) "FAIL"),
      (Js.strict_eq (r_status r) "WARN"), (ScanResultsModal.isManual r),
      (DashboardPage.isManual r); simpl in *; lia.
  - apply filter_length_mono. intros r.
    unfold ScanResultsModal.is_failed, ScanResultsModal.isManual, DashboardPage.isManual.
    destruct (Js.strict_eq (r_status r) "FAIL"); [|done].
    destruct (Js.strict_eq (r_type r) "Manual"), (Js.has_marker "(Manual)" (r_title r));
      simpl; try done.
Qed.

(** ** Polling in general *)

Lemma poll_waiting (waiting : list benchmarkAPI.ScanPayload) (rest : list benchmarkAPI.StatusReply) :
  Forall still_running waiting ->
  (benchmarkAPI.poll true (map benchmarkAPI.Replied waiting ++ rest)).2
  = (benchmarkAPI.poll true rest).2
  /\ benchmarkAPI.progress_calls
       (benchmarkAPI.poll true (map benchmarkAPI.Replied waiting ++ rest)).1
     = (length waiting + benchmarkAPI.progress_calls (benchmarkAPI.poll true rest).1)%nat
  /\ total_wait (benchmarkAPI.poll true (map benchmarkAPI.Replied waiting ++ rest)).1
     = 2000 * Z.of_nat (length waiting) + total_wait (benchmarkAPI.poll true rest).1.
Proof.
  induction 1 as [|scan waiting [Hc Hf] _ IH]; [by simpl; repeat split; lia|].
  simpl map. simpl app. rewrite poll_continue by done.
  destruct IH as [IH1 [IH2 IH3]]. cbn [fst snd]. split; [done|]. split.
  - unfold benchmarkAPI.progress_calls in *. simpl. rewrite IH2. lia.
  - cbn [total_wait fold_right]. fold (total_wait
      (benchmarkAPI.poll true (map benchmarkAPI.Replied waiting ++ rest)).1).
    rewrite IH3. simpl length. lia.
Qed.

(** X17: polling has no bound of its own. After any number [n] of
    answers that are neither completed nor failed it has called the
    progress callback [n] times and asked to wait [2000 n] milliseconds,
    and it goes on: it is still pending if no further answer comes,
    resolves with the scan of a completed answer after one more callback,
    rejects with "Scan failed" on a failed answer after one more callback,
    and rejects with the message of a fetch error without a further
    callback. Answers after the deciding one are not read. *)
Theorem pollScanStatus_unbounded
    (waiting : list benchmarkAPI.ScanPayload) (final bad : benchmarkAPI.ScanPayload)
    (message : string) (later : list benchmarkAPI.StatusReply) :
  Forall still_running waiting ->
  benchmarkAPI.scan_status final = "completed" ->
  benchmarkAPI.scan_status bad = "failed" ->
  let script := map benchmarkAPI.Replied waiting in
  let n := length waiting in
  ((benchmarkAPI.pollScanStatus true script).2 = benchmarkAPI.Pending
   /\ benchmarkAPI.progress_calls (benchmarkAPI.pollScanStatus true script).1 = n
   /\ total_wait (benchmarkAPI.pollScanStatus true script).1 = 2000 * Z.of_nat n)
  /\ ((benchmarkAPI.pollScanStatus true (script ++ benchmarkAPI.Replied final :: later)).2
      = benchmarkAPI.Resolved final
      /\ benchmarkAPI.progress_calls
           (benchmarkAPI.pollScanStatus true (script ++ benchmarkAPI.Replied final :: later)).1
         = S n
      /\ total_wait
           (benchmarkAPI.pollScanStatus true (script ++ benchmarkAPI.Replied final :: later)).1
         = 2000 * Z.of_nat n)
  /\ ((benchmarkAPI.pollScanStatus true (script ++ benchmarkAPI.Replied bad :: later)).2
      = benchmarkAPI.Rejected "Scan failed"
      /\ benchmarkAPI.progress_calls
           (benchmarkAPI.pollScanStatus true (script ++ benchmarkAPI.Replied bad :: later)).1
         = S n)
  /\ ((benchmarkAPI.pollScanStatus true (script ++ benchmarkAPI.Threw message :: later)).2
      = benchmarkAPI.Rejected message
      /\ benchmarkAPI.progress_calls
           (benchmarkAPI.pollScanStatus true (script ++ benchmarkAPI.Threw message :: later)).1
         = n).
Proof.
  intros Hwaiting Hfinal Hbad script n. unfold benchmarkAPI.pollScanStatus. subst script n.
  pose proof (poll_waiting waiting [] Hwaiting) as H0. rewrite app_nil_r in H0.
  pose proof (poll_waiting waiting (benchmarkAPI.Replied final :: later) Hwaiting) as H1.
  pose proof (poll_waiting waiting (benchmarkAPI.Replied bad :: later) Hwaiting) as H2.
  pose proof (poll_waiting waiting (benchmarkAPI.Threw message :: later) Hwaiting) as H3.
  cbn [benchmarkAPI.poll] in H0, H1, H2, H3. rewrite Hfinal in H1. rewrite Hbad in H2.
  simpl in H0, H1, H2, H3.
  destruct H0 as [? [? ?]], H1 as [? [? ?]], H2 as [? [? ?]], H3 as [? [? ?]].
  unfold benchmarkAPI.progress_calls in *. simpl in *.
  repeat split; try done; lia.
Qed.

(** The theorem above after two answers "running" and one "pending". *)
Lemma pollScanStatus_unbounded_witness :
  (Forall still_running
     [scan_reply "running" 10; scan_reply "running" 60; scan_reply "pending" 60]
   /\ benchmarkAPI.scan_status (scan_reply "completed" 100) = "completed"
   /\ benchmarkAPI.scan_status (scan_reply "failed" 60) = "failed")
  /\ (benchmarkAPI.pollScanStatus true
        (map benchmarkAPI.Replied
           [scan_reply "running" 10; scan_reply "running" 60; scan_reply "pending" 60])).2
     = benchmarkAPI.Pending
  /\ total_wait
       (benchmarkAPI.pollScanStatus true
          (map benchmarkAPI.Replied
             [scan_reply "running" 10; scan_reply "running" 60; scan_reply "pending" 60]
           ++ [benchmarkAPI.Replied (scan_reply "completed" 100)])).1
     = 6000.
Proof.
  assert (Forall still_running
            [scan_reply "running" 10; scan_reply "running" 60; scan_reply "pending" 60])
    as Hwaiting by (repeat constructor; discriminate).
  split; [by repeat split|].
  destruct (pollScanStatus_unbounded
              [scan_reply "running" 10; scan_reply "running" 60; scan_reply "pending" 60]
              (scan_reply "completed" 100) (scan_reply "failed" 60) "" []
              Hwaiting eq_refl eq_refl) as [[Hpending _] [[_ [_ Hwait]] _]].
  split; [exact Hpending|exact Hwait].
Defined.

(** ** Substitution of texts that were substituted before *)

Lemma includes_dollar_free (key s : string) :
  token_shaped key = true -> dollar_free s = true -> Js.includes key s = false.
Proof.
  intros Hkey. destruct key as [|k body]; [done|].
  simpl in Hkey. apply andb_true_iff in Hkey as [Hk _]. apply bool_decide_eq_true in Hk as ->.
  induction s as [|c s IH]; [done|]. intros Hs. simpl in Hs.
  apply andb_true_iff in Hs as [Hc Hs]. apply negb_true_iff, bool_decide_eq_false in Hc.
  cbn [Js.includes]. rewrite prefix_cons, bool_decide_eq_false_2 by congruence.
  simpl. by apply IH.
Qed.

Lemma substitute_dollar_free (s : string) :
  dollar_free s = true -> substitute kubeVarMap s = s.
Proof.
  intros Hs. apply substitute_absent; [apply kubeVarMap_shaped|].
  apply forallb_forall. intros [k v] Hin. simpl. apply negb_true_iff.
  apply includes_dollar_free; [|done].
  pose proof kubeVarMap_shaped as H. rewrite forallb_forall in H. by apply H in Hin.
Qed.

Lemma AuditPage_some (s : string) :
  AuditPage.applyKubeSubstitutions (Some s) = substitute kubeVarMap s.
Proof. by destruct s. Qed.

Lemma value_of_dollar_free (key : string) :
  In key (map fst kubeVarMap) -> dollar_free (value_of key) = true.
Proof.
  intros Hin. unfold value_of, lookup_value.
  destruct (List.find _ kubeVarMap) as [[k v]|] eqn:E; simpl.
  - apply find_some in E as [E _]. by apply (table_entry_ok _ kubeVarMap_ok) in E as [_ ?].
  - apply in_map_iff in Hin as [[k v] [<- Hin]]. eapply find_none in E; [|exact Hin].
    simpl in E. by apply bool_decide_eq_false in E.
Qed.

Lemma weave_expanded_dollar_free (parts : list (string * string)) :
  Forall (fun part => In part.1 (map fst kubeVarMap) /\ dollar_free part.2 = true) parts ->
  dollar_free (weave (expand_parts parts)) = true.
Proof.
  induction 1 as [|[w sep] parts [Hw Hsep] _ IH]; [done|].
  unfold expand_parts in *. cbn [map weave fst snd] in *.
  rewrite !dollar_free_append, IH, Hsep, value_of_dollar_free by done. done.
Qed.

(** X18: a text without a dollar sign passes through every copy of the
    utility unchanged. A text whose dollar signs all begin tokens of the
    table, any number of times and in any order, comes out with each token
    replaced by its value and without a dollar sign, so substituting the
    result again changes nothing. *)
Theorem substitution_settles (plain pre : string) (parts : list (string * string)) :
  dollar_free plain = true ->
  dollar_free pre = true ->
  Forall (fun part => In part.1 (map fst kubeVarMap) /\ dollar_free part.2 = true) parts ->
  (AuditPage.applyKubeSubstitutions (Some plain) = plain
   /\ ScanResultsModal.applyKubeSubstitutions (Some plain) = Some plain
   /\ RemediationModal.applyKubeSubstitutions (Some plain) = Some plain
   /\ BenchmarkItemCard.applyKubeSubstitutions (Some plain) = Some plain)
  /\ (let out := AuditPage.applyKubeSubstitutions (Some (pre +:+ weave parts)) in
      out = pre +:+ weave (expand_parts parts)
      /\ dollar_free out = true
      /\ AuditPage.applyKubeSubstitutions (Some out) = out).
Proof.
  intros Hplain Hpre Hparts. split.
  - unfold ScanResultsModal.applyKubeSubstitutions, RemediationModal.applyKubeSubstitutions,
      BenchmarkItemCard.applyKubeSubstitutions.
    rewrite AuditPage_some, substitute_or_same_some, substitute_dollar_free by done. done.
  - cbv zeta. rewrite !AuditPage_some, substitute_weave by done.
    assert (dollar_free (pre +:+ weave (expand_parts parts)) = true) as Hout.
    { by rewrite dollar_free_append, Hpre, weave_expanded_dollar_free. }
    split; [done|]. split; [done|]. by apply substitute_dollar_free.
Qed.

(** The theorem above at a text that names [$kubeletbin] twice. *)
Lemma substitution_settles_witness :
  (dollar_free "kubectl get nodes" = true
   /\ dollar_free "sudo " = true
   /\ Forall (fun part => In part.1 (map fst kubeVarMap) /\ dollar_free part.2 = true)
        kubelet_twice)
  /\ AuditPage.applyKubeSubstitutions (Some ("sudo " +:+ weave kubelet_twice))
     = "sudo kubelet --version; systemctl restart kubelet".
Proof.
  assert (Forall (fun part : string * string =>
                    In part.1 (map fst kubeVarMap) /\ dollar_free part.2 = true)
            kubelet_twice) as Hparts.
  { repeat constructor; simpl; tauto. }
  split; [by repeat split|].
  destruct (substitution_settles "kubectl get nodes" "sudo " kubelet_twice
              eq_refl eq_refl Hparts) as [_ [Hout _]].
  rewrite Hout. by vm_compute.
Defined.

(** ** Elapsed time on the overview page *)

(** X19: the text for an elapsed time never shows a count of 0 and never
    a count that fills the next unit: below one minute (or in the future)
    it is "Just now"; otherwise it counts whole minutes up to 59, whole
    hours up to 23, whole days up to 29, months of 30 days up to 11, or
    years of 360 days, and the count is the number of whole units that
    have elapsed. *)
Theorem elapsed_buckets (diffMs : Z) :
  match DashboardPage.elapsed diffMs with
  | DashboardPage.JustNow => diffMs < 60000
  | DashboardPage.Ago count unit =>
      1 <= count
      /\ ((unit = "minute" /\ count <= 59
           /\ 60000 * count <= diffMs < 60000 * (count + 1))
          \/ (unit = "hour" /\ count <= 23
              /\ 3600000 * count <= diffMs < 3600000 * (count + 1))
          \/ (unit = "day" /\ count <= 29
              /\ 86400000 * count <= diffMs < 86400000 * (count + 1))
          \/ (unit = "month" /\ count <= 11
              /\ 2592000000 * count <= diffMs < 2592000000 * (count + 1))
          \/ (unit = "year"
              /\ 31104000000 * count <= diffMs < 31104000000 * (count + 1)))
  end.
Proof.
  unfold DashboardPage.elapsed. cbv zeta.
  pose proof (Z.mul_div_le diffMs 60000 ltac:(lia)).
  pose proof (Z.mul_succ_div_gt diffMs 60000 ltac:(lia)).
  pose proof (Z.mul_div_le diffMs 3600000 ltac:(lia)).
  pose proof (Z.mul_succ_div_gt diffMs 3600000 ltac:(lia)).
  pose proof (Z.mul_div_le diffMs 86400000 ltac:(lia)).
  pose proof (Z.mul_succ_div_gt diffMs 86400000 ltac:(lia)).
  pose proof (Z.mul_div_le diffMs 2592000000 ltac:(lia)).
  pose proof (Z.mul_succ_div_gt diffMs 2592000000 ltac:(lia)).
  pose proof (Z.mul_div_le diffMs 31104000000 ltac:(lia)).
  pose proof (Z.mul_succ_div_gt diffMs 31104000000 ltac:(lia)).
  destruct (Z.ltb_spec diffMs 0) as [Hneg|Hpos]; [lia|].
  destruct (Z.ltb_spec (diffMs / 60000) 1) as [Hlt1|Hge1]; [lia|].
  destruct (Z.ltb_spec (diffMs / 60000) 60) as [Hlt2|Hge2].
  { split; [lia|]. left. split; [done|]. lia. }
  destruct (Z.ltb_spec (diffMs / 3600000) 24) as [Hlt3|Hge3].
  { split; [lia|]. right. left. split; [done|]. lia. }
  destruct (Z.ltb_spec (diffMs / 86400000) 30) as [Hlt4|Hge4].
  { split; [lia|]. right. right. left. split; [done|]. lia. }
  rewrite !Z.div_div by lia. change (86400000 * 30) with 2592000000.
  destruct (Z.ltb_spec (diffMs / 2592000000) 12) as [Hlt5|Hge5].
  { split; [lia|]. right. right. right. left. split; [done|]. lia. }
  change (2592000000 * 12) with 31104000000.
  split; [lia|]. right. right. right. right. split; [done|]. lia.
Qed.

(** ** From the selected node to the visible sections *)

(** X20: when the selected node is in the inventory and its role, in any
    letter case, is "worker", the page shows section 4 only, whatever the
    search text and the type filter; when it is "master", section 4 is not
    shown. *)
Theorem node_role_gates_sections
    (name : string) (node : k8sAPI.InventoryNode) (inventoryNodes : list k8sAPI.InventoryNode)
    (sections : list BenchmarkSection) (searchTerm filterType : string) :
  name <> "" ->
  List.find (fun n => bool_decide (k8sAPI.n_name n = name)) inventoryNodes = Some node ->
  let role := BenchmarkDashboard.selectedNodeRole (Some name) inventoryNodes in
  let shown := BenchmarkDashboard.filteredSections sections searchTerm filterType role in
  (Js.toLowerCase <$> k8sAPI.n_role node = Some "worker" ->
   Forall (fun section => s_id section = "section4") shown)
  /\ (Js.toLowerCase <$> k8sAPI.n_role node = Some "master" ->
      Forall (fun section => s_id section <> "section4") shown).
Proof.
  intros Hname Hfind role shown.
  assert (forall r, r <> "" -> Js.toLowerCase <$> k8sAPI.n_role node = Some r -> role = Some r)
    as Hrole.
  { intros r Hr E. subst role. unfold BenchmarkDashboard.selectedNodeRole.
    destruct name as [|c name']; [done|]. rewrite Hfind. cbv zeta. rewrite E.
    by destruct r. }
  pose proof (shown_sections_gated sections searchTerm filterType role) as Hgated.
  fold shown in Hgated. split; intros E; apply Hrole in E; try done;
    (eapply Forall_impl; [exact Hgated|]); intros section [_ [_ [_ [Hw Hm]]]]; auto.
Qed.

(** The theorem above at a node whose role is written "Worker". *)
Lemma node_role_gates_sections_witness :
  ("k8s-worker-node01" <> ""
   /\ List.find (fun n => bool_decide (k8sAPI.n_name n = "k8s-worker-node01")) worker_inventory
      = head worker_inventory)
  /\ BenchmarkDashboard.filteredSections [section1] "" "all"
       (BenchmarkDashboard.selectedNodeRole (Some "k8s-worker-node01") worker_inventory)
     = [].
Proof.
  split; [by split|].
  destruct (node_role_gates_sections
              "k8s-worker-node01"
              {| k8sAPI.n_name := "k8s-worker-node01"; k8sAPI.n_ip := Some "192.168.1.112";
                 k8sAPI.n_user := Some "ansible-user"; k8sAPI.n_role := Some "Worker";
                 k8sAPI.n_status := Some "ready"; k8sAPI.n_note := None |}
              worker_inventory [section1] "" "all" ltac:(discriminate) eq_refl)
    as [Hworker _].
  specialize (Hworker eq_refl).
  destruct (BenchmarkDashboard.filteredSections _ _ _ _) as [|shown rest] eqn:E; [done|].
  exfalso. apply Forall_inv in Hworker.
  assert (shown ∈ BenchmarkDashboard.filteredSections [section1] "" "all"
            (BenchmarkDashboard.selectedNodeRole (Some "k8s-worker-node01") worker_inventory))
    as Hin by (rewrite E; left).
  pose proof (shown_sections_gated [section1] "" "all"
                (BenchmarkDashboard.selectedNodeRole (Some "k8s-worker-node01") worker_inventory))
    as Hgated.
  rewrite Forall_forall in Hgated. apply Hgated in Hin as [_ [_ [[section [Hs [Hid _]]] _]]].
  apply list_elem_of_singleton in Hs. subst section. rewrite Hworker in Hid. discriminate.
Defined.

(** ** Fix Selected and the inventory of the bootstrap modal *)

(** X21: Fix Selected opens the remediation modal only for items that are
    shown, selected and FAIL, each taken from a section of the catalogue
    allowed for the role, and never with an empty list; it does nothing
    exactly when no shown item is selected and FAIL. The type of the item
    plays no part: a failed Manual item is included. *)
Theorem handleRemediateSelected_visible_failed (sections : list BenchmarkSection)
    (searchTerm filterType : string) (role : option string) :
  let shown := BenchmarkDashboard.filteredSections sections searchTerm filterType role in
  match BenchmarkDashboard.handleRemediateSelected shown with
  | Some ids =>
      ids <> []
      /\ ids = map i_id (BenchmarkDashboard.selectedFailedItems shown)
      /\ Forall (fun item =>
                   i_selected item = true
                   /\ i_status item = Some "FAIL"
                   /\ BenchmarkDashboard.visible searchTerm filterType item = true
                   /\ exists section,
                        section ∈ sections /\ item ∈ s_items section
                        /\ s_id section ∈ BenchmarkDashboard.getSectionsForRole role)
           (BenchmarkDashboard.selectedFailedItems shown)
  | None =>
      Forall (fun section =>
                Forall (fun item => i_selected item = false \/ i_status item <> Some "FAIL")
                  (s_items section))
        shown
  end.
Proof.
  intros shown. unfold BenchmarkDashboard.handleRemediateSelected. cbv zeta.
  rewrite length_map.
  destruct (BenchmarkDashboard.selectedFailedItems shown) as [|x items] eqn:E; simpl.
  - apply Forall_forall. intros section Hs. apply Forall_forall. intros item Hi.
    destruct (i_selected item) eqn:Hsel; [|by left]. right. intros Hst.
    assert (item ∈ BenchmarkDashboard.selectedFailedItems shown) as Hin.
    { unfold BenchmarkDashboard.selectedFailedItems.
      apply list_elem_of_In, in_flat_map. exists section.
      rewrite <- !list_elem_of_In. split; [done|]. apply filter_elem_of.
      split; [done|]. rewrite Hsel. by apply strict_eq_true. }
    rewrite E in Hin. by apply elem_of_nil in Hin.
  - split; [done|]. split; [done|]. rewrite <- E.
    apply Forall_forall. intros item Hin.
    unfold BenchmarkDashboard.selectedFailedItems in Hin.
    apply list_elem_of_In, in_flat_map in Hin as [shownSection [Hs Hi]].
    apply list_elem_of_In in Hs, Hi. apply filter_elem_of in Hi as [Hi Hp].
    apply andb_true_iff in Hp as [Hsel Hst]. apply strict_eq_true in Hst.
    pose proof (shown_sections_gated sections searchTerm filterType role) as Hgated.
    rewrite Forall_forall in Hgated.
    destruct (Hgated _ Hs) as [Hallowed [_ [[section [Hsec [Hid [_ Hitems]]]] _]]].
    rewrite Hitems in Hi. apply filter_elem_of in Hi as [Hi Hvis].
    repeat split; try done. exists section. by rewrite <- Hid.
Qed.

(** X22: every node the layout hands to the bootstrap modal has a status;
    a node whose status is missing or empty in the inventory answer is
    listed as not bootstrapped and its checkbox is enabled. When the
    inventory cannot be loaded the list is emptied and the sidebar shows a
    non-empty message. *)
Theorem loadInventory_modal_nodes (forceRefresh ok : bool) (data : k8sAPI.InventoryData)
    (st : MainLayout.State) :
  let st' := MainLayout.loadInventory forceRefresh ok data st in
  Forall (fun n => BootstrapModal.bn_status n <> "") (MainLayout.bootstrapNodes st')
  /\ (ok = true ->
      MainLayout.sidebarMessage st' = MainLayout.sidebarMessage st
      /\ Forall2 (fun n bn =>
                    BootstrapModal.bn_name bn = k8sAPI.n_name n
                    /\ (Js.truthy (k8sAPI.n_status n) = false ->
                        BootstrapModal.bn_status bn = "not_bootstrapped"
                        /\ BootstrapModal.disabled bn = false)
                    /\ (Js.truthy (k8sAPI.n_status n) = true ->
                        Some (BootstrapModal.bn_status bn) = k8sAPI.n_status n))
           (default [] (k8sAPI.inv_nodes data)) (MainLayout.bootstrapNodes st'))
  /\ (ok = false ->
      MainLayout.bootstrapNodes st' = []
      /\ exists message, MainLayout.sidebarMessage st' = Some message /\ message <> "").
Proof.
  unfold MainLayout.loadInventory, k8sAPI.getInventory. cbn [snd].
  destruct ok; simpl.
  - split; [|split; [|done]].
    + apply Forall_forall. intros bn Hbn. apply list_elem_of_fmap in Hbn as [n [-> _]].
      simpl. by apply or_lit_nonempty.
    + intros _. split; [done|].
      apply Forall2_fmap_r, Forall_Forall2_diag, Forall_forall. intros n _.
      unfold compose, MainLayout.toBootstrapNode, BootstrapModal.disabled. simpl.
      destruct (k8sAPI.n_status n) as [[|c s]|]; simpl; by repeat split.
  - split; [constructor|]. split; [done|]. intros _. split; [done|].
    eexists. split; [reflexivity|].
    by destruct (k8sAPI.errorMsg (k8sAPI.inv_body data)).
Qed.
